(** * Review theme/sentiment engine: [rev2.py] and [tt.py]

    A shallow embedding of the two [CompanyReviewAnalyzer] classes of the
    repository (the flat-catalog analyzer of [rev2.py] and the per-polarity
    analyzer of [tt.py]) together with the properties stated about them.

    Conventions of the embedding.
    - A review is a Python [dict] with string keys: a [gmap string pyval].
    - Python values that a review can hold are the inductive [pyval].
    - Insertion-ordered dictionaries whose order is observable (the catalog,
      the tallies, [theme_sentiments]) are association lists.
    - Exceptions are explicit: fallible code returns an [outcome].
    - Text is a [string] of ASCII characters; [str.lower], [str.isdigit]
      and [str.title] are the ASCII ones.
    - A Python [float] is the rational it denotes (plus [nan] and the
      infinities where a review can carry them).  Percentages are computed
      exactly; the rounding of binary64 arithmetic is kept apart, in
      [Binary64], and compared on the corpora of the examples.
    - The sentiment scorer is a parameter [compound] of the analyzers.
    - The iteration order of a Python [set] is not fixed by the language.
      It is the order of the slots of the hash table; the slot a key ends
      up in, given what was inserted, is a parameter [slot]. *)

From Stdlib Require Import QArith Qabs ZArith Lia Lqa Ascii String.
From Stdlib Require Import DecimalString DecimalPos DecimalN SpecFloat.
From stdpp Require Import gmap strings list sorting.

Open Scope string_scope.
Open Scope list_scope.

(** ** Python values and exceptions *)

Inductive pyfloat : Type :=
  | FNan
  | FInf (negative : bool)
  | FFin (q : Q).

Inductive pyval : Type :=
  | VNone
  | VBool (b : bool)
  | VInt (z : Z)
  | VFloat (f : pyfloat)
  | VStr (s : string)
  | VOther (truth : bool).  (* list, dict, ...: only its truth value is observed *)

Inductive exn : Type :=
  | AttributeError
  | ValueError
  | IndexError
  | OverflowError
  | ZeroDivisionError.

Inductive outcome (A : Type) : Type :=
  | Ok (a : A)
  | Raise (e : exn).
Arguments Ok {A} a.
Arguments Raise {A} e.

Definition bind {A B : Type} (r : outcome A) (k : A -> outcome B) : outcome B :=
  match r with
  | Ok a => k a
  | Raise e => Raise e
  end.

Notation "x <- r ;; k" := (bind r (fun x => k))
  (at level 100, r at next level, right associativity).

(** [try: body  except: return d] *)
Definition try_except {A : Type} (body : outcome A) (d : A) : A :=
  match body with
  | Ok a => a
  | Raise _ => d
  end.

Fixpoint mapM {A B : Type} (f : A -> outcome B) (l : list A) : outcome (list B) :=
  match l with
  | [] => Ok []
  | x :: l' => y <- f x ;; ys <- mapM f l' ;; Ok (y :: ys)
  end.

Fixpoint foldM {A S : Type} (f : S -> A -> outcome S) (l : list A) (s : S)
  : outcome S :=
  match l with
  | [] => Ok s
  | x :: l' => s' <- f s x ;; foldM f l' s'
  end.

(** Truth value of a Python object ([if x], [not x]). *)
Definition truthy (v : pyval) : bool :=
  match v with
  | VNone => false
  | VBool b => b
  | VInt z => negb (z =? 0)%Z
  | VFloat FNan => true
  | VFloat (FInf _) => true
  | VFloat (FFin q) => negb (Qeq_bool q 0)
  | VStr s => negb (String.eqb s "")
  | VOther b => b
  end.

(** [isinstance(v, (int, float))]; [bool] is a subclass of [int]. *)
Definition as_number (v : pyval) : option pyfloat :=
  match v with
  | VBool b => Some (FFin (if b then 1 else 0))
  | VInt z => Some (FFin (inject_Z z))
  | VFloat f => Some f
  | _ => None
  end.

(** [x >= k] and [x <= k] for a number [x] and an [int] literal [k];
    every comparison with [nan] is false. *)
Definition ge_int (x : pyfloat) (k : Z) : bool :=
  match x with
  | FNan => false
  | FInf negative => negb negative
  | FFin q => Qle_bool (inject_Z k) q
  end.

Definition le_int (x : pyfloat) (k : Z) : bool :=
  match x with
  | FNan => false
  | FInf negative => negative
  | FFin q => Qle_bool q (inject_Z k)
  end.

(** ** Sentiments and the per-review result *)

Inductive sentiment : Type := Positive | Negative | Neutral.

Global Instance sentiment_eq_dec : EqDecision sentiment.
Proof. solve_decision. Defined.

(** The dict [{'positive': .., 'negative': .., 'neutral': ..}]. *)
Record buckets (A : Type) : Type := Buckets {
  positive : A;
  negative : A;
  neutral : A
}.
Arguments Buckets {A} _ _ _.
Arguments positive {A} _.
Arguments negative {A} _.
Arguments neutral {A} _.

Definition bucket {A : Type} (s : sentiment) (r : buckets A) : A :=
  match s with
  | Positive => positive r
  | Negative => negative r
  | Neutral => neutral r
  end.

Definition update {A : Type} (s : sentiment) (f : A -> A) (r : buckets A)
  : buckets A :=
  match s with
  | Positive => Buckets (f (positive r)) (negative r) (neutral r)
  | Negative => Buckets (positive r) (f (negative r)) (neutral r)
  | Neutral => Buckets (positive r) (negative r) (f (neutral r))
  end.

(** [result[s].append(theme)] *)
Definition append (s : sentiment) (theme : string) (r : buckets (list string))
  : buckets (list string) :=
  update s (fun l => l ++ [theme]) r.

Definition sentiments : list sentiment := [Positive; Negative; Neutral].

(** ** Insertion-ordered dictionaries *)

Fixpoint dict_get {V : Type} (k : string) (d : list (string * V)) : option V :=
  match d with
  | [] => None
  | (k', v) :: d' => if String.eqb k k' then Some v else dict_get k d'
  end.

(** [d[k] = v]: an existing key keeps its place, a new key goes last. *)
Fixpoint dict_set {V : Type} (k : string) (v : V) (d : list (string * V))
  : list (string * V) :=
  match d with
  | [] => [(k, v)]
  | (k', v') :: d' =>
      if String.eqb k k' then (k', v) :: d' else (k', v') :: dict_set k v d'
  end.

Definition keys {V : Type} (d : list (string * V)) : list string := map fst d.

(** ** Text primitives *)

Definition is_digit (c : ascii) : bool :=
  (48 <=? nat_of_ascii c)%nat && (nat_of_ascii c <=? 57)%nat.

Definition is_upper (c : ascii) : bool :=
  (65 <=? nat_of_ascii c)%nat && (nat_of_ascii c <=? 90)%nat.

Definition is_lower (c : ascii) : bool :=
  (97 <=? nat_of_ascii c)%nat && (nat_of_ascii c <=? 122)%nat.

Definition lower_char (c : ascii) : ascii :=
  if is_upper c then ascii_of_nat (nat_of_ascii c + 32) else c.

Definition upper_char (c : ascii) : ascii :=
  if is_lower c then ascii_of_nat (nat_of_ascii c - 32) else c.

Fixpoint map_string (f : ascii -> ascii) (s : string) : string :=
  match s with
  | EmptyString => EmptyString
  | String c s' => String (f c) (map_string f s')
  end.

Fixpoint filter_string (p : ascii -> bool) (s : string) : string :=
  match s with
  | EmptyString => EmptyString
  | String c s' => if p c then String c (filter_string p s') else filter_string p s'
  end.

(** [s.lower()] *)
Definition lower (s : string) : string := map_string lower_char s.

(** [k in t] for strings: [k] occurs in [t] as a substring. *)
Fixpoint contains (t k : string) : bool :=
  String.prefix k t ||
  match t with
  | EmptyString => false
  | String _ t' => contains t' k
  end.

(** [s.split(sep)] for a one-character separator. *)
Fixpoint split (sep : ascii) (s : string) : list string :=
  match s with
  | EmptyString => [EmptyString]
  | String c s' =>
      if Ascii.eqb c sep then EmptyString :: split sep s'
      else match split sep s' with
           | [] => [String c EmptyString]
           | p :: ps => String c p :: ps
           end
  end.

(** [int(s)] on the strings this program passes to it, which are what is
    left of a text after [filter(str.isdigit, _)]: a string of decimal
    digits is read as a number, anything else (the empty string above all)
    is a [ValueError].  So is a string of more than 4300 digits, CPython's
    default limit for the conversion. *)
Definition int (s : string) : outcome Z :=
  if (4300 <? String.length s)%nat then Raise ValueError
  else
    match NilZero.uint_of_string s with
    | Some d => Ok (Z.of_N (N.of_uint d))
    | None => Raise ValueError
    end.

(** [n / 2] for an [int] [n]: true division, which raises [OverflowError]
    when the quotient does not fit a binary64 float. *)
Definition true_div_2 (n : Z) : outcome Q :=
  if (2 ^ 1025 - 2 ^ 971 <=? Z.abs n)%Z then Raise OverflowError
  else Ok (n # 2).

Definition sum (l : list Z) : Z := fold_left Z.add l 0%Z.

(** [str(n)] for a natural number. *)
Definition str_of_N (n : N) : string := NilZero.string_of_uint (N.to_uint n).

Definition Qlt_bool (x y : Q) : bool := negb (Qle_bool y x).

(** [max(a, b)]: the first of the largest arguments. *)
Definition max2 (a b : Q) : Q := if Qlt_bool a b then b else a.
Definition max3 (a b c : Q) : Q := max2 (max2 a b) c.
Definition min2 (a b : Q) : Q := if Qlt_bool b a then b else a.

(** ** Sorting and set iteration *)

(** [sorted] is stable: [insert_sorted] puts [x], which came first, before
    the first element that may follow it. *)
Fixpoint insert_sorted {A : Type} (leb : A -> A -> bool) (x : A) (l : list A)
  : list A :=
  match l with
  | [] => [x]
  | y :: l' => if leb x y then x :: y :: l' else y :: insert_sorted leb x l'
  end.

Definition sorted_by {A : Type} (leb : A -> A -> bool) (l : list A) : list A :=
  foldr (insert_sorted leb) [] l.

(** [sorted(list(set(l)))] on strings.  The order in which the set yields
    its elements does not show: they are distinct and [sorted] orders
    them completely. *)
Definition sorted_set (l : list string) : list string :=
  sorted_by String.leb (remove_dups l).

(** Iterating over a set into which the elements of [inserted] were put in
    that order: its distinct elements by increasing table slot. *)
Definition set_iter (slot : list string -> string -> N)
    (inserted : list string) : list string :=
  sorted_by (fun a b => (slot inserted a <=? slot inserted b)%N)
            (remove_dups inserted).

(** Two slot assignments.  [first_index] leaves the keys as they were
    inserted (what a table does with keys that collide and are probed
    linearly); [by_code] places a key by its own code alone, whatever was
    inserted before. *)
Fixpoint first_index (l : list string) (x : string) : N :=
  match l with
  | [] => 0%N
  | y :: l' => if String.eqb x y then 0%N else N.succ (first_index l' x)
  end.

Definition by_code (l : list string) (x : string) : N := N.pos (encode x).

(** ** Rendering a summary line *)

Definition is_alpha (c : ascii) : bool := is_upper c || is_lower c.

(** [s.replace(a, b)] for single characters. *)
Definition replace (a b : ascii) (s : string) : string :=
  map_string (fun c => if Ascii.eqb c a then b else c) s.

(** [s.title()]: a letter is upper-cased after a non-letter and
    lower-cased after a letter. *)
Fixpoint title_from (previous_is_cased : bool) (s : string) : string :=
  match s with
  | EmptyString => EmptyString
  | String c s' =>
      if is_alpha c
      then String (if previous_is_cased then lower_char c else upper_char c)
                  (title_from true s')
      else String c (title_from false s')
  end.

Definition title (s : string) : string := title_from false s.

(** Nearest integer, ties to the even one. *)
Definition round_half_even (q : Q) : Z :=
  let n := Qnum q in
  let d := Z.pos (Qden q) in
  let f := (n / d)%Z in
  match (2 * (n mod d) ?= d)%Z with
  | Lt => f
  | Gt => (f + 1)%Z
  | Eq => if Z.even f then f else (f + 1)%Z
  end.

(** [f"{q:.1f}"] *)
Definition fmt_1f (q : Q) : string :=
  let t := round_half_even (q * 10)%Q in
  let a := Z.to_N (Z.abs t) in
  ((if (t <? 0)%Z then "-" else "")
   ++ str_of_N (a / 10) ++ "." ++ str_of_N (a mod 10))%string.

Definition mem_char (c : ascii) (chars : string) : bool :=
  existsb (Ascii.eqb c) (list_ascii_of_string chars).

(** [s.rstrip(chars)]: drop the trailing characters that occur in [chars]. *)
Fixpoint rstrip (chars : string) (s : string) : string :=
  match s with
  | EmptyString => EmptyString
  | String c s' =>
      match rstrip chars s' with
      | EmptyString => if mem_char c chars then EmptyString else String c EmptyString
      | r => String c r
      end
  end.

(** [float(s)] on the texts this program passes to it: an optional sign,
    digits, a point, digits.  Any other text is a [ValueError]. *)
Definition float_unsigned (s : string) : outcome Q :=
  match split "." s with
  | [i; f] =>
      match NilZero.uint_of_string i, NilZero.uint_of_string f with
      | Some di, Some df =>
          Ok (inject_Z (Z.of_N (N.of_uint di))
              + (Z.of_N (N.of_uint df) # Pos.of_nat (10 ^ String.length f)))%Q
      | _, _ => Raise ValueError
      end
  | _ => Raise ValueError
  end.

Definition float (s : string) : outcome Q :=
  match s with
  | String c s' =>
      if Ascii.eqb c "-" then q <- float_unsigned s' ;; Ok (- q)%Q
      else float_unsigned s
  | EmptyString => Raise ValueError
  end.

(** [l[1]] *)
Definition item_1 {A : Type} (l : list A) : outcome A :=
  match l with
  | _ :: x :: _ => Ok x
  | _ => Raise IndexError
  end.

(** The key of the final sort:
    [float(x.split('(')[1].rstrip('% of reviews)'))]. *)
Definition sort_key (x : string) : outcome Q :=
  part <- item_1 (split "(" x) ;;
  float (rstrip "% of reviews)" part).

(** [sorted(l, key=sort_key, reverse=True)]: the keys are computed first,
    then the texts are ordered by decreasing key, equal keys keeping
    their order. *)
Definition sorted_by_key_reverse (l : list string) : outcome (list string) :=
  keyed <- mapM (fun x => k <- sort_key x ;; Ok (k, x)) l ;;
  Ok (map snd (sorted_by (fun a b => Qle_bool (fst b) (fst a)) keyed)).

(** [theme_texts.get(theme, theme.replace('_', ' ').title())] followed by
    the percentage. *)
Definition render (theme_texts : list (string * string)) (theme : string)
    (percentage : Q) : string :=
  (default (title (replace "_" " " theme)) (dict_get theme theme_texts)
   ++ " (" ++ fmt_1f percentage ++ "% of reviews)")%string.

(** ** Tallies *)

(** [d[theme] += 1] on a [defaultdict(int)]. *)
Definition incr (theme : string) (d : list (string * nat)) : list (string * nat) :=
  dict_set theme (default 0%nat (dict_get theme d) + 1)%nat d.

(** [d.get(theme, 0)] *)
Definition count (theme : string) (d : list (string * nat)) : nat :=
  default 0%nat (dict_get theme d).

(** The inner loops of [generate_summary]:
    [for sentiment, themes in analysis.items(): for theme in themes: ...] *)
Definition tally_review (all_themes : buckets (list (string * nat)))
    (analysis : buckets (list string)) : buckets (list (string * nat)) :=
  fold_left
    (fun acc s => update s (fun d => fold_left (fun d theme => incr theme d)
                                               (bucket s analysis) d) acc)
    sentiments all_themes.

(** [(count / total_reviews) * 100] *)
Definition percent (count total_reviews : nat) : outcome Q :=
  if (total_reviews =? 0)%nat then Raise ZeroDivisionError
  else Ok (inject_Z (Z.of_nat count) / inject_Z (Z.of_nat total_reviews) * 100)%Q.

(** The loop of [generate_summary] that fills the summary:
    [summary[sentiment].append(self._generate_theme_text(theme, percentage))]. *)
Definition fill_summary (_generate_theme_text : string -> Q -> string)
    (theme_sentiments : list (string * (sentiment * Q)))
  : buckets (list string) :=
  fold_left
    (fun summary '(theme, (s, percentage)) =>
       append s (_generate_theme_text theme percentage) summary)
    theme_sentiments (Buckets [] [] []).

(** The loop that sorts each category of the summary. *)
Definition sort_summary (summary : buckets (list string))
  : outcome (buckets (list string)) :=
  p <- sorted_by_key_reverse (positive summary) ;;
  n <- sorted_by_key_reverse (negative summary) ;;
  u <- sorted_by_key_reverse (neutral summary) ;;
  Ok (Buckets p n u).

(** The compound score at which a text counts as positive: the float
    literal [0.05], that is 3602879701896397 / 2^56. *)
Definition compound_threshold : Q := 3602879701896397 # 72057594037927936.

(** [VADER]'s verdict on a compound score. *)
Definition overall_sentiment (compound : Q) : sentiment :=
  if Qle_bool compound_threshold compound then Positive
  else if Qle_bool compound (- compound_threshold)%Q then Negative
  else Neutral.

(** A method of [str] called on [v].  The values of the model other than
    texts have no such method, whence [AttributeError]; bytes-like values,
    which have [lower] and [split] and fail with a [TypeError] once a
    [str] meets them, are not among the values of the model. *)
Definition as_str (v : pyval) : outcome string :=
  match v with
  | VStr s => Ok s
  | _ => Raise AttributeError
  end.

(** ** Rating thresholds ([__init__]) *)

Definition RATING_THRESHOLD_HIGH : Z := 7.
Definition RATING_THRESHOLD_LOW : Z := 4.

Definition rating_fields : list (string * string) :=
  [ ("work_life_balance", "work_life_balance");
    ("career_growth", "career_growth");
    ("leadership_management", "leadership");
    ("innovation", "innovation") ].

(** ** The flat-catalog analyzer, [rev2.py] *)

Module Rev2.

(** [self.themes]: one keyword list per theme. *)
Definition themes : list (string * list string) :=
  [ ("work_culture",
      [ "culture"; "environment"; "atmosphere"; "workplace"; "team";
        "collaboration"; "friendly"; "inclusive"; "diverse"; "supportive";
        "transparency"; "ethics"; "values"; "diversity"; "inclusion";
        "respect"; "belonging"; "community"; "social"; "fun"; "positive";
        "toxic"; "politics"; "bureaucracy" ]);
    ("leadership",
      [ "leadership"; "management"; "direction"; "strategy"; "vision";
        "leader"; "manager"; "executive"; "boss"; "supervisor";
        "communication"; "transparency"; "decision"; "guidance";
        "mentorship"; "coaching"; "feedback"; "recognition";
        "micromanagement"; "hierarchy"; "direction"; "clarity" ]);
    ("compensation",
      [ "salary"; "benefits"; "pay"; "compensation"; "bonus"; "package";
        "stock"; "insurance"; "retirement"; "401k"; "raise"; "equity";
        "options"; "rsu"; "healthcare"; "dental"; "vision"; "pto";
        "vacation"; "leave"; "perks"; "allowance"; "reimbursement";
        "overtime"; "commission" ]);
    ("work_life_balance",
      [ "balance"; "flexibility"; "hours"; "schedule"; "remote"; "time";
        "wlb"; "flexible"; "workload"; "overtime"; "vacation"; "burnout";
        "stress"; "pressure"; "deadline"; "weekend"; "holiday"; "family";
        "personal"; "hybrid"; "work from home"; "wfh"; "commute" ]);
    ("career_growth",
      [ "growth"; "learning"; "development"; "opportunity"; "promotion";
        "career"; "training"; "mentor"; "skill"; "advance"; "progress";
        "education"; "certification"; "conference"; "workshop"; "upskill";
        "challenge"; "responsibility"; "exposure"; "path"; "trajectory";
        "potential" ]);
    ("innovation",
      [ "innovation"; "technology"; "creative"; "innovative"; "cutting-edge";
        "modern"; "tools"; "tech"; "startup"; "agile"; "future"; "research";
        "development"; "experimentation"; "breakthrough"; "transformation";
        "digital"; "automation"; "ai"; "machine learning"; "cloud"; "stack" ]);
    ("job_security",
      [ "security"; "stable"; "stability"; "layoff"; "redundancy";
        "permanent"; "contract"; "temporary"; "future"; "uncertainty";
        "downsizing"; "reorganization"; "restructuring"; "merger";
        "acquisition"; "full-time"; "part-time" ]);
    ("office_environment",
      [ "office"; "workspace"; "facility"; "amenities"; "location";
        "parking"; "cafeteria"; "food"; "gym"; "ergonomic"; "desk";
        "equipment"; "supplies"; "building"; "infrastructure"; "safety";
        "clean"; "comfortable" ]);
    ("team_dynamics",
      [ "team"; "colleague"; "coworker"; "peer"; "collaboration";
        "communication"; "support"; "morale"; "conflict"; "politics";
        "drama"; "cooperation"; "teamwork"; "relationship"; "dynamic";
        "interaction"; "coordination" ]);
    ("company_performance",
      [ "performance"; "growth"; "revenue"; "profit"; "market"; "competitor";
        "industry"; "success"; "failure"; "strategy"; "direction";
        "leadership"; "management"; "vision"; "mission"; "goal"; "objective";
        "target" ]);
    ("diversity_inclusion",
      [ "diversity"; "inclusion"; "equality"; "equity"; "discrimination";
        "bias"; "harassment"; "representation"; "minority"; "gender"; "race";
        "age"; "disability"; "lgbt"; "culture"; "background"; "perspective" ]);
    ("project_management",
      [ "project"; "deadline"; "timeline"; "planning"; "execution";
        "delivery"; "scrum"; "agile"; "waterfall"; "methodology"; "process";
        "workflow"; "coordination"; "organization"; "requirement";
        "specification" ]) ].

(** The table of [_generate_theme_text]. *)
Definition theme_texts : list (string * string) :=
  [ ("work_culture",
      "Strong company culture and positive work environment");
    ("diversity",
      "Inclusive workplace with strong diversity initiatives");
    ("ethics",
      "Strong ethical practices and corporate values");
    ("social_impact",
      "Meaningful social impact and community engagement");
    ("collaboration",
      "Collaborative and team-oriented environment");
    ("leadership",
      "Effective leadership and management team");
    ("communication",
      "Clear communication and transparency from management");
    ("strategy",
      "Strong strategic direction and company vision");
    ("mentorship",
      "Quality mentorship and professional guidance");
    ("recognition",
      "Good employee recognition and appreciation practices");
    ("compensation",
      "Competitive compensation and benefits package");
    ("equity",
      "Attractive equity and stock options");
    ("healthcare",
      "Comprehensive healthcare and wellness benefits");
    ("retirement",
      "Strong retirement and financial benefits");
    ("perks",
      "Valuable workplace perks and amenities");
    ("work_life_balance",
      "Good work-life balance and flexible scheduling");
    ("remote_work",
      "Effective remote work policies and support");
    ("time_off",
      "Generous vacation and time-off policies");
    ("workload",
      "Manageable workload and reasonable expectations");
    ("flexibility",
      "Flexible work arrangements and scheduling");
    ("career_growth",
      "Excellent career growth and learning opportunities");
    ("training",
      "Comprehensive training and development programs");
    ("skills_development",
      "Strong focus on skills development and learning");
    ("promotion",
      "Clear promotion paths and advancement opportunities");
    ("education",
      "Good educational benefits and learning resources");
    ("innovation",
      "Strong focus on innovation and modern technologies");
    ("project_variety",
      "Diverse and interesting project opportunities");
    ("creativity",
      "Encouragement of creativity and new ideas");
    ("tools",
      "Access to modern tools and technologies");
    ("autonomy",
      "High degree of autonomy and decision-making freedom");
    ("office_environment",
      "Well-designed and comfortable office space");
    ("equipment",
      "High-quality equipment and resources");
    ("location",
      "Convenient office location and accessibility");
    ("facilities",
      "Great office facilities and amenities");
    ("safety",
      "Strong workplace safety and security measures");
    ("team_quality",
      "High-caliber colleagues and strong team dynamics");
    ("peer_support",
      "Supportive peer relationships and teamwork");
    ("team_spirit",
      "Strong team spirit and camaraderie");
    ("knowledge_sharing",
      "Good knowledge sharing and collaboration");
    ("team_diversity",
      "Diverse and inclusive team composition");
    ("company_stability",
      "Strong company stability and market position");
    ("growth_potential",
      "Excellent company growth and future prospects");
    ("job_security",
      "Good job security and stability");
    ("market_position",
      "Strong market presence and industry standing");
    ("financial_health",
      "Solid financial performance and stability");
    ("client_relations",
      "Positive client relationships and interactions");
    ("project_management",
      "Effective project management practices");
    ("deadlines",
      "Reasonable deadlines and project timelines");
    ("client_quality",
      "High-quality clients and project opportunities");
    ("workflow",
      "Efficient workflow and processes") ].

(** One iteration of the loop of [_analyze_numeric_ratings]. *)
Definition rate_field (review : gmap string pyval)
    (themes : list (string * sentiment)) (ft : string * string)
  : list (string * sentiment) :=
  let '(field, theme) := ft in
  match review !! field with
  | Some rating =>
      match as_number rating with
      | Some x =>
          if ge_int x RATING_THRESHOLD_HIGH then dict_set theme Positive themes
          else if le_int x RATING_THRESHOLD_LOW then dict_set theme Negative themes
          else themes
      | None => themes
      end
  | None => themes
  end.

Definition _analyze_numeric_ratings (review : gmap string pyval)
  : list (string * sentiment) :=
  fold_left (rate_field review) rating_fields [].

Definition _analyze_salary_range (salary_range currency : pyval) : sentiment :=
  if negb (truthy salary_range) || negb (truthy currency) then Neutral
  else
    try_except
      (text <- as_str salary_range ;;
       values <- mapM (fun val => int (filter_string is_digit val))
                      (split "-" text) ;;
       if (length values =? 2)%nat then
         avg_salary <- true_div_2 (sum values) ;;
         if Qlt_bool 100000 avg_salary then Ok Positive
         else if Qlt_bool avg_salary 50000 then Ok Negative
         else Ok Neutral
       else Ok Neutral)
      Neutral.

Definition _generate_theme_text (theme : string) (percentage : Q) : string :=
  render theme_texts theme percentage.

Section Analyzer.

(** [self.sia.polarity_scores(text)['compound']], the external scorer. *)
Variable compound : string -> Q.

(** The slot assignment of the hash table behind [all_unique_themes]. *)
Variable slot : list string -> string -> N.

Definition _analyze_text (text : pyval) : outcome (list string * sentiment) :=
  if negb (truthy text) then Ok ([], Neutral)
  else
    text_str <- as_str text ;;
    let text_lower := lower text_str in
    let sentiment := overall_sentiment (compound text_str) in
    let identified_themes :=
      map fst (filter (fun tk => existsb (contains text_lower) (snd tk)) themes) in
    Ok (identified_themes, sentiment).

(** One iteration of the loop over [text_fields] in [analyze_review]. *)
Definition text_field (review : gmap string pyval)
    (result : buckets (list string)) (field : string)
  : outcome (buckets (list string)) :=
  match review !! field with
  | Some text =>
      if truthy text then
        ts <- _analyze_text text ;;
        Ok (fold_left
              (fun r theme =>
                 if String.eqb field "pros" then append Positive theme r
                 else if String.eqb field "cons" then append Negative theme r
                 else append (snd ts) theme r)
              (fst ts) result)
      else Ok result
  | None => Ok result
  end.

Definition analyze_review (review : gmap string pyval)
  : outcome (buckets (list string)) :=
  let result := Buckets [] [] [] in
  let rating_themes := _analyze_numeric_ratings review in
  let result :=
    fold_left (fun r ts => append (snd ts) (fst ts) r) rating_themes result in
  let result :=
    match review !! "compensation_range", review !! "currency" with
    | Some salary_range, Some currency =>
        append (_analyze_salary_range salary_range currency) "compensation" result
    | _, _ => result
    end in
  result <- foldM (text_field review) ["headline"; "pros"; "cons"] result ;;
  Ok (Buckets (sorted_set (positive result))
              (sorted_set (negative result))
              (sorted_set (neutral result))).

(** The first loop of [generate_summary]. *)
Definition tally (reviews : list (gmap string pyval))
  : outcome (buckets (list (string * nat))) :=
  foldM (fun all_themes review =>
           analysis <- analyze_review review ;;
           Ok (tally_review all_themes analysis))
        reviews (Buckets [] [] []).

(** The dominant sentiment of a theme and its percentage. *)
Definition dominant (pos_pct neg_pct neu_pct : Q) : sentiment * Q :=
  let max_pct := max3 pos_pct neg_pct neu_pct in
  if Qeq_bool max_pct pos_pct && Qlt_bool 0 max_pct then (Positive, pos_pct)
  else if Qeq_bool max_pct neg_pct && Qlt_bool 0 max_pct then (Negative, neg_pct)
  else (Neutral, neu_pct).

(** One iteration of the loop over [all_unique_themes]. *)
Definition decide_theme (all_themes : buckets (list (string * nat)))
    (total_reviews : nat) (theme_sentiments : list (string * (sentiment * Q)))
    (theme : string) : outcome (list (string * (sentiment * Q))) :=
  let pos_count := count theme (positive all_themes) in
  let neg_count := count theme (negative all_themes) in
  let neu_count := count theme (neutral all_themes) in
  pos_pct <- percent pos_count total_reviews ;;
  neg_pct <- percent neg_count total_reviews ;;
  neu_pct <- percent neu_count total_reviews ;;
  let max_pct := max3 pos_pct neg_pct neu_pct in
  if Qle_bool 20 max_pct
  then Ok (dict_set theme (dominant pos_pct neg_pct neu_pct) theme_sentiments)
  else Ok theme_sentiments.

Definition all_unique_themes (all_themes : buckets (list (string * nat)))
  : list string :=
  set_iter slot (keys (positive all_themes) ++ keys (negative all_themes)
                 ++ keys (neutral all_themes)).

Definition theme_sentiments (reviews : list (gmap string pyval))
  : outcome (list (string * (sentiment * Q))) :=
  all_themes <- tally reviews ;;
  let total_reviews := length reviews in
  foldM (decide_theme all_themes total_reviews) (all_unique_themes all_themes) [].

Definition generate_summary (reviews : list (gmap string pyval))
  : outcome (buckets (list string)) :=
  chosen <- theme_sentiments reviews ;;
  sort_summary (fill_summary _generate_theme_text chosen).

End Analyzer.

End Rev2.

(** ** The per-polarity analyzer, [tt.py] *)

Module Tt.

(** [self.themes]: three keyword lists per theme. *)
Definition themes : list (string * buckets (list string)) :=
  [ ("work_culture",
      Buckets
        [ "collaborative"; "inclusive"; "supportive"; "friendly"; "positive" ]
        [ "toxic"; "hostile"; "political"; "bureaucratic"; "unfriendly" ]
        [ "formal"; "casual"; "traditional"; "startup-like"; "corporate" ]);
    ("leadership",
      Buckets
        [ "transparent"; "inspiring"; "approachable"; "effective"; "visionary" ]
        [ "micromanaging"; "unclear"; "disorganized"; "absent"; "poor" ]
        [ "hands-off"; "structured"; "hierarchical"; "decentralized" ]);
    ("compensation",
      Buckets
        [ "competitive"; "generous"; "excellent"; "comprehensive";
          "above-market" ]
        [ "low"; "below-market"; "inadequate"; "unfair"; "poor" ]
        [ "standard"; "industry-average"; "market-rate"; "typical" ]);
    ("work_life_balance",
      Buckets
        [ "flexible"; "balanced"; "accommodating"; "reasonable"; "great" ]
        [ "demanding"; "stressful"; "burnout"; "overwhelming"; "poor" ]
        [ "structured"; "predictable"; "regular"; "standard" ]);
    ("career_growth",
      Buckets
        [ "excellent"; "promising"; "abundant"; "clear"; "supported" ]
        [ "limited"; "stagnant"; "unclear"; "rare"; "nonexistent" ]
        [ "steady"; "gradual"; "traditional"; "standard" ]);
    ("innovation",
      Buckets
        [ "cutting-edge"; "innovative"; "advanced"; "modern"; "progressive" ]
        [ "outdated"; "legacy"; "behind"; "obsolete"; "stagnant" ]
        [ "established"; "stable"; "conventional"; "standard" ]) ].

(** The table of [_generate_theme_text]. *)
Definition theme_texts : list (string * string) :=
  [ ("work_culture",
      "Company culture and work environment");
    ("leadership",
      "Leadership and management approach");
    ("compensation",
      "Compensation and benefits package");
    ("work_life_balance",
      "Work-life balance practices");
    ("career_growth",
      "Career development opportunities");
    ("innovation",
      "Innovation and technological advancement");
    ("work_structure",
      "Organizational structure and processes");
    ("company_size",
      "Company size and operational scale");
    ("industry_position",
      "Position within the industry");
    ("market_focus",
      "Market focus and business approach");
    ("project_complexity",
      "Project scope and complexity");
    ("team_structure",
      "Team organization and dynamics");
    ("communication_style",
      "Communication patterns and practices");
    ("decision_making",
      "Decision-making processes");
    ("change_management",
      "Approach to change and adaptation");
    ("work_pace",
      "Work pace and delivery expectations") ].

Definition rate_field (review : gmap string pyval)
    (themes : list (string * sentiment)) (ft : string * string)
  : list (string * sentiment) :=
  let '(field, theme) := ft in
  match review !! field with
  | Some rating =>
      match as_number rating with
      | Some x =>
          if ge_int x RATING_THRESHOLD_HIGH then dict_set theme Positive themes
          else if le_int x RATING_THRESHOLD_LOW then dict_set theme Negative themes
          else dict_set theme Neutral themes
      | None => themes
      end
  | None => themes
  end.

Definition _analyze_numeric_ratings (review : gmap string pyval)
  : list (string * sentiment) :=
  fold_left (rate_field review) rating_fields [].

(** [location and 'remote' in location.lower()] *)
Definition is_remote (location : pyval) : outcome bool :=
  if truthy location then
    text <- as_str location ;;
    Ok (contains (lower text) "remote")
  else Ok false.

Definition _analyze_salary_range (salary_range currency location : pyval)
  : sentiment :=
  if negb (truthy salary_range) || negb (truthy currency) then Neutral
  else
    try_except
      (text <- as_str salary_range ;;
       values <- mapM (fun val => int (filter_string is_digit val))
                      (split "-" text) ;;
       if (length values =? 2)%nat then
         avg_salary <- true_div_2 (sum values) ;;
         remote <- is_remote location ;;
         let high_threshold := (if remote then 90000 else 100000)%Q in
         let low_threshold := (if remote then 45000 else 50000)%Q in
         if Qlt_bool high_threshold avg_salary then Ok Positive
         else if Qlt_bool avg_salary low_threshold then Ok Negative
         else Ok Neutral
       else Ok Neutral)
      Neutral.

Definition _generate_theme_text (theme : string) (percentage : Q) : string :=
  render theme_texts theme percentage.

Section Analyzer.

Variable compound : string -> Q.
Variable slot : list string -> string -> N.

(** The themes whose keyword list for sentiment [s] matches the text. *)
Definition matched (text_lower : string) (s : sentiment) : list string :=
  map fst (filter (fun tk => existsb (contains text_lower) (bucket s (snd tk)))
                  themes).

(** [identified_themes] maps a sentiment to the themes matched under it;
    a sentiment without a match has no key, which reads as the empty
    list. *)
Definition _analyze_text (text : pyval)
  : outcome (buckets (list string) * sentiment) :=
  if negb (truthy text) then Ok (Buckets [] [] [], Neutral)
  else
    text_str <- as_str text ;;
    let text_lower := lower text_str in
    let overall := overall_sentiment (compound text_str) in
    let identified_themes :=
      Buckets (matched text_lower Positive) (matched text_lower Negative)
              (matched text_lower Neutral) in
    Ok (identified_themes, overall).

(** [text_fields]: [None] stands for the detected sentiment. *)
Definition text_fields : list (string * option sentiment) :=
  [ ("headline", None); ("pros", Some Positive); ("cons", Some Negative) ].

(** One iteration of the loop over [text_fields].  The inner loop runs
    over the sentiments that have matches; the order in which it meets them
    does not show, as every bucket is sorted at the end. *)
Definition text_field (review : gmap string pyval)
    (result : buckets (list string)) (ff : string * option sentiment)
  : outcome (buckets (list string)) :=
  let '(field, forced_sentiment) := ff in
  match review !! field with
  | Some text =>
      if truthy text then
        ts <- _analyze_text text ;;
        Ok (fold_left
              (fun r s =>
                 fold_left
                   (fun r theme =>
                      match forced_sentiment with
                      | Some forced => append forced theme r
                      | None => append s theme r
                      end)
                   (bucket s (fst ts)) r)
              sentiments result)
      else Ok result
  | None => Ok result
  end.

Definition analyze_review (review : gmap string pyval)
  : outcome (buckets (list string)) :=
  let result := Buckets [] [] [] in
  let rating_themes := _analyze_numeric_ratings review in
  let result :=
    fold_left (fun r ts => append (snd ts) (fst ts) r) rating_themes result in
  let result :=
    match review !! "compensation_range" with
    | Some salary_range =>
        append (_analyze_salary_range salary_range
                  (default (VStr "USD") (review !! "currency"))
                  (default VNone (review !! "location")))
               "compensation" result
    | None => result
    end in
  result <- foldM (text_field review) text_fields result ;;
  Ok (Buckets (sorted_set (positive result))
              (sorted_set (negative result))
              (sorted_set (neutral result))).

Definition tally (reviews : list (gmap string pyval))
  : outcome (buckets (list (string * nat))) :=
  foldM (fun all_themes review =>
           analysis <- analyze_review review ;;
           Ok (tally_review all_themes analysis))
        reviews (Buckets [] [] []).

(** The dominant sentiment of a theme and its percentage. *)
Definition dominant (pos_pct neg_pct neu_pct : Q) : sentiment * Q :=
  if Qlt_bool (max2 pos_pct neg_pct) 30
     || Qlt_bool (Qabs (pos_pct - neg_pct)) 15
  then (Neutral, (neu_pct + min2 pos_pct neg_pct)%Q)
  else if Qlt_bool neg_pct pos_pct then (Positive, pos_pct)
  else (Negative, neg_pct).

Definition decide_theme (all_themes : buckets (list (string * nat)))
    (total_reviews : nat) (theme_sentiments : list (string * (sentiment * Q)))
    (theme : string) : outcome (list (string * (sentiment * Q))) :=
  let pos_count := count theme (positive all_themes) in
  let neg_count := count theme (negative all_themes) in
  let neu_count := count theme (neutral all_themes) in
  pos_pct <- percent pos_count total_reviews ;;
  neg_pct <- percent neg_count total_reviews ;;
  neu_pct <- percent neu_count total_reviews ;;
  let verdict := dominant pos_pct neg_pct neu_pct in
  if Qle_bool 15 (snd verdict)
  then Ok (dict_set theme verdict theme_sentiments)
  else Ok theme_sentiments.

Definition all_unique_themes (all_themes : buckets (list (string * nat)))
  : list string :=
  set_iter slot (keys (positive all_themes) ++ keys (negative all_themes)
                 ++ keys (neutral all_themes)).

Definition theme_sentiments (reviews : list (gmap string pyval))
  : outcome (list (string * (sentiment * Q))) :=
  all_themes <- tally reviews ;;
  let total_reviews := length reviews in
  foldM (decide_theme all_themes total_reviews) (all_unique_themes all_themes) [].

Definition generate_summary (reviews : list (gmap string pyval))
  : outcome (buckets (list string)) :=
  chosen <- theme_sentiments reviews ;;
  sort_summary (fill_summary _generate_theme_text chosen).

End Analyzer.

End Tt.

(** ** Vocabulary of the statements *)

(** Order of a rating against an [int] threshold, on the value it denotes. *)
Definition at_least (x : pyfloat) (k : Z) : Prop :=
  match x with
  | FNan => False
  | FInf negative => negative = false
  | FFin q => (inject_Z k <= q)%Q
  end.

Definition at_most (x : pyfloat) (k : Z) : Prop :=
  match x with
  | FNan => False
  | FInf negative => negative = true
  | FFin q => (q <= inject_Z k)%Q
  end.

Definition strictly_between (lo : Z) (x : pyfloat) (hi : Z) : Prop :=
  match x with
  | FFin q => (inject_Z lo < q)%Q /\ (q < inject_Z hi)%Q
  | _ => False
  end.

(** Number of analyses that list [theme] under [s]. *)
Definition occurrences (s : sentiment) (theme : string)
    (analyses : list (buckets (list string))) : nat :=
  length (filter (fun a => theme ∈ bucket s a) analyses).

(** The tally of a list of per-review results. *)
Definition tally_of (analyses : list (buckets (list string)))
  : buckets (list (string * nat)) :=
  fold_left tally_review analyses (Buckets [] [] []).

(** In a tally every key has been counted at least once. *)
Definition counted (d : list (string * nat)) : Prop :=
  forall k, k ∈ keys d <-> (0 < count k d)%nat.

(** A per-review result without repeated themes in a bucket. *)
Definition clean (analysis : buckets (list string)) : Prop :=
  forall s, NoDup (bucket s analysis).

(** A per-review result whose themes all belong to [U]. *)
Definition within (U : list string) (r : buckets (list string)) : Prop :=
  forall s t, t ∈ bucket s r -> t ∈ U.

(** [k] reviews out of [n], in percent. *)
Definition share (k n : nat) : Q :=
  (inject_Z (Z.of_nat k) / inject_Z (Z.of_nat n) * 100)%Q.

(** What a percentage shows as, to one decimal. *)
Definition shown (q : Q) : Q := (inject_Z (round_half_even (q * 10)) / 10)%Q.

(** The entry of a theme in [theme_sentiments], if it gets one: the body
    of [decide_theme] in [rev2.py] and in [tt.py], as a function of the
    three percentages. *)
Definition rev2_rule (pos_pct neg_pct neu_pct : Q) : option (sentiment * Q) :=
  if Qle_bool 20 (max3 pos_pct neg_pct neu_pct)
  then Some (Rev2.dominant pos_pct neg_pct neu_pct) else None.

Definition tt_rule (pos_pct neg_pct neu_pct : Q) : option (sentiment * Q) :=
  if Qle_bool 15 (snd (Tt.dominant pos_pct neg_pct neu_pct))
  then Some (Tt.dominant pos_pct neg_pct neu_pct) else None.

Definition entry_of (rule : Q -> Q -> Q -> option (sentiment * Q))
    (all_themes : buckets (list (string * nat))) (n : nat) (theme : string)
  : option (sentiment * Q) :=
  rule (share (count theme (positive all_themes)) n)
       (share (count theme (negative all_themes)) n)
       (share (count theme (neutral all_themes)) n).

Definition chosen_of (rule : Q -> Q -> Q -> option (sentiment * Q))
    (all_themes : buckets (list (string * nat))) (n : nat) (themes : list string)
  : list (string * (sentiment * Q)) :=
  omap (fun theme => pair theme <$> entry_of rule all_themes n theme) themes.

Definition unique_themes (slot : list string -> string -> N)
    (all_themes : buckets (list (string * nat))) : list string :=
  set_iter slot (keys (positive all_themes) ++ keys (negative all_themes)
                 ++ keys (neutral all_themes)).

(** The text of a theme in a summary line. *)
Definition description (theme_texts : list (string * string)) (theme : string)
  : string :=
  default (title (replace "_" " " theme)) (dict_get theme theme_texts).

(** The lines of the chosen themes whose dominant sentiment is [s]. *)
Definition lines (theme_texts : list (string * string)) (s : sentiment)
    (chosen : list (string * (sentiment * Q))) : list string :=
  map (fun e => render theme_texts (fst e) (snd (snd e)))
      (filter (fun e => fst (snd e) = s) chosen).

(** Lines in decreasing order of their sort key. *)
Definition decreasing (l : list string) : Prop :=
  Sorted (fun x y => exists kx ky,
            sort_key x = Ok kx /\ sort_key y = Ok ky /\ (ky <= kx)%Q) l.

(** Two outcomes of [generate_summary] that agree up to the order of lines
    with equal sort keys: both return such summaries, or both raise (the
    exception is that of the first review that cannot be analysed, so it
    need not be the same in both). *)
Definition same_lines (a b : outcome (buckets (list string))) : Prop :=
  match a, b with
  | Ok s, Ok s' =>
      forall p, bucket p s ≡ₚ bucket p s'
                /\ decreasing (bucket p s) /\ decreasing (bucket p s')
  | Raise _, Raise _ => True
  | _, _ => False
  end.

(** The lines of [l] whose sort key is [k], in the order they have in
    [l]. *)
Definition has_key (k : Q) (x : string) : bool :=
  match sort_key x with
  | Ok k' => Qeq_bool k' k
  | Raise _ => false
  end.

Definition with_key (k : Q) (l : list string) : list string :=
  List.filter (has_key k) l.

(** Number of analyses that list [theme] under some sentiment: the number
    of reviews in which the theme occurs. *)
Definition mentions (theme : string) (analyses : list (buckets (list string)))
  : nat :=
  length (filter (fun a => theme ∈ positive a ++ negative a ++ neutral a)
                 analyses).

(** ** Percentages in binary64

    [percent] computes with exact rationals.  [Binary64.percent] performs
    the same division and multiplication with the rounding of IEEE 754
    binary64, as CPython does. *)

Module Binary64.

Definition prec : Z := 53.
Definition emax : Z := 1024.

Definition of_nat (n : nat) : spec_float :=
  binary_normalize prec emax (Z.of_nat n) 0 false.

(** [(count / total_reviews) * 100] on floats, for [total_reviews <> 0]. *)
Definition percent (count total_reviews : nat) : spec_float :=
  SFmul prec emax (SFdiv prec emax (of_nat count) (of_nat total_reviews))
        (of_nat 100).

(** The rational a finite float denotes. *)
Definition value (x : spec_float) : option Q :=
  match x with
  | S754_zero _ => Some 0%Q
  | S754_finite s m e =>
      Some ((if s then -1 else 1) * inject_Z (Z.pos m) * Qpower 2 e)%Q
  | _ => None
  end.

End Binary64.

(** ** Inputs of the examples *)

(** A scorer that finds every text neutral. *)
Definition no_score (text : string) : Q := 0.

Definition sample_review : gmap string pyval :=
  list_to_map
    [ ("work_life_balance", VInt 9); ("career_growth", VInt 8);
      ("leadership_management", VInt 7); ("innovation", VInt 9);
      ("compensation_range", VStr "150000-200000"); ("currency", VStr "USD");
      ("pros", VStr "excellent benefits"); ("cons", VStr "tight deadlines") ].

Definition r_wlb : gmap string pyval := {[ "work_life_balance" := VInt 9 ]}.
Definition r_cg : gmap string pyval := {[ "career_growth" := VInt 9 ]}.
Definition r_cg_low : gmap string pyval := {[ "career_growth" := VInt 2 ]}.
Definition r_mid : gmap string pyval := {[ "work_life_balance" := VInt 5 ]}.
Definition r_long_hours : gmap string pyval :=
  list_to_map [ ("work_life_balance", VInt 9); ("cons", VStr "long hours") ].
Definition r_outdated : gmap string pyval :=
  list_to_map [ ("innovation", VInt 9); ("cons", VStr "outdated tools") ].
Definition r_bad_pros : gmap string pyval := {[ "pros" := VInt 5 ]}.

(** One positive and one negative rating of a theme among ten reviews, and
    one positive rating among five. *)
Definition ten_reviews : list (gmap string pyval) :=
  [r_cg; r_cg_low] ++ replicate 8 ∅.
Definition five_reviews : list (gmap string pyval) := r_cg :: replicate 4 ∅.

Definition only (s : sentiment) (theme : string) : buckets (list string) :=
  append s theme (Buckets [] [] []).
Definition nothing : buckets (list string) := Buckets [] [] [].

(** ** Vocabulary of the further properties *)

(** The amounts of a range text: the digits of each part between dashes,
    read as an [int]. *)
Definition amounts (text : string) : outcome (list Z) :=
  mapM (fun val => int (filter_string is_digit val)) (split "-" text).

(** The order negative < neutral < positive, as a rank. *)
Definition rank (s : sentiment) : Z :=
  match s with
  | Negative => 0
  | Neutral => 1
  | Positive => 2
  end.

(** A field of a review that [_analyze_text] can read: absent, falsy
    (skipped), or a text. *)
Definition readable (review : gmap string pyval) (field : string) : Prop :=
  match review !! field with
  | Some v => truthy v = true -> exists s, v = VStr s
  | None => True
  end.

(** The keys of a review that [analyze_review] looks up in rev2.py; tt.py
    looks up [location] as well. *)
Definition rev2_fields : list string :=
  [ "work_life_balance"; "career_growth"; "leadership_management";
    "innovation"; "compensation_range"; "currency"; "headline"; "pros";
    "cons" ].

(** Two reviews with the same entry, or none, under [field]. *)
Definition same_field (review1 review2 : gmap string pyval) (field : string)
  : Prop :=
  review1 !! field = review2 !! field.

(** The number of lines of a summary. *)
Definition size (summary : buckets (list string)) : nat :=
  (length (positive summary) + length (negative summary)
   + length (neutral summary))%nat.

(** [l * m]: [m] copies of a list, one after the other. *)
Fixpoint copies {A : Type} (m : nat) (l : list A) : list A :=
  match m with
  | O => []
  | S m' => l ++ copies m' l
  end.

(** [z] is the integer nearest to [q], the even one of the two when [q]
    lies half-way. *)
Definition nearest (q : Q) (z : Z) : Prop :=
  ((q - (1 # 2) < inject_Z z)%Q /\ (inject_Z z < q + (1 # 2))%Q)
  \/ (((inject_Z z == q - (1 # 2))%Q \/ (inject_Z z == q + (1 # 2))%Q)
      /\ Z.even z = true).

(** Two entries of [theme_sentiments] with the same polarity and equal
    percentages. *)
Definition same_entry (v v' : option (sentiment * Q)) : Prop :=
  match v, v' with
  | Some (s, x), Some (s', x') => s = s' /\ (x == x')%Q
  | None, None => True
  | _, _ => False
  end.

(** ** Further inputs of the examples *)

Definition r_text_rating : gmap string pyval := {[ "innovation" := VStr "9" ]}.
Definition r_innovation_8 : gmap string pyval := {[ "innovation" := VInt 8 ]}.
Definition r_innovation_9 : gmap string pyval := {[ "innovation" := VInt 9 ]}.
Definition r_flag : gmap string pyval := {[ "innovation" := VBool true ]}.

(** The review [r_long_hours] with fields that no analyzer reads. *)
Definition r_tagged : gmap string pyval :=
  list_to_map
    [ ("overall_rating", VInt 1); ("job_title", VStr "engineer");
      ("work_life_balance", VInt 9); ("cons", VStr "long hours") ].

Definition r_maintain : gmap string pyval :=
  {[ "cons" := VStr "Hard to maintain" ]}.

Definition r_range_only : gmap string pyval :=
  {[ "compensation_range" := VStr "150000-200000" ]}.

Definition r_pros_only : gmap string pyval :=
  {[ "pros" := VStr "Flexible hours" ]}.

(** Rated neutral, praised and blamed for the same theme. *)
Definition r_all_three : gmap string pyval :=
  list_to_map [ ("innovation", VInt 5); ("pros", VStr "innovative products");
                ("cons", VStr "outdated tools") ].

(** ** Dictionaries *)
Lemma dict_get_set {V : Type} (k k' : string) (v : V) (d : list (string * V)) :
  dict_get k (dict_set k' v d) = if String.eqb k k' then Some v else dict_get k d.
Proof.
  induction d as [|[k0 v0] d IH]; simpl.
  - destruct (String.eqb k k'); reflexivity.
  - destruct (String.eqb k' k0) eqn:E0; simpl.
    + apply String.eqb_eq in E0. subst k0.
      destruct (String.eqb k k'); reflexivity.
    + rewrite IH. destruct (String.eqb k k0) eqn:E1; [|reflexivity].
      apply String.eqb_eq in E1. subst k0.
      destruct (String.eqb k k') eqn:E2; [|reflexivity].
      apply String.eqb_eq in E2. subst k'. rewrite String.eqb_refl in E0. discriminate.
Qed.

Lemma rev2_rate_field_get review acc f t theme :
  dict_get theme (Rev2.rate_field review acc (f, t)) =
  if String.eqb theme t then
    match review !! f ≫= as_number with
    | Some x => if ge_int x RATING_THRESHOLD_HIGH then Some Positive
                else if le_int x RATING_THRESHOLD_LOW then Some Negative
                else dict_get theme acc
    | None => dict_get theme acc
    end
  else dict_get theme acc.
Proof.
  unfold Rev2.rate_field.
  destruct (review !! f) as [rating|]; simpl;
    [destruct (as_number rating) as [x|]; simpl|];
    repeat match goal with
      | |- context [if ?b then _ else _] => destruct b eqn:?
      | |- context [dict_get _ (dict_set _ _ _)] => rewrite dict_get_set
      end; congruence.
Qed.

Lemma tt_rate_field_get review acc f t theme :
  dict_get theme (Tt.rate_field review acc (f, t)) =
  if String.eqb theme t then
    match review !! f ≫= as_number with
    | Some x => if ge_int x RATING_THRESHOLD_HIGH then Some Positive
                else if le_int x RATING_THRESHOLD_LOW then Some Negative
                else Some Neutral
    | None => dict_get theme acc
    end
  else dict_get theme acc.
Proof.
  unfold Tt.rate_field.
  destruct (review !! f) as [rating|]; simpl;
    [destruct (as_number rating) as [x|]; simpl|];
    repeat match goal with
      | |- context [if ?b then _ else _] => destruct b eqn:?
      | |- context [dict_get _ (dict_set _ _ _)] => rewrite dict_get_set
      end; congruence.
Qed.

Lemma ge_int_at_least x k : ge_int x k = true <-> at_least x k.
Proof.
  destruct x as [|negative|q]; simpl.
  - split; [discriminate | contradiction].
  - destruct negative; simpl; split; congruence.
  - apply Qle_bool_iff.
Qed.

Lemma le_int_at_most x k : le_int x k = true <-> at_most x k.
Proof.
  destruct x as [|negative|q]; simpl.
  - split; [discriminate | contradiction].
  - destruct negative; simpl; split; congruence.
  - apply Qle_bool_iff.
Qed.

Lemma strictly_between_neither lo x hi :
  strictly_between lo x hi -> ge_int x hi = false /\ le_int x lo = false.
Proof.
  destruct x as [|negative|q]; simpl; try contradiction.
  intros [H1 H2]. split.
  - destruct (Qle_bool (inject_Z hi) q) eqn:E; [|reflexivity].
    apply Qle_bool_iff in E. exfalso. exact (Qlt_not_le _ _ H2 E).
  - destruct (Qle_bool q (inject_Z lo)) eqn:E; [|reflexivity].
    apply Qle_bool_iff in E. exfalso. exact (Qlt_not_le _ _ H1 E).
Qed.

Lemma at_least_not_at_most x lo hi :
  (lo < hi)%Z -> at_most x lo -> ge_int x hi = false.
Proof.
  intros Hlt. destruct x as [|negative|q]; simpl; try contradiction.
  - intros ->. reflexivity.
  - intros H. destruct (Qle_bool (inject_Z hi) q) eqn:E; [|reflexivity].
    apply Qle_bool_iff in E. exfalso.
    assert (Hq : (inject_Z hi <= inject_Z lo)%Q) by (eapply Qle_trans; eassumption).
    rewrite <- Zle_Qle in Hq. lia.
Qed.

(** ** The [outcome] monad *)

Lemma mapM_Ok_Forall2 {A B : Type} (f : A -> outcome B) l ys :
  mapM f l = Ok ys <-> Forall2 (fun x y => f x = Ok y) l ys.
Proof.
  revert ys. induction l as [|x l IH]; intros ys; simpl.
  - split.
    + intros [= <-]. constructor.
    + intros H. inversion H. reflexivity.
  - split.
    + destruct (f x) as [y|e] eqn:Ex; simpl; [|discriminate].
      destruct (mapM f l) as [ys'|e] eqn:El; simpl; [|discriminate].
      intros [= <-]. constructor; [exact Ex|]. apply IH. reflexivity.
    + intros H. inversion H as [|x' y l' ys' Hx Hl]; subst.
      rewrite Hx. simpl. apply IH in Hl. rewrite Hl. reflexivity.
Qed.

Lemma mapM_Ok_all {A B : Type} (f : A -> outcome B) l :
  Forall (fun x => exists y, f x = Ok y) l -> exists ys, mapM f l = Ok ys.
Proof.
  induction 1 as [|x l [y Hy] _ [ys IH]]; simpl.
  - eexists. reflexivity.
  - rewrite Hy, IH. simpl. eexists. reflexivity.
Qed.

Lemma mapM_Raise {A B : Type} (f : A -> outcome B) l e :
  mapM f l = Raise e -> exists x, x ∈ l /\ f x = Raise e.
Proof.
  induction l as [|x l IH]; simpl; [discriminate|].
  destruct (f x) as [y|e'] eqn:Ex; simpl.
  - destruct (mapM f l) as [ys|e'']; simpl; [discriminate|].
    intros [= ->]. destruct IH as (x' & Hin & Hx'); [reflexivity|].
    exists x'. split; [right; exact Hin | exact Hx'].
  - intros [= ->]. exists x. split; [left | exact Ex].
Qed.

Lemma mapM_length {A B : Type} (f : A -> outcome B) l ys :
  mapM f l = Ok ys -> length ys = length l.
Proof.
  intros H. apply mapM_Ok_Forall2 in H. symmetry. eapply Forall2_length, H.
Qed.

(** ** [sorted] *)

Section Sorted_by.
Context {A : Type} (leb : A -> A -> bool).

Lemma insert_sorted_Permutation x l : insert_sorted leb x l ≡ₚ x :: l.
Proof.
  induction l as [|y l IH]; simpl; [reflexivity|].
  destruct (leb x y); [reflexivity|].
  rewrite IH. apply Permutation_swap.
Qed.

Lemma sorted_by_Permutation l : sorted_by leb l ≡ₚ l.
Proof.
  induction l as [|x l IH]; simpl; [reflexivity|].
  rewrite insert_sorted_Permutation. f_equiv. exact IH.
Qed.

Hypothesis leb_total : forall x y, leb x y = false -> leb y x = true.

Lemma insert_sorted_Sorted x l :
  Sorted (fun a b => leb a b = true) l ->
  Sorted (fun a b => leb a b = true) (insert_sorted leb x l).
Proof.
  induction 1 as [|y l Hs IH Hhd]; simpl.
  - repeat constructor.
  - destruct (leb x y) eqn:E.
    + constructor; [constructor; assumption|]. constructor. exact E.
    + constructor; [exact IH|].
      destruct l as [|z l]; simpl.
      * constructor. apply leb_total, E.
      * destruct (leb x z); constructor.
        -- apply leb_total, E.
        -- inversion Hhd; assumption.
Qed.

Lemma sorted_by_Sorted l : Sorted (fun a b => leb a b = true) (sorted_by leb l).
Proof.
  induction l as [|x l IH]; simpl; [constructor|].
  apply insert_sorted_Sorted, IH.
Qed.

End Sorted_by.

(** ** Set iteration *)

Lemma set_iter_Permutation slot l : set_iter slot l ≡ₚ remove_dups l.
Proof. apply sorted_by_Permutation. Qed.

Lemma elem_of_set_iter slot l x : x ∈ set_iter slot l <-> x ∈ l.
Proof. rewrite set_iter_Permutation. apply elem_of_remove_dups. Qed.

Lemma NoDup_set_iter slot l : NoDup (set_iter slot l).
Proof. rewrite set_iter_Permutation. apply NoDup_remove_dups. Qed.

Lemma set_iter_same_elements slot slot' l l' :
  (forall x, x ∈ l <-> x ∈ l') -> set_iter slot l ≡ₚ set_iter slot' l'.
Proof.
  intros H. apply NoDup_Permutation; try apply NoDup_set_iter.
  intros x. rewrite !elem_of_set_iter. apply H.
Qed.

(** A slot assignment that ignores the insertion history and gives
    distinct keys distinct slots fixes the iteration order. *)
Lemma set_iter_canonical slot l l' :
  (forall h h' x, slot h x = slot h' x) ->
  (forall h x y, slot h x = slot h y -> x = y) ->
  (forall x, x ∈ l <-> x ∈ l') ->
  set_iter slot l = set_iter slot l'.
Proof.
  intros Hfree Hinj Hsame.
  set (R := fun a b : string => (slot l a <= slot l b)%N).
  apply (StronglySorted_unique_strong R).
  - intros x y _ _ Hxy Hyx. apply (Hinj l). unfold R in *. lia.
  - apply Sorted_StronglySorted.
    + intros x y z. unfold R. lia.
    + unfold set_iter.
      eapply Sorted_ind with (P := fun l0 => Sorted R l0); [| |
        apply (sorted_by_Sorted (fun a b => (slot l a <=? slot l b)%N))].
      * constructor.
      * intros a l0 _ IH Hhd. constructor; [exact IH|].
        destruct Hhd; constructor. unfold R. apply N.leb_le. assumption.
      * intros x y H. apply N.leb_gt in H. apply N.leb_le. lia.
  - apply Sorted_StronglySorted.
    + intros x y z. unfold R. lia.
    + unfold set_iter.
      eapply Sorted_ind with (P := fun l0 => Sorted R l0); [| |
        apply (sorted_by_Sorted (fun a b => (slot l' a <=? slot l' b)%N))].
      * constructor.
      * intros a l0 _ IH Hhd. constructor; [exact IH|].
        destruct Hhd; constructor. unfold R.
        rewrite (Hfree l l' a), (Hfree l l' b). apply N.leb_le. assumption.
      * intros x y H. apply N.leb_gt in H. apply N.leb_le. lia.
  - apply set_iter_same_elements, Hsame.
Qed.

(** ** Text: [split], [rstrip], [float] on a rendered line *)

Lemma append_cons x (a b : string) : (String x a ++ b = String x (a ++ b))%string.
Proof. reflexivity. Qed.

Lemma append_assoc (a b c : string) : ((a ++ b) ++ c = a ++ (b ++ c))%string.
Proof.
  induction a as [|x a IH]; [reflexivity|].
  rewrite !append_cons, IH. reflexivity.
Qed.

Lemma mem_char_cons c x s :
  mem_char c (String x s) = Ascii.eqb c x || mem_char c s.
Proof. reflexivity. Qed.

Lemma mem_char_app c a b :
  mem_char c (a ++ b)%string = mem_char c a || mem_char c b.
Proof.
  induction a as [|x a IH]; [reflexivity|].
  rewrite append_cons, !mem_char_cons, IH. apply orb_assoc.
Qed.

Lemma split_no_sep sep s : mem_char sep s = false -> split sep s = [s].
Proof.
  induction s as [|c s IH]; [reflexivity|].
  rewrite mem_char_cons. intros H. apply orb_false_iff in H as [Hc Hs].
  simpl. rewrite Ascii.eqb_sym, Hc, (IH Hs). reflexivity.
Qed.

Lemma split_app sep a b :
  mem_char sep a = false ->
  split sep (a ++ String sep b)%string = a :: split sep b.
Proof.
  induction a as [|c a IH]; intros H.
  - simpl. rewrite Ascii.eqb_refl. reflexivity.
  - rewrite mem_char_cons in H. apply orb_false_iff in H as [Hc Ha].
    rewrite append_cons. cbn [split]. rewrite Ascii.eqb_sym, Hc, (IH Ha). reflexivity.
Qed.

Lemma rstrip_all chars b :
  (forall c, mem_char c b = true -> mem_char c chars = true) ->
  rstrip chars b = EmptyString.
Proof.
  induction b as [|x b IH]; intros H; [reflexivity|].
  simpl. rewrite IH.
  - rewrite (H x); [reflexivity|].
    rewrite mem_char_cons, Ascii.eqb_refl. reflexivity.
  - intros c Hc. apply H. rewrite mem_char_cons, Hc. apply orb_true_r.
Qed.

Lemma rstrip_app chars a c b :
  mem_char c chars = false ->
  (forall x, mem_char x b = true -> mem_char x chars = true) ->
  rstrip chars (a ++ String c b)%string = (a ++ String c EmptyString)%string.
Proof.
  intros Hc Hb. induction a as [|x a IH].
  - simpl. rewrite (rstrip_all _ _ Hb), Hc. reflexivity.
  - rewrite append_cons. cbn [rstrip]. rewrite IH. destruct a; reflexivity.
Qed.

(** Decimal numerals consist of digits. *)
Lemma string_of_uint_digits d c :
  is_digit c = false -> mem_char c (NilEmpty.string_of_uint d) = false.
Proof.
  intros Hc. induction d; simpl; [reflexivity|..];
    rewrite mem_char_cons, IHd, orb_false_r;
    match goal with |- Ascii.eqb c ?k = false =>
      destruct (Ascii.eqb_spec c k) as [->|]; [vm_compute in Hc; discriminate | reflexivity]
    end.
Qed.

Lemma N_to_uint_nonnil n : N.to_uint n <> Decimal.Nil.
Proof. destruct n; [discriminate | apply DecimalPos.Unsigned.to_uint_nonnil]. Qed.

Lemma str_of_N_digits n c : is_digit c = false -> mem_char c (str_of_N n) = false.
Proof.
  intros Hc. unfold str_of_N, NilZero.string_of_uint.
  pose proof (N_to_uint_nonnil n) as Hn.
  destruct (N.to_uint n) eqn:E; [congruence|..];
    rewrite <- E; apply string_of_uint_digits, Hc.
Qed.

Lemma int_str_of_N n : NilZero.uint_of_string (str_of_N n) = Some (N.to_uint n).
Proof. apply NilZero.usu, N_to_uint_nonnil. Qed.

Lemma str_of_N_nonempty n : str_of_N n <> EmptyString.
Proof.
  intros H. pose proof (int_str_of_N n) as Hn. rewrite H in Hn. discriminate.
Qed.

Lemma str_of_N_digit n :
  (n < 10)%N -> exists c, str_of_N n = String c EmptyString /\ is_digit c = true.
Proof.
  intros H.
  destruct n as [|p]; [eexists; split; reflexivity|].
  do 4 (destruct p as [p|p|]; try lia; try (eexists; split; reflexivity)).
Qed.

Lemma float_unsigned_fmt hi lo :
  (lo < 10)%N ->
  float (str_of_N hi ++ "." ++ str_of_N lo)%string
  = Ok (inject_Z (Z.of_N hi) + (Z.of_N lo # 10))%Q.
Proof.
  intros Hlo.
  destruct (str_of_N_digit lo Hlo) as (c & Hc & Hdig).
  pose proof (str_of_N_nonempty hi) as Hne.
  pose proof (str_of_N_digits hi "-" eq_refl) as Hminus.
  destruct (str_of_N hi) as [|x s] eqn:Ehi; [congruence|].
  rewrite mem_char_cons in Hminus. apply orb_false_iff in Hminus as [Hx _].
  rewrite append_cons. cbn [float]. rewrite Ascii.eqb_sym, Hx.
  rewrite <- append_cons, <- Ehi. unfold float_unsigned.
  change ("." ++ str_of_N lo)%string with (String "." (str_of_N lo)).
  rewrite split_app by (apply str_of_N_digits; reflexivity).
  rewrite split_no_sep by (apply str_of_N_digits; reflexivity).
  rewrite !int_str_of_N, !DecimalN.Unsigned.of_to, Hc. reflexivity.
Qed.

Lemma round_half_even_nonneg q : (0 <= q)%Q -> (0 <= round_half_even q)%Z.
Proof.
  intros Hq. unfold round_half_even.
  assert (Hn : (0 <= Qnum q)%Z) by (unfold Qle in Hq; simpl in Hq; lia).
  assert (Hf : (0 <= Qnum q / Z.pos (Qden q))%Z) by (apply Z.div_pos; lia).
  destruct (2 * (Qnum q mod Z.pos (Qden q)) ?= Z.pos (Qden q))%Z;
    [destruct (Z.even _)|..]; lia.
Qed.

Lemma float_fmt_1f q :
  (0 <= q)%Q -> exists k, float (fmt_1f q) = Ok k /\ (k == shown q)%Q.
Proof.
  intros Hq. unfold fmt_1f, shown.
  assert (Ht : (0 <= round_half_even (q * 10))%Z).
  { apply round_half_even_nonneg, Qmult_le_0_compat; [exact Hq | discriminate]. }
  set (t := round_half_even (q * 10)) in *.
  replace (t <? 0)%Z with false by (symmetry; apply Z.ltb_ge; exact Ht).
  change ("" ++ ?x)%string with x.
  set (a := Z.to_N (Z.abs t)).
  assert (Hlo : (a mod 10 < 10)%N) by (apply N.mod_lt; discriminate).
  eexists. split; [apply (float_unsigned_fmt (a / 10) (a mod 10) Hlo)|].
  assert (Ha : t = Z.of_N a) by (unfold a; lia).
  rewrite Ha.
  pose proof (N.div_mod a 10 ltac:(discriminate)) as Hdm.
  unfold Qeq, Qdiv, Qmult, Qplus, Qinv, inject_Z; simpl. lia.
Qed.

(** ** Dictionaries and tallies *)

Lemma dict_get_None {V : Type} k (d : list (string * V)) :
  dict_get k d = None <-> k ∉ keys d.
Proof.
  induction d as [|[k' v] d IH]; simpl.
  - split; [intros _; apply not_elem_of_nil | reflexivity].
  - destruct (String.eqb_spec k k') as [->|Hne].
    + split; [discriminate | intros H; exfalso; apply H; left].
    + rewrite IH, not_elem_of_cons. tauto.
Qed.

Lemma dict_set_fresh {V : Type} k (v : V) d :
  k ∉ keys d -> dict_set k v d = d ++ [(k, v)].
Proof.
  induction d as [|[k' v'] d IH]; simpl; [reflexivity|].
  intros H. apply not_elem_of_cons in H as [Hne Hd].
  destruct (String.eqb_spec k k'); [congruence|]. rewrite IH by exact Hd. reflexivity.
Qed.

Lemma keys_dict_set {V : Type} k (v : V) d x :
  x ∈ keys (dict_set k v d) <-> x = k \/ x ∈ keys d.
Proof.
  induction d as [|[k' v'] d IH]; simpl.
  - rewrite list_elem_of_singleton. split; [auto | intros [H|H]; [exact H | inversion H]].
  - destruct (String.eqb_spec k k') as [->|Hne]; simpl.
    + rewrite elem_of_cons. tauto.
    + rewrite !elem_of_cons, IH. tauto.
Qed.

Lemma count_incr t t' d :
  count t (incr t' d) = (count t d + if String.eqb t t' then 1 else 0)%nat.
Proof.
  unfold count, incr. rewrite dict_get_set.
  destruct (String.eqb_spec t t') as [->|]; simpl; lia.
Qed.

Lemma counted_nil : counted [].
Proof.
  intros k. simpl. split; [intros H; inversion H | unfold count; simpl; lia].
Qed.

Lemma counted_incr t d : counted d -> counted (incr t d).
Proof.
  intros H k. unfold incr at 1. rewrite keys_dict_set, count_incr, (H k).
  destruct (String.eqb_spec k t) as [->|Hne].
  - split; [lia | auto].
  - split; [intros [Heq|Hpos]; [congruence | lia] | intros Hpos; right; lia].
Qed.

Lemma counted_add_all themes d :
  counted d -> counted (fold_left (fun d theme => incr theme d) themes d).
Proof.
  revert d. induction themes as [|t l IH]; intros d H; simpl; [exact H|].
  apply IH, counted_incr, H.
Qed.

Lemma count_add_all t themes d :
  NoDup themes ->
  count t (fold_left (fun d theme => incr theme d) themes d)
  = (count t d + if bool_decide (t ∈ themes) then 1 else 0)%nat.
Proof.
  intros Hnd. revert d. induction Hnd as [|x l Hx Hnd IH]; intros d; cbn [fold_left].
  - case_bool_decide as H; [inversion H | lia].
  - rewrite IH, count_incr.
    destruct (String.eqb_spec t x) as [->|Hne]; repeat case_bool_decide;
      repeat match goal with
        | H : _ ∈ _ :: _ |- _ => apply elem_of_cons in H as [?|?]
        | H : _ ∉ _ :: _ |- _ => apply not_elem_of_cons in H as [? ?]
        end; try lia; try congruence; try tauto.
Qed.

Lemma tally_review_bucket s all_themes analysis :
  bucket s (tally_review all_themes analysis)
  = fold_left (fun d theme => incr theme d) (bucket s analysis) (bucket s all_themes).
Proof. destruct s, all_themes; reflexivity. Qed.

Lemma count_fold_tally s t analyses acc :
  Forall clean analyses ->
  count t (bucket s (fold_left tally_review analyses acc))
  = (count t (bucket s acc) + occurrences s t analyses)%nat.
Proof.
  intros H. revert acc. induction H as [|a l Ha _ IH]; intros acc; cbn [fold_left].
  - unfold occurrences. simpl. lia.
  - rewrite IH, tally_review_bucket, count_add_all by apply Ha.
    unfold occurrences. rewrite filter_cons.
    case_bool_decide; case_decide; try tauto; simpl; lia.
Qed.

Lemma counted_fold_tally s analyses acc :
  counted (bucket s acc) -> counted (bucket s (fold_left tally_review analyses acc)).
Proof.
  revert acc. induction analyses as [|a l IH]; intros acc H; simpl; [exact H|].
  apply IH. rewrite tally_review_bucket. apply counted_add_all, H.
Qed.

Lemma count_tally_of s t analyses :
  Forall clean analyses ->
  count t (bucket s (tally_of analyses)) = occurrences s t analyses.
Proof.
  intros H. unfold tally_of. rewrite count_fold_tally by exact H.
  destruct s; reflexivity.
Qed.

Lemma keys_tally_of s t analyses :
  Forall clean analyses ->
  t ∈ keys (bucket s (tally_of analyses)) <-> (0 < occurrences s t analyses)%nat.
Proof.
  intros H. rewrite <- count_tally_of by exact H.
  apply counted_fold_tally. destruct s; apply counted_nil.
Qed.

Lemma occurrences_Permutation s t l l' :
  l ≡ₚ l' -> occurrences s t l = occurrences s t l'.
Proof. intros H. unfold occurrences. rewrite H. reflexivity. Qed.

Lemma occurrences_le s t l : (occurrences s t l <= length l)%nat.
Proof. apply length_filter. Qed.

(** The first loop of [generate_summary] analyses every review and
    tallies the results. *)
Lemma foldM_tally {R : Type} (analyze : R -> outcome (buckets (list string)))
    reviews acc :
  foldM (fun all_themes review =>
           analysis <- analyze review ;; Ok (tally_review all_themes analysis))
        reviews acc
  = (analyses <- mapM analyze reviews ;; Ok (fold_left tally_review analyses acc)).
Proof.
  revert acc. induction reviews as [|r l IH]; intros acc; simpl; [reflexivity|].
  destruct (analyze r) as [a|e]; simpl; [|reflexivity].
  rewrite IH. destruct (mapM analyze l); reflexivity.
Qed.

(** ** Choosing the themes of the summary *)

Lemma percent_share c n : n <> 0%nat -> percent c n = Ok (share c n).
Proof.
  intros H. unfold percent. destruct (Nat.eqb_spec n 0); [contradiction|reflexivity].
Qed.

Lemma share_nonneg c n : (0 <= share c n)%Q.
Proof.
  unfold share. apply Qmult_le_0_compat; [|discriminate].
  destruct n as [|n].
  - unfold Qdiv, Qinv. simpl. rewrite Qmult_0_r. apply Qle_refl.
  - apply Qle_shift_div_l.
    + unfold Qlt. simpl. lia.
    + rewrite Qmult_0_l. unfold Qle. simpl. lia.
Qed.

Lemma rev2_decide_theme all_themes n acc theme :
  n <> 0%nat ->
  Rev2.decide_theme all_themes n acc theme
  = Ok (match entry_of rev2_rule all_themes n theme with
        | Some v => dict_set theme v acc
        | None => acc
        end).
Proof.
  intros H. unfold Rev2.decide_theme, entry_of, rev2_rule.
  rewrite !percent_share by exact H. simpl.
  destruct (Qle_bool 20 _); reflexivity.
Qed.

Lemma tt_decide_theme all_themes n acc theme :
  n <> 0%nat ->
  Tt.decide_theme all_themes n acc theme
  = Ok (match entry_of tt_rule all_themes n theme with
        | Some v => dict_set theme v acc
        | None => acc
        end).
Proof.
  intros H. unfold Tt.decide_theme, entry_of, tt_rule.
  rewrite !percent_share by exact H. simpl.
  destruct (Qle_bool 15 _); reflexivity.
Qed.

Section Choose.
Context {S : Type}.
Variable decide_theme : list (string * S) -> string -> outcome (list (string * S)).
Variable entry : string -> option S.
Hypothesis decide_theme_entry : forall acc theme,
  decide_theme acc theme
  = Ok (match entry theme with Some v => dict_set theme v acc | None => acc end).

Lemma keys_app {V : Type} (d d' : list (string * V)) : keys (d ++ d') = keys d ++ keys d'.
Proof. apply map_app. Qed.

Lemma foldM_decide themes acc :
  NoDup themes ->
  (forall t, t ∈ themes -> t ∉ keys acc) ->
  foldM decide_theme themes acc
  = Ok (acc ++ omap (fun theme => pair theme <$> entry theme) themes).
Proof.
  intros Hnd. revert acc. induction Hnd as [|t l Ht Hnd IH]; intros acc Hacc; simpl.
  - rewrite app_nil_r. reflexivity.
  - rewrite decide_theme_entry. simpl.
    destruct (entry t) as [v|]; simpl.
    + rewrite dict_set_fresh by (apply Hacc; left).
      rewrite IH.
      * rewrite <- app_assoc. reflexivity.
      * intros x Hx. rewrite keys_app, elem_of_app. simpl.
        intros [Hin|Hin].
        -- apply (Hacc x); [right; exact Hx | exact Hin].
        -- apply list_elem_of_singleton in Hin. subst. contradiction.
    + apply IH. intros x Hx. apply Hacc. right. exact Hx.
Qed.

End Choose.

(** ** Filling and sorting the summary *)

Lemma fill_summary_bucket theme_texts s chosen :
  bucket s (fill_summary (render theme_texts) chosen) = lines theme_texts s chosen.
Proof.
  unfold fill_summary.
  assert (H : forall acc,
    bucket s (fold_left
      (fun summary '(theme, (s0, percentage)) =>
         append s0 (render theme_texts theme percentage) summary) chosen acc)
    = bucket s acc ++ lines theme_texts s chosen).
  { induction chosen as [|[t [s0 pct]] l IH]; intros acc; simpl.
    - unfold lines. simpl. rewrite app_nil_r. reflexivity.
    - rewrite IH. unfold lines. rewrite filter_cons.
      destruct acc as [p g u].
      destruct s, s0; cbn; rewrite <- ?app_assoc; reflexivity. }
  rewrite H. destruct s; reflexivity.
Qed.

Lemma sorted_by_key_reverse_Ok l :
  Forall (fun x => exists k, sort_key x = Ok k) l ->
  exists l', sorted_by_key_reverse l = Ok l' /\ l' ≡ₚ l /\ decreasing l'.
Proof.
  intros Hkeys. unfold sorted_by_key_reverse.
  destruct (mapM_Ok_all (fun x => k <- sort_key x ;; Ok (k, x)) l) as [keyed Hkeyed].
  { eapply Forall_impl; [exact Hkeys|]. intros x [k Hk]. rewrite Hk. eexists. reflexivity. }
  rewrite Hkeyed. simpl. eexists. split; [reflexivity|].
  apply mapM_Ok_Forall2 in Hkeyed.
  assert (Hsnd : map snd keyed = l).
  { induction Hkeyed as [|x kx l keyed Hx _ IH]; simpl; [reflexivity|].
    destruct (sort_key x); simpl in Hx; [|discriminate].
    injection Hx as <-. simpl. rewrite IH; [reflexivity|].
    inversion Hkeys; assumption. }
  assert (Hkey : Forall (fun kx => sort_key (snd kx) = Ok (fst kx)) keyed).
  { clear Hsnd Hkeys. induction Hkeyed as [|x kx l keyed Hx _ IH]; constructor; [|exact IH].
    destruct (sort_key x) eqn:E; simpl in Hx; [|discriminate].
    injection Hx as <-. exact E. }
  set (leb := fun a b : Q * string => Qle_bool (fst b) (fst a)).
  split.
  - rewrite (sorted_by_Permutation leb keyed). rewrite Hsnd. reflexivity.
  - assert (Hsorted : Sorted (fun a b => leb a b = true) (sorted_by leb keyed)).
    { apply sorted_by_Sorted. intros a b H. unfold leb in *.
      apply Qle_bool_iff. apply Qlt_le_weak, Qnot_le_lt. intros Hle.
      apply Qle_bool_iff in Hle. congruence. }
    assert (Hkey' : Forall (fun kx => sort_key (snd kx) = Ok (fst kx)) (sorted_by leb keyed))
      by (rewrite (sorted_by_Permutation leb keyed); exact Hkey).
    unfold decreasing.
    induction Hsorted as [|a L Hs IH Hhd]; simpl; [constructor|].
    inversion Hkey' as [|? ? Ha HL]; subst.
    constructor; [apply IH; exact HL|].
    destruct Hhd as [|b L' Hab]; simpl; constructor.
    inversion HL as [|? ? Hb _]; subst.
    exists (fst a), (fst b). repeat split; try assumption.
    apply Qle_bool_iff. exact Hab.
Qed.

Lemma sort_summary_Ok summary :
  (forall s, Forall (fun x => exists k, sort_key x = Ok k) (bucket s summary)) ->
  exists sorted, sort_summary summary = Ok sorted
    /\ forall s, bucket s sorted ≡ₚ bucket s summary /\ decreasing (bucket s sorted).
Proof.
  intros H. unfold sort_summary.
  destruct (sorted_by_key_reverse_Ok _ (H Positive)) as (p & Ep & Hp).
  destruct (sorted_by_key_reverse_Ok _ (H Negative)) as (g & Eg & Hg).
  destruct (sorted_by_key_reverse_Ok _ (H Neutral)) as (u & Eu & Hu).
  simpl in Ep, Eg, Eu. rewrite Ep, Eg, Eu.
  simpl. eexists. split; [reflexivity|]. intros []; assumption.
Qed.

(** The sort key of a rendered line is the percentage it shows. *)
Lemma fmt_1f_shape q :
  (0 <= q)%Q ->
  exists hi c, fmt_1f q = (str_of_N hi ++ "." ++ String c EmptyString)%string
               /\ is_digit c = true.
Proof.
  intros Hq. unfold fmt_1f.
  assert (Ht : (0 <= round_half_even (q * 10))%Z).
  { apply round_half_even_nonneg, Qmult_le_0_compat; [exact Hq | discriminate]. }
  replace (round_half_even (q * 10) <? 0)%Z with false
    by (symmetry; apply Z.ltb_ge; exact Ht).
  set (a := Z.to_N (Z.abs (round_half_even (q * 10)))).
  destruct (str_of_N_digit (a mod 10)) as (c & Hc & Hdig).
  { apply N.mod_lt. discriminate. }
  exists (a / 10)%N, c. rewrite Hc. split; [reflexivity | exact Hdig].
Qed.

Lemma mem_char_not_digit c chars :
  forallb (fun x => negb (is_digit x)) (list_ascii_of_string chars) = true ->
  is_digit c = true -> mem_char c chars = false.
Proof.
  unfold mem_char. induction (list_ascii_of_string chars) as [|x l IH]; simpl;
    [reflexivity|].
  intros H Hc. apply andb_true_iff in H as [Hx Hl].
  rewrite (IH Hl Hc), orb_false_r.
  destruct (Ascii.eqb_spec c x) as [->|]; [|reflexivity].
  rewrite Hc in Hx. discriminate.
Qed.

Lemma sort_key_render theme_texts theme q :
  mem_char "(" (description theme_texts theme) = false ->
  (0 <= q)%Q ->
  exists k, sort_key (render theme_texts theme q) = Ok k /\ (k == shown q)%Q.
Proof.
  intros Hdesc Hq. unfold render. fold (description theme_texts theme).
  destruct (float_fmt_1f q Hq) as (k & Hk & Hval).
  destruct (fmt_1f_shape q Hq) as (hi & c & Hfmt & Hdig).
  exists k. split; [|exact Hval].
  unfold sort_key.
  change (" (" ++ fmt_1f q ++ "% of reviews)")%string
    with (String " " (String "(" (fmt_1f q ++ "% of reviews)")))%string.
  replace (description theme_texts theme
           ++ String " " (String "(" (fmt_1f q ++ "% of reviews)")))%string
    with ((description theme_texts theme ++ " ")
          ++ String "(" (fmt_1f q ++ "% of reviews)"))%string
    by (rewrite append_assoc; reflexivity).
  rewrite split_app by (rewrite mem_char_app, Hdesc; reflexivity).
  rewrite split_no_sep.
  2:{ assert (Hc : mem_char "(" (String c "") = false).
      { rewrite mem_char_cons.
        destruct (Ascii.eqb_spec "(" c) as [<-|]; [discriminate|]. reflexivity. }
      rewrite mem_char_app, Hfmt, !mem_char_app, str_of_N_digits, Hc by reflexivity.
      reflexivity. }
  simpl. rewrite <- Hk. f_equal.
  rewrite Hfmt.
  replace ((str_of_N hi ++ "." ++ String c "") ++ "% of reviews)")%string
    with ((str_of_N hi ++ ".") ++ String c "% of reviews)")%string
    by (rewrite !append_assoc; reflexivity).
  rewrite rstrip_app.
  - rewrite append_assoc. reflexivity.
  - apply mem_char_not_digit; [reflexivity | exact Hdig].
  - intros x Hx. exact Hx.
Qed.

(** ** What [analyze_review] returns *)

Lemma bucket_append s' s t r :
  bucket s' (append s t r)
  = if decide (s' = s) then bucket s' r ++ [t] else bucket s' r.
Proof. destruct r, s', s; reflexivity. Qed.

Lemma within_append U s t r : t ∈ U -> within U r -> within U (append s t r).
Proof.
  intros Ht Hr s' x. rewrite bucket_append. case_decide as Hs; [|apply Hr].
  rewrite elem_of_app, list_elem_of_singleton.
  intros [Hx| ->]; [eapply Hr, Hx | exact Ht].
Qed.

Lemma fold_left_invariant {A S : Type} (P : S -> Prop) (f : S -> A -> S) l s :
  (forall s x, x ∈ l -> P s -> P (f s x)) -> P s -> P (fold_left f l s).
Proof.
  revert s. induction l as [|x l IH]; intros s Hf Hs; simpl; [exact Hs|].
  apply IH.
  - intros s' y Hy. apply Hf. right. exact Hy.
  - apply Hf; [left | exact Hs].
Qed.

Lemma foldM_invariant {A S : Type} (P : S -> Prop) (f : S -> A -> outcome S) l s s' :
  (forall s x s', P s -> f s x = Ok s' -> P s') ->
  P s -> foldM f l s = Ok s' -> P s'.
Proof.
  intros Hf. revert s. induction l as [|x l IH]; intros s Hs; simpl.
  - intros [= <-]. exact Hs.
  - destruct (f s x) as [s1|e] eqn:E; simpl; [|discriminate].
    apply IH. eapply Hf; eassumption.
Qed.

Lemma foldM_Raise {A S : Type} (f : S -> A -> outcome S) l s e e0 :
  (forall s x e, f s x = Raise e -> e = e0) ->
  foldM f l s = Raise e -> e = e0.
Proof.
  intros Hf. revert s. induction l as [|x l IH]; intros s; simpl; [discriminate|].
  destruct (f s x) as [s1|e1] eqn:E; simpl; [apply IH|].
  intros [= <-]. eapply Hf, E.
Qed.

Lemma elem_of_sorted_set l x : x ∈ sorted_set l <-> x ∈ l.
Proof.
  unfold sorted_set. rewrite (sorted_by_Permutation String.leb).
  apply elem_of_remove_dups.
Qed.

Lemma NoDup_sorted_set l : NoDup (sorted_set l).
Proof.
  unfold sorted_set. rewrite (sorted_by_Permutation String.leb).
  apply NoDup_remove_dups.
Qed.

Lemma string_leb_total x y : String.leb x y = false -> String.leb y x = true.
Proof.
  unfold String.leb. rewrite (String.compare_antisym x y).
  destruct (String.compare y x); simpl; congruence.
Qed.

Lemma Sorted_sorted_set l :
  Sorted (fun a b => String.leb a b = true) (sorted_set l).
Proof. apply sorted_by_Sorted, string_leb_total. Qed.

Lemma within_sorted U r :
  within U r ->
  within U (Buckets (sorted_set (positive r)) (sorted_set (negative r))
                    (sorted_set (neutral r))).
Proof.
  intros H s t Ht. apply (H s).
  destruct s; simpl in *; rewrite elem_of_sorted_set in Ht; exact Ht.
Qed.

Lemma clean_sorted r :
  clean (Buckets (sorted_set (positive r)) (sorted_set (negative r))
                 (sorted_set (neutral r))).
Proof. intros []; apply NoDup_sorted_set. Qed.

Lemma keys_rate_fields {V : Type}
    (step : list (string * V) -> string * string -> list (string * V)) fts acc :
  (forall acc ft x, x ∈ keys (step acc ft) -> x = snd ft \/ x ∈ keys acc) ->
  forall x, x ∈ keys (fold_left step fts acc) -> x ∈ map snd fts \/ x ∈ keys acc.
Proof.
  intros Hstep. revert acc. induction fts as [|ft l IH]; intros acc x; simpl.
  - auto.
  - intros H. apply IH in H as [H|H].
    + left. right. exact H.
    + apply Hstep in H as [->|H]; [left; left | right; exact H].
Qed.

Lemma rev2_rate_field_keys review acc ft x :
  x ∈ keys (Rev2.rate_field review acc ft) -> x = snd ft \/ x ∈ keys acc.
Proof.
  destruct ft as [f t]. unfold Rev2.rate_field.
  destruct (review !! f) as [rating|]; [|auto].
  destruct (as_number rating) as [n|]; [|auto].
  destruct (ge_int n _); [rewrite keys_dict_set; auto|].
  destruct (le_int n _); [rewrite keys_dict_set; auto | auto].
Qed.

Lemma tt_rate_field_keys review acc ft x :
  x ∈ keys (Tt.rate_field review acc ft) -> x = snd ft \/ x ∈ keys acc.
Proof.
  destruct ft as [f t]. unfold Tt.rate_field.
  destruct (review !! f) as [rating|]; [|auto].
  destruct (as_number rating) as [n|]; [|auto].
  destruct (ge_int n _); [rewrite keys_dict_set; auto|].
  destruct (le_int n _); rewrite keys_dict_set; auto.
Qed.

Lemma as_str_Raise v e : as_str v = Raise e -> e = AttributeError.
Proof. destruct v; simpl; congruence. Qed.

Lemma elem_of_keys_filter {V : Type} (P : string * V -> Prop)
    `{!forall e, Decision (P e)} (d : list (string * V)) x :
  x ∈ map fst (filter P d) -> x ∈ keys d.
Proof.
  unfold keys. rewrite !list_elem_of_fmap.
  intros (e & -> & He). exists e. split; [reflexivity|].
  apply list_elem_of_filter in He as [_ He]. exact He.
Qed.

Lemma elem_of_forallb (l U : list string) :
  forallb (fun x => bool_decide (x ∈ U)) l = true -> forall x, x ∈ l -> x ∈ U.
Proof.
  intros H x Hx. rewrite forallb_forall in H.
  apply list_elem_of_In in Hx. apply H in Hx. apply bool_decide_eq_true in Hx. exact Hx.
Qed.

Section Rev2_analysis.
Variable compound : string -> Q.

Lemma rating_themes_known t : t ∈ map snd rating_fields -> t ∈ keys Rev2.themes.
Proof. apply elem_of_forallb. vm_compute. reflexivity. Qed.

Lemma compensation_known : "compensation" ∈ keys Rev2.themes.
Proof. apply (elem_of_forallb ["compensation"]); [vm_compute; reflexivity | left]. Qed.

Lemma rev2_analyze_text text themes s :
  Rev2._analyze_text compound text = Ok (themes, s) ->
  forall t, t ∈ themes -> t ∈ keys Rev2.themes.
Proof.
  unfold Rev2._analyze_text. destruct (negb (truthy text)).
  - intros [= <- <-] t Ht. inversion Ht.
  - destruct (as_str text) as [str|]; simpl; [|discriminate].
    intros [= <- <-] t. apply elem_of_keys_filter.
Qed.

Lemma rev2_analyze_text_Raise text e :
  Rev2._analyze_text compound text = Raise e -> e = AttributeError.
Proof.
  unfold Rev2._analyze_text. destruct (negb (truthy text)); [discriminate|].
  destruct (as_str text) eqn:E; simpl; [discriminate|].
  intros [= <-]. eapply as_str_Raise, E.
Qed.

Lemma rev2_text_field review r field r' :
  within (keys Rev2.themes) r ->
  Rev2.text_field compound review r field = Ok r' ->
  within (keys Rev2.themes) r'.
Proof.
  intros Hr. unfold Rev2.text_field.
  destruct (review !! field) as [text|]; [|intros [= <-]; exact Hr].
  destruct (truthy text); [|intros [= <-]; exact Hr].
  destruct (Rev2._analyze_text compound text) as [[themes s]|] eqn:E; cbn [bind];
    [|discriminate].
  intros [= <-]. cbn [fst snd].
  apply (fold_left_invariant (within (keys Rev2.themes))); [|exact Hr].
  intros r0 t Ht Hr0.
  assert (HU : t ∈ keys Rev2.themes) by (eapply rev2_analyze_text; eassumption).
  assert (Happ : forall s', within (keys Rev2.themes) (append s' t r0))
    by (intros s'; apply within_append; assumption).
  destruct (String.eqb field "pros"); [exact (Happ Positive)|].
  destruct (String.eqb field "cons"); [exact (Happ Negative) | exact (Happ s)].
Qed.

Lemma rev2_text_field_Raise review r field e :
  Rev2.text_field compound review r field = Raise e -> e = AttributeError.
Proof.
  unfold Rev2.text_field.
  destruct (review !! field) as [text|]; [|discriminate].
  destruct (truthy text); [|discriminate].
  destruct (Rev2._analyze_text compound text) eqn:E; simpl; [discriminate|].
  intros [= <-]. eapply rev2_analyze_text_Raise, E.
Qed.

Lemma rev2_analyze_review_Ok review a :
  Rev2.analyze_review compound review = Ok a ->
  clean a /\ within (keys Rev2.themes) a.
Proof.
  unfold Rev2.analyze_review.
  match goal with |- context [foldM ?f ?l ?r0] =>
    destruct (foldM f l r0) as [r|] eqn:E; simpl; [|discriminate];
    assert (Hr0 : within (keys Rev2.themes) r0) end.
  { assert (Hratings : within (keys Rev2.themes)
      (fold_left (fun r ts => append (snd ts) (fst ts) r)
         (Rev2._analyze_numeric_ratings review) (Buckets [] [] []))).
    { apply (fold_left_invariant (within (keys Rev2.themes))).
      - intros r0 [t s] Hin Hr0. cbn [fst snd]. apply within_append; [|exact Hr0].
        assert (Ht : t ∈ keys (Rev2._analyze_numeric_ratings review)).
        { unfold keys. apply list_elem_of_fmap. exists (t, s). auto. }
        apply (keys_rate_fields _ _ _ (rev2_rate_field_keys review)) in Ht as [Ht|Ht];
          [|inversion Ht].
        revert Ht. apply rating_themes_known.
      - intros s t Ht. destruct s; inversion Ht. }
    destruct (review !! "compensation_range"); [|exact Hratings].
    destruct (review !! "currency"); [|exact Hratings].
    apply within_append; [|exact Hratings]. apply compensation_known. }
  intros [= <-]. split; [apply clean_sorted|]. apply within_sorted.
  eapply (foldM_invariant (within (keys Rev2.themes))); [|exact Hr0|exact E].
  intros r1 field r1' H1. apply rev2_text_field. exact H1.
Qed.

Lemma rev2_analyze_review_Raise review e :
  Rev2.analyze_review compound review = Raise e -> e = AttributeError.
Proof.
  unfold Rev2.analyze_review.
  match goal with |- context [foldM ?f ?l ?r0] =>
    destruct (foldM f l r0) as [r|e'] eqn:E; simpl; [discriminate|] end.
  intros [= <-]. eapply foldM_Raise; [|exact E].
  intros r1 field e1. apply rev2_text_field_Raise.
Qed.

End Rev2_analysis.

Section Tt_analysis.
Variable compound : string -> Q.

Lemma tt_rating_themes_known t : t ∈ map snd rating_fields -> t ∈ keys Tt.themes.
Proof. apply elem_of_forallb. vm_compute. reflexivity. Qed.

Lemma tt_compensation_known : "compensation" ∈ keys Tt.themes.
Proof. apply (elem_of_forallb ["compensation"]); [vm_compute; reflexivity | left]. Qed.

Lemma tt_analyze_text text found s :
  Tt._analyze_text compound text = Ok (found, s) -> within (keys Tt.themes) found.
Proof.
  unfold Tt._analyze_text. destruct (negb (truthy text)).
  - intros [= <- <-] s0 t Ht. destruct s0; inversion Ht.
  - destruct (as_str text) as [str|]; cbn [bind]; [|discriminate].
    intros [= <- <-] s0 t. destruct s0; cbn [bucket positive negative neutral];
      unfold Tt.matched; apply elem_of_keys_filter.
Qed.

Lemma tt_analyze_text_Raise text e :
  Tt._analyze_text compound text = Raise e -> e = AttributeError.
Proof.
  unfold Tt._analyze_text. destruct (negb (truthy text)); [discriminate|].
  destruct (as_str text) eqn:E; cbn [bind]; [discriminate|].
  intros [= <-]. eapply as_str_Raise, E.
Qed.

Lemma tt_text_field review r ff r' :
  within (keys Tt.themes) r ->
  Tt.text_field compound review r ff = Ok r' ->
  within (keys Tt.themes) r'.
Proof.
  intros Hr. destruct ff as [field forced]. unfold Tt.text_field.
  destruct (review !! field) as [text|]; [|intros [= <-]; exact Hr].
  destruct (truthy text); [|intros [= <-]; exact Hr].
  destruct (Tt._analyze_text compound text) as [[found s]|] eqn:E; cbn [bind];
    [|discriminate].
  intros [= <-].
  assert (Hfold : forall s0 r0, within (keys Tt.themes) r0 ->
    within (keys Tt.themes)
      (fold_left (fun r theme => match forced with
                                 | Some f => append f theme r
                                 | None => append s0 theme r
                                 end) (bucket s0 found) r0)).
  { intros s0 r0 Hr0.
    apply (fold_left_invariant (within (keys Tt.themes))); [|exact Hr0].
    intros r1 t Ht Hr1.
    assert (HU : t ∈ keys Tt.themes) by (eapply tt_analyze_text; eassumption).
    destruct forced as [f|]; apply within_append; assumption. }
  exact (Hfold Neutral _ (Hfold Negative _ (Hfold Positive _ Hr))).
Qed.

Lemma tt_text_field_Raise review r ff e :
  Tt.text_field compound review r ff = Raise e -> e = AttributeError.
Proof.
  destruct ff as [field forced]. unfold Tt.text_field.
  destruct (review !! field) as [text|]; [|discriminate].
  destruct (truthy text); [|discriminate].
  destruct (Tt._analyze_text compound text) eqn:E; cbn [bind]; [discriminate|].
  intros [= <-]. eapply tt_analyze_text_Raise, E.
Qed.

Lemma tt_analyze_review_Ok review a :
  Tt.analyze_review compound review = Ok a ->
  clean a /\ within (keys Tt.themes) a.
Proof.
  unfold Tt.analyze_review.
  match goal with |- context [foldM ?f ?l ?r0] =>
    destruct (foldM f l r0) as [r|] eqn:E; cbn [bind]; [|discriminate];
    assert (Hr0 : within (keys Tt.themes) r0) end.
  { assert (Hratings : within (keys Tt.themes)
      (fold_left (fun r ts => append (snd ts) (fst ts) r)
         (Tt._analyze_numeric_ratings review) (Buckets [] [] []))).
    { apply (fold_left_invariant (within (keys Tt.themes))).
      - intros r0 [t s] Hin Hr0. cbn [fst snd]. apply within_append; [|exact Hr0].
        assert (Ht : t ∈ keys (Tt._analyze_numeric_ratings review)).
        { unfold keys. apply list_elem_of_fmap. exists (t, s). auto. }
        apply (keys_rate_fields _ _ _ (tt_rate_field_keys review)) in Ht as [Ht|Ht];
          [|inversion Ht].
        revert Ht. apply tt_rating_themes_known.
      - intros s t Ht. destruct s; inversion Ht. }
    destruct (review !! "compensation_range"); [|exact Hratings].
    apply within_append; [|exact Hratings]. apply tt_compensation_known. }
  intros [= <-]. split; [apply clean_sorted|]. apply within_sorted.
  eapply (foldM_invariant (within (keys Tt.themes))); [|exact Hr0|exact E].
  intros r1 field r1' H1. apply tt_text_field. exact H1.
Qed.

Lemma tt_analyze_review_Raise review e :
  Tt.analyze_review compound review = Raise e -> e = AttributeError.
Proof.
  unfold Tt.analyze_review.
  match goal with |- context [foldM ?f ?l ?r0] =>
    destruct (foldM f l r0) as [r|e'] eqn:E; cbn [bind]; [discriminate|] end.
  intros [= <-]. eapply foldM_Raise; [|exact E].
  intros r1 field e1. apply tt_text_field_Raise.
Qed.

End Tt_analysis.

(** ** From analyses to the summary *)

Lemma mapM_Permutation {A B : Type} (f : A -> outcome B) l l' ys :
  l ≡ₚ l' -> mapM f l = Ok ys -> exists ys', mapM f l' = Ok ys' /\ ys ≡ₚ ys'.
Proof.
  intros Hp. revert ys. induction Hp as [|x l l' Hp IH|x y l|l l' l'' _ IH1 _ IH2];
    intros ys; simpl.
  - intros [= <-]. exists []. split; reflexivity.
  - destruct (f x) as [b|]; cbn [bind]; [|discriminate].
    destruct (mapM f l) as [bs|]; cbn [bind]; [|discriminate].
    intros [= <-]. destruct (IH bs eq_refl) as (bs' & -> & Hbs).
    exists (b :: bs'). split; [reflexivity|]. constructor. exact Hbs.
  - destruct (f y) as [b|]; cbn [bind]; [|discriminate].
    destruct (f x) as [a|]; cbn [bind]; [|discriminate].
    destruct (mapM f l) as [bs|]; cbn [bind]; [|discriminate].
    intros [= <-]. exists (a :: b :: bs). split; [reflexivity|]. constructor.
  - intros H. destruct (IH1 _ H) as (ys1 & H1 & Hp1).
    destruct (IH2 _ H1) as (ys2 & H2 & Hp2).
    exists ys2. split; [exact H2 | etransitivity; eassumption].
Qed.

Lemma mapM_Permutation_Raise {A B : Type} (f : A -> outcome B) l l' e0 e :
  (forall x e, f x = Raise e -> e = e0) ->
  l ≡ₚ l' -> mapM f l = Raise e -> mapM f l' = Raise e.
Proof.
  intros Hf Hp H.
  assert (He : e = e0).
  { apply mapM_Raise in H as (x & _ & Hx). eapply Hf, Hx. }
  subst e. destruct (mapM f l') as [ys'|e'] eqn:E.
  - symmetry in Hp. destruct (mapM_Permutation f _ _ _ Hp E) as (ys & Hys & _).
    congruence.
  - apply mapM_Raise in E as (x & _ & Hx). apply Hf in Hx. congruence.
Qed.

Section Pipeline.
Variable rule : Q -> Q -> Q -> option (sentiment * Q).
Variable theme_texts : list (string * string).
Variable U : list string.

Hypothesis rule_nonneg : forall p g u v,
  (0 <= p)%Q -> (0 <= g)%Q -> (0 <= u)%Q -> rule p g u = Some v -> (0 <= snd v)%Q.
Hypothesis U_descriptions :
  forall t, t ∈ U -> mem_char "(" (description theme_texts t) = false.

Variable analyses : list (buckets (list string)).
Hypothesis analyses_clean : Forall clean analyses.
Hypothesis analyses_within : Forall (within U) analyses.

Lemma elem_of_unique_themes slot t :
  t ∈ unique_themes slot (tally_of analyses)
  <-> exists s, (0 < occurrences s t analyses)%nat.
Proof.
  unfold unique_themes.
  rewrite elem_of_set_iter, !elem_of_app.
  change (positive (tally_of analyses)) with (bucket Positive (tally_of analyses)).
  change (negative (tally_of analyses)) with (bucket Negative (tally_of analyses)).
  change (neutral (tally_of analyses)) with (bucket Neutral (tally_of analyses)).
  rewrite !(keys_tally_of _ _ _ analyses_clean).
  split.
  - intros [H|[H|H]]; eexists; exact H.
  - intros [[] H]; auto.
Qed.

Lemma occurrences_within s t :
  (0 < occurrences s t analyses)%nat -> t ∈ U.
Proof.
  unfold occurrences. intros H.
  destruct (filter (fun a => t ∈ bucket s a) analyses) as [|a l] eqn:E;
    [simpl in H; lia|].
  assert (Ha : a ∈ filter (fun a => t ∈ bucket s a) analyses) by (rewrite E; left).
  apply list_elem_of_filter in Ha as [Ht Ha].
  rewrite Forall_forall in analyses_within. eapply analyses_within; eassumption.
Qed.

Lemma elem_of_chosen_of slot t v :
  (t, v) ∈ chosen_of rule (tally_of analyses) (length analyses)
             (unique_themes slot (tally_of analyses))
  <-> (exists s, (0 < occurrences s t analyses)%nat)
      /\ rule (share (occurrences Positive t analyses) (length analyses))
              (share (occurrences Negative t analyses) (length analyses))
              (share (occurrences Neutral t analyses) (length analyses)) = Some v.
Proof.
  unfold chosen_of. rewrite list_elem_of_omap.
  setoid_rewrite elem_of_unique_themes.
  unfold entry_of.
  change (positive (tally_of analyses)) with (bucket Positive (tally_of analyses)).
  change (negative (tally_of analyses)) with (bucket Negative (tally_of analyses)).
  change (neutral (tally_of analyses)) with (bucket Neutral (tally_of analyses)).
  setoid_rewrite (count_tally_of _ _ _ analyses_clean).
  split.
  - intros (t' & Ht' & Hv).
    destruct (rule _ _ _) as [v'|] eqn:E; [|discriminate].
    injection Hv as <- <-. split; assumption.
  - intros [Ht Hv]. exists t. split; [exact Ht|]. rewrite Hv. reflexivity.
Qed.

Lemma summary_of_analyses slot :
  exists summary,
    sort_summary (fill_summary (render theme_texts)
      (chosen_of rule (tally_of analyses) (length analyses)
         (unique_themes slot (tally_of analyses)))) = Ok summary
    /\ forall s,
         bucket s summary
           ≡ₚ lines theme_texts s
                (chosen_of rule (tally_of analyses) (length analyses)
                   (unique_themes slot (tally_of analyses)))
         /\ decreasing (bucket s summary).
Proof.
  destruct (sort_summary_Ok (fill_summary (render theme_texts)
      (chosen_of rule (tally_of analyses) (length analyses)
         (unique_themes slot (tally_of analyses))))) as (summary & Hs & Hsorted).
  - intros s. rewrite fill_summary_bucket. unfold lines.
    apply Forall_forall. intros x Hx.
    apply list_elem_of_fmap in Hx as ([t [s' q]] & -> & He).
    apply list_elem_of_filter in He as [_ He].
    apply elem_of_chosen_of in He as [[s0 Ht] Hrule].
    destruct (sort_key_render theme_texts t q) as (k & Hk & _).
    + apply U_descriptions. eapply occurrences_within, Ht.
    + apply (rule_nonneg _ _ _ _ (share_nonneg _ _) (share_nonneg _ _)
               (share_nonneg _ _) Hrule).
    + exists k. exact Hk.
  - exists summary. split; [exact Hs|]. intros s.
    destruct (Hsorted s) as [Hp Hd]. rewrite fill_summary_bucket in Hp. auto.
Qed.

End Pipeline.

(** ** Comparisons of percentages *)

Lemma Qle_bool_spec x y : reflect (x <= y)%Q (Qle_bool x y).
Proof. apply iff_reflect. symmetry. apply Qle_bool_iff. Qed.

Lemma Qlt_bool_spec x y : reflect (x < y)%Q (Qlt_bool x y).
Proof.
  unfold Qlt_bool. destruct (Qle_bool_spec y x); simpl; constructor.
  - apply Qle_not_lt. assumption.
  - apply Qnot_le_lt. assumption.
Qed.

Lemma Qeq_bool_spec x y : reflect (x == y)%Q (Qeq_bool x y).
Proof. apply iff_reflect. symmetry. apply Qeq_bool_iff. Qed.

Ltac q_cases :=
  repeat match goal with
    | |- context [Qle_bool ?x ?y] => destruct (Qle_bool_spec x y)
    | |- context [Qlt_bool ?x ?y] => destruct (Qlt_bool_spec x y)
    | |- context [Qeq_bool ?x ?y] => destruct (Qeq_bool_spec x y)
    | H : context [Qle_bool ?x ?y] |- _ => destruct (Qle_bool_spec x y)
    | H : context [Qlt_bool ?x ?y] |- _ => destruct (Qlt_bool_spec x y)
    | H : context [Qeq_bool ?x ?y] |- _ => destruct (Qeq_bool_spec x y)
    end.

Lemma share_0_r k : (share k 0 == 0)%Q.
Proof. unfold share, Qdiv, Qinv. simpl. ring. Qed.

Lemma share_le (T : Z) k n :
  (0 < T)%Z ->
  (inject_Z T <= share k n)%Q <-> (0 < n)%nat /\ (T * Z.of_nat n <= 100 * Z.of_nat k)%Z.
Proof.
  intros HT. destruct n as [|n].
  - rewrite share_0_r. unfold Qle. simpl. lia.
  - unfold share.
    change (Z.of_nat (S n)) with (Z.pos (Pos.of_succ_nat n)).
    unfold Qle, Qdiv, Qmult, Qinv, inject_Z. cbn [Qnum Qden].
    rewrite !Z.mul_1_r, ?Pos.mul_1_l, ?Pos.mul_1_r. lia.
Qed.

Lemma max3_le T x y z :
  (T <= max3 x y z)%Q <-> (T <= x)%Q \/ (T <= y)%Q \/ (T <= z)%Q.
Proof.
  unfold max3, max2. q_cases; split; intros H; try tauto; try lra;
    repeat match goal with H : _ \/ _ |- _ => destruct H end; try lra; auto.
Qed.

(** ** The dominance rules *)

Lemma rev2_rule_nonneg p g u v :
  (0 <= p)%Q -> (0 <= g)%Q -> (0 <= u)%Q -> rev2_rule p g u = Some v -> (0 <= snd v)%Q.
Proof.
  intros Hp Hg Hu. unfold rev2_rule, Rev2.dominant.
  destruct (Qle_bool 20 _); [|discriminate].
  destruct (_ && _); [intros [= <-]; exact Hp|].
  destruct (_ && _); intros [= <-]; assumption.
Qed.

Lemma min2_nonneg p g : (0 <= p)%Q -> (0 <= g)%Q -> (0 <= min2 p g)%Q.
Proof. intros. unfold min2. destruct (Qlt_bool g p); assumption. Qed.

Lemma tt_rule_nonneg p g u v :
  (0 <= p)%Q -> (0 <= g)%Q -> (0 <= u)%Q -> tt_rule p g u = Some v -> (0 <= snd v)%Q.
Proof.
  intros Hp Hg Hu. unfold tt_rule, Tt.dominant.
  pose proof (min2_nonneg p g Hp Hg).
  destruct (_ || _).
  - destruct (Qle_bool 15 _); [|discriminate]. intros [= <-]. simpl. lra.
  - destruct (Qlt_bool g p); (destruct (Qle_bool 15 _); [|discriminate]);
      intros [= <-]; assumption.
Qed.

Lemma rev2_rule_Some p g u :
  is_Some (rev2_rule p g u) <-> (20 <= p)%Q \/ (20 <= g)%Q \/ (20 <= u)%Q.
Proof.
  unfold rev2_rule. rewrite <- max3_le.
  destruct (Qle_bool_spec 20 (max3 p g u)); split; intros H; try tauto.
  - eexists. reflexivity.
  - destruct H. discriminate.
Qed.

Lemma tt_rule_Some p g u :
  is_Some (tt_rule p g u) <-> (15 <= snd (Tt.dominant p g u))%Q.
Proof.
  unfold tt_rule.
  destruct (Qle_bool_spec 15 (snd (Tt.dominant p g u))); split; intros H; try tauto.
  - eexists. reflexivity.
  - destruct H. discriminate.
Qed.

(** A theme found under one sentiment only. *)
Lemma tt_dominant_positive_only p g u :
  (g == 0)%Q -> (u == 0)%Q ->
  (15 <= snd (Tt.dominant p g u))%Q <-> (30 <= p)%Q.
Proof.
  intros Hg Hu. unfold Tt.dominant, max2, min2.
  q_cases; simpl; split; intros H; try lra.
  all: match goal with
       | H : context [Qabs ?x] |- _ => revert H; apply Qabs_case; intros; lra
       end.
Qed.

Lemma mapM_Ok_Forall {A B : Type} (f : A -> outcome B) (P : B -> Prop) l ys :
  (forall x y, f x = Ok y -> P y) -> mapM f l = Ok ys -> Forall P ys.
Proof.
  intros Hf H. apply mapM_Ok_Forall2 in H.
  induction H; constructor; eauto.
Qed.

Lemma descriptions_checked theme_texts U :
  forallb (fun t => negb (mem_char "(" (description theme_texts t))) U = true ->
  forall t, t ∈ U -> mem_char "(" (description theme_texts t) = false.
Proof.
  intros H t Ht. rewrite forallb_forall in H.
  apply list_elem_of_In in Ht. apply H in Ht. apply negb_true_iff in Ht. exact Ht.
Qed.

Lemma rev2_descriptions t :
  t ∈ keys Rev2.themes -> mem_char "(" (description Rev2.theme_texts t) = false.
Proof. apply descriptions_checked. vm_compute. reflexivity. Qed.

Lemma tt_descriptions t :
  t ∈ keys Tt.themes -> mem_char "(" (description Tt.theme_texts t) = false.
Proof. apply descriptions_checked. vm_compute. reflexivity. Qed.

Section Summary_of_reviews.
Context {R : Type}.
Variable analyze : R -> outcome (buckets (list string)).
Variable decide_theme :
  buckets (list (string * nat)) -> nat -> list (string * (sentiment * Q)) ->
  string -> outcome (list (string * (sentiment * Q))).
Variable rule : Q -> Q -> Q -> option (sentiment * Q).
Variable theme_texts : list (string * string).
Variable U : list string.

Hypothesis analyze_Ok : forall r a, analyze r = Ok a -> clean a /\ within U a.
Hypothesis analyze_Raise : forall r e, analyze r = Raise e -> e = AttributeError.
Hypothesis decide_theme_rule : forall all_themes n acc theme,
  n <> 0%nat ->
  decide_theme all_themes n acc theme
  = Ok (match entry_of rule all_themes n theme with
        | Some v => dict_set theme v acc
        | None => acc
        end).
Hypothesis rule_nonneg : forall p g u v,
  (0 <= p)%Q -> (0 <= g)%Q -> (0 <= u)%Q -> rule p g u = Some v -> (0 <= snd v)%Q.
Hypothesis U_descriptions :
  forall t, t ∈ U -> mem_char "(" (description theme_texts t) = false.

Local Abbreviation chosen slot analyses :=
  (chosen_of rule (tally_of analyses) (length analyses)
     (unique_themes slot (tally_of analyses))).

Local Abbreviation summarize slot reviews :=
  (bind (mapM analyze reviews)
        (fun analyses => sort_summary (fill_summary (render theme_texts) (chosen slot analyses)))).

Lemma choose_themes slot analyses :
  foldM (decide_theme (tally_of analyses) (length analyses))
        (unique_themes slot (tally_of analyses)) []
  = Ok (chosen slot analyses).
Proof.
  destruct analyses as [|a l]; [reflexivity|].
  rewrite (foldM_decide _ (entry_of rule (tally_of (a :: l)) (length (a :: l)))).
  - reflexivity.
  - intros acc theme. apply decide_theme_rule. discriminate.
  - apply NoDup_set_iter.
  - intros t _ Ht. inversion Ht.
Qed.

Lemma generate_summary_unfold tally_fun slot reviews :
  (tally_fun reviews
   = foldM (fun all_themes review =>
              analysis <- analyze review ;; Ok (tally_review all_themes analysis))
           reviews (Buckets [] [] [])) ->
  (chosen <- (all_themes <- tally_fun reviews ;;
              foldM (decide_theme all_themes (length reviews))
                    (unique_themes slot all_themes) []) ;;
   sort_summary (fill_summary (render theme_texts) chosen))
  = summarize slot reviews.
Proof.
  intros ->. rewrite foldM_tally.
  destruct (mapM analyze reviews) as [analyses|e] eqn:E; cbn [bind]; [|reflexivity].
  fold (tally_of analyses). rewrite <- (mapM_length _ _ _ E), choose_themes.
  reflexivity.
Qed.

Lemma analyses_good reviews analyses :
  mapM analyze reviews = Ok analyses ->
  Forall clean analyses /\ Forall (within U) analyses.
Proof.
  intros H. split; eapply mapM_Ok_Forall; try exact H;
    intros r a Ha; apply analyze_Ok in Ha; tauto.
Qed.

Lemma summarize_Ok slot reviews analyses :
  mapM analyze reviews = Ok analyses ->
  exists summary,
    summarize slot reviews = Ok summary
    /\ forall s, bucket s summary ≡ₚ lines theme_texts s (chosen slot analyses)
                 /\ decreasing (bucket s summary).
Proof.
  intros H. rewrite H. cbn [bind].
  destruct (analyses_good _ _ H) as [Hc Hw].
  apply (summary_of_analyses rule theme_texts U rule_nonneg U_descriptions
           analyses Hc Hw slot).
Qed.

Lemma entry_of_Permutation analyses analyses' t :
  Forall clean analyses -> analyses ≡ₚ analyses' ->
  entry_of rule (tally_of analyses) (length analyses) t
  = entry_of rule (tally_of analyses') (length analyses') t.
Proof.
  intros Hc Hp. unfold entry_of.
  assert (Hc' : Forall clean analyses') by (rewrite <- Hp; exact Hc).
  change (positive (tally_of analyses)) with (bucket Positive (tally_of analyses)).
  change (negative (tally_of analyses)) with (bucket Negative (tally_of analyses)).
  change (neutral (tally_of analyses)) with (bucket Neutral (tally_of analyses)).
  change (positive (tally_of analyses')) with (bucket Positive (tally_of analyses')).
  change (negative (tally_of analyses')) with (bucket Negative (tally_of analyses')).
  change (neutral (tally_of analyses')) with (bucket Neutral (tally_of analyses')).
  rewrite !count_tally_of by assumption.
  rewrite !(occurrences_Permutation _ _ _ _ Hp), (Permutation_length Hp).
  reflexivity.
Qed.

Lemma unique_themes_same slot slot' analyses analyses' x :
  Forall clean analyses -> Forall (within U) analyses -> analyses ≡ₚ analyses' ->
  x ∈ unique_themes slot (tally_of analyses)
  <-> x ∈ unique_themes slot' (tally_of analyses').
Proof.
  intros Hc Hw Hp.
  assert (Hc' : Forall clean analyses') by (rewrite <- Hp; exact Hc).
  rewrite !elem_of_unique_themes by assumption.
  split; intros [s Hs]; exists s.
  - rewrite <- (occurrences_Permutation _ _ _ _ Hp). exact Hs.
  - rewrite (occurrences_Permutation _ _ _ _ Hp). exact Hs.
Qed.

Lemma keys_same analyses analyses' x :
  Forall clean analyses -> analyses ≡ₚ analyses' ->
  x ∈ keys (positive (tally_of analyses)) ++ keys (negative (tally_of analyses))
      ++ keys (neutral (tally_of analyses))
  <-> x ∈ keys (positive (tally_of analyses')) ++ keys (negative (tally_of analyses'))
      ++ keys (neutral (tally_of analyses')).
Proof.
  intros Hc Hp.
  assert (Hc' : Forall clean analyses') by (rewrite <- Hp; exact Hc).
  pose proof (elem_of_unique_themes analyses Hc first_index x) as H1.
  pose proof (elem_of_unique_themes analyses' Hc' first_index x) as H2.
  unfold unique_themes in H1, H2. rewrite elem_of_set_iter in H1, H2.
  rewrite H1, H2.
  split; intros [s Hs]; exists s.
  - rewrite <- (occurrences_Permutation _ _ _ _ Hp). exact Hs.
  - rewrite (occurrences_Permutation _ _ _ _ Hp). exact Hs.
Qed.

Lemma chosen_Permutation slot slot' analyses analyses' :
  Forall clean analyses -> Forall (within U) analyses -> analyses ≡ₚ analyses' ->
  chosen slot analyses ≡ₚ chosen slot' analyses'.
Proof.
  intros Hc Hw Hp. unfold chosen_of.
  rewrite (list_omap_ext _
             (fun theme => pair theme
                <$> entry_of rule (tally_of analyses') (length analyses') theme)
             _ (unique_themes slot (tally_of analyses))).
  - apply omap_Permutation.
    apply NoDup_Permutation; try apply NoDup_set_iter.
    intros x. apply unique_themes_same; assumption.
  - apply Forall2_same_length_lookup_2; [reflexivity|].
    intros i x y Hx Hy. rewrite Hx in Hy. injection Hy as <-.
    rewrite (entry_of_Permutation _ _ _ Hc Hp). reflexivity.
Qed.

Theorem summarize_permutation slot slot' reviews reviews' :
  reviews ≡ₚ reviews' ->
  same_lines (summarize slot reviews) (summarize slot' reviews').
Proof.
  intros Hp. destruct (mapM analyze reviews) as [analyses|e] eqn:E.
  - destruct (mapM_Permutation _ _ _ _ Hp E) as (analyses' & E' & Hpa).
    destruct (analyses_good _ _ E) as [Hc Hw].
    destruct (summarize_Ok slot _ _ E) as (summary & Hs & Hl).
    destruct (summarize_Ok slot' _ _ E') as (summary' & Hs' & Hl').
    rewrite E in Hs. rewrite E' in Hs'. rewrite E'. cbn [bind] in *.
    rewrite Hs, Hs'. simpl.
    intros p. destruct (Hl p) as [H1 H2], (Hl' p) as [H1' H2'].
    split; [|split; assumption].
    rewrite H1, H1'. unfold lines.
    rewrite (chosen_Permutation slot slot' _ _ Hc Hw Hpa). reflexivity.
  - rewrite (mapM_Permutation_Raise _ _ _ AttributeError e analyze_Raise Hp E).
    exact I.
Qed.

Theorem summarize_canonical slot reviews reviews' :
  (forall h h' x, slot h x = slot h' x) ->
  (forall h x y, slot h x = slot h y -> x = y) ->
  reviews ≡ₚ reviews' ->
  summarize slot reviews = summarize slot reviews'.
Proof.
  intros Hfree Hinj Hp. destruct (mapM analyze reviews) as [analyses|e] eqn:E.
  - destruct (mapM_Permutation _ _ _ _ Hp E) as (analyses' & E' & Hpa).
    destruct (analyses_good _ _ E) as [Hc Hw].
    rewrite E'. cbn [bind]. do 2 f_equal. unfold chosen_of.
    replace (unique_themes slot (tally_of analyses'))
      with (unique_themes slot (tally_of analyses)).
    + apply list_omap_ext, Forall2_same_length_lookup_2; [reflexivity|].
      intros i x y Hx Hy. rewrite Hx in Hy. injection Hy as <-.
      rewrite (entry_of_Permutation _ _ _ Hc Hpa). reflexivity.
    + unfold unique_themes. apply set_iter_canonical; try assumption.
      intros x. apply keys_same; assumption.
  - rewrite (mapM_Permutation_Raise _ _ _ AttributeError e analyze_Raise Hp E).
    reflexivity.
Qed.

End Summary_of_reviews.

(** ** [generate_summary], unfolded *)

Lemma rev2_generate_summary compound slot reviews :
  Rev2.generate_summary compound slot reviews
  = (analyses <- mapM (Rev2.analyze_review compound) reviews ;;
     sort_summary (fill_summary (render Rev2.theme_texts)
       (chosen_of rev2_rule (tally_of analyses) (length analyses)
          (unique_themes slot (tally_of analyses))))).
Proof.
  exact (generate_summary_unfold (Rev2.analyze_review compound) Rev2.decide_theme
           rev2_rule Rev2.theme_texts rev2_decide_theme
           (Rev2.tally compound) slot reviews eq_refl).
Qed.

Lemma tt_generate_summary compound slot reviews :
  Tt.generate_summary compound slot reviews
  = (analyses <- mapM (Tt.analyze_review compound) reviews ;;
     sort_summary (fill_summary (render Tt.theme_texts)
       (chosen_of tt_rule (tally_of analyses) (length analyses)
          (unique_themes slot (tally_of analyses))))).
Proof.
  exact (generate_summary_unfold (Tt.analyze_review compound) Tt.decide_theme
           tt_rule Tt.theme_texts tt_decide_theme
           (Tt.tally compound) slot reviews eq_refl).
Qed.

Lemma rev2_theme_sentiments compound slot reviews analyses :
  mapM (Rev2.analyze_review compound) reviews = Ok analyses ->
  Rev2.theme_sentiments compound slot reviews
  = Ok (chosen_of rev2_rule (tally_of analyses) (length analyses)
          (unique_themes slot (tally_of analyses))).
Proof.
  intros E. unfold Rev2.theme_sentiments, Rev2.tally.
  rewrite foldM_tally, E. cbn [bind]. fold (tally_of analyses).
  rewrite <- (mapM_length _ _ _ E).
  apply (choose_themes Rev2.decide_theme rev2_rule rev2_decide_theme).
Qed.

Lemma tt_theme_sentiments compound slot reviews analyses :
  mapM (Tt.analyze_review compound) reviews = Ok analyses ->
  Tt.theme_sentiments compound slot reviews
  = Ok (chosen_of tt_rule (tally_of analyses) (length analyses)
          (unique_themes slot (tally_of analyses))).
Proof.
  intros E. unfold Tt.theme_sentiments, Tt.tally.
  rewrite foldM_tally, E. cbn [bind]. fold (tally_of analyses).
  rewrite <- (mapM_length _ _ _ E).
  apply (choose_themes Tt.decide_theme tt_rule tt_decide_theme).
Qed.

Lemma by_code_free (h h' : list string) x : by_code h x = by_code h' x.
Proof. reflexivity. Qed.

Lemma by_code_inj (h : list string) x y : by_code h x = by_code h y -> x = y.
Proof. unfold by_code. intros [= H]. apply (inj encode). exact H. Qed.

Lemma elem_of_keys {V : Type} (d : list (string * V)) k :
  k ∈ keys d <-> exists v, (k, v) ∈ d.
Proof.
  unfold keys. rewrite list_elem_of_fmap. split.
  - intros ([k' v] & -> & H). exists v. exact H.
  - intros [v H]. exists (k, v). split; [reflexivity | exact H].
Qed.

Lemma theme_chosen rule analyses slot t :
  Forall clean analyses ->
  t ∈ keys (chosen_of rule (tally_of analyses) (length analyses)
              (unique_themes slot (tally_of analyses)))
  <-> (exists s, (0 < occurrences s t analyses)%nat)
      /\ is_Some (rule (share (occurrences Positive t analyses) (length analyses))
                       (share (occurrences Negative t analyses) (length analyses))
                       (share (occurrences Neutral t analyses) (length analyses))).
Proof.
  intros Hc. rewrite elem_of_keys.
  setoid_rewrite (elem_of_chosen_of rule analyses Hc slot t).
  split.
  - intros (v & Ht & Hv). split; [exact Ht | exists v; exact Hv].
  - intros (Ht & v & Hv). exists v. split; assumption.
Qed.


Lemma share_pos k n : (0 < k)%nat -> (0 < n)%nat -> (0 < share k n)%Q.
Proof.
  intros Hk Hn. destruct n as [|n]; [lia|]. unfold share.
  change (Z.of_nat (S n)) with (Z.pos (Pos.of_succ_nat n)).
  unfold Qlt, Qdiv, Qmult, Qinv, inject_Z. cbn [Qnum Qden]. lia.
Qed.

Lemma tt_dominant_zero p g u :
  (p == 0)%Q -> (g == 0)%Q -> (u == 0)%Q -> ~ (15 <= snd (Tt.dominant p g u))%Q.
Proof.
  intros Hp Hg Hu. unfold Tt.dominant, max2, min2.
  q_cases; simpl; intros H; try lra.
Qed.

Lemma tt_dominant_negative_only p g u :
  (p == 0)%Q -> (u == 0)%Q ->
  (15 <= snd (Tt.dominant p g u))%Q <-> (30 <= g)%Q.
Proof.
  intros Hp Hu. unfold Tt.dominant, max2, min2.
  q_cases; simpl; split; intros H; try lra.
  all: match goal with
       | H : context [Qabs ?x] |- _ => revert H; apply Qabs_case; intros; lra
       end.
Qed.

Lemma tt_dominant_neutral_only p g u :
  (p == 0)%Q -> (g == 0)%Q ->
  (15 <= snd (Tt.dominant p g u))%Q <-> (15 <= u)%Q.
Proof.
  intros Hp Hg. unfold Tt.dominant, max2, min2.
  q_cases; simpl; split; intros H; try lra.
Qed.

Lemma rev2_dominant_facts p g u :
  (0 <= p)%Q -> (0 <= g)%Q -> (0 <= u)%Q -> (0 < p \/ 0 < g \/ 0 < u)%Q ->
  let max_pct := max3 p g u in
  ((max_pct == p)%Q -> (0 < max_pct)%Q -> fst (Rev2.dominant p g u) = Positive)
  /\ ((p == g)%Q -> (max_pct == p)%Q -> fst (Rev2.dominant p g u) = Positive)
  /\ (fst (Rev2.dominant p g u) = Neutral -> (p < u)%Q /\ (g < u)%Q).
Proof.
  intros Hp Hg Hu Hsome. unfold Rev2.dominant, max3, max2. cbv zeta.
  q_cases; simpl; repeat split; intros; try discriminate; try reflexivity;
    try lra; repeat match goal with H : _ \/ _ |- _ => destruct H end; lra.
Qed.

Lemma mapM_int_no_digits parts part :
  part ∈ parts -> filter_string is_digit part = EmptyString ->
  exists e, mapM (fun val => int (filter_string is_digit val)) parts = Raise e.
Proof.
  intros Hin Hpart. destruct (mapM _ parts) as [values|e] eqn:E; [|eauto].
  apply mapM_Ok_Forall2 in E.
  apply list_elem_of_lookup in Hin as [i Hi].
  destruct (Forall2_lookup_l _ _ _ _ _ E Hi) as (v & _ & Hv).
  rewrite Hpart in Hv. discriminate.
Qed.

(** On the corpora of the examples below (one or two occurrences of a
    theme among two, five or ten reviews) binary64 arithmetic gives the
    percentages of the exact computation. *)
Lemma percent_binary64_examples :
  Forall (fun kn => exists q, Binary64.value (Binary64.percent (fst kn) (snd kn)) = Some q
                              /\ (q == share (fst kn) (snd kn))%Q)
         [ (0, 2); (1, 2); (2, 2); (0, 5); (1, 5); (0, 10); (1, 10); (2, 10) ]%nat.
Proof.
  repeat constructor; eexists; (split; [vm_compute; reflexivity|]); vm_compute; reflexivity.
Qed.

(** ** Ties in the final sort *)

Lemma insert_sorted_class (k : Q) (x : Q * string) (l : list (Q * string)) :
  List.filter (fun p => Qeq_bool (fst p) k)
              (insert_sorted (fun a b => Qle_bool (fst b) (fst a)) x l)
  = if Qeq_bool (fst x) k
    then x :: List.filter (fun p => Qeq_bool (fst p) k) l
    else List.filter (fun p => Qeq_bool (fst p) k) l.
Proof.
  induction l as [|y l IH]; cbn [insert_sorted List.filter]; [reflexivity|].
  destruct (Qle_bool (fst y) (fst x)) eqn:E; cbn [List.filter]; [reflexivity|].
  rewrite IH.
  destruct (Qeq_bool (fst x) k) eqn:Ex, (Qeq_bool (fst y) k) eqn:Ey;
    try reflexivity.
  exfalso. apply Qeq_bool_iff in Ex, Ey.
  assert (H : Qle_bool (fst y) (fst x) = true)
    by (apply Qle_bool_iff; rewrite Ex, Ey; apply Qle_refl).
  congruence.
Qed.

Lemma sorted_by_class (k : Q) (l : list (Q * string)) :
  List.filter (fun p => Qeq_bool (fst p) k)
              (sorted_by (fun a b => Qle_bool (fst b) (fst a)) l)
  = List.filter (fun p => Qeq_bool (fst p) k) l.
Proof.
  induction l as [|x l IH]; [reflexivity|].
  unfold sorted_by in *. cbn [foldr]. rewrite insert_sorted_class, IH.
  reflexivity.
Qed.

Lemma keyed_lines l keyed :
  mapM (fun x => k <- sort_key x ;; Ok (k, x)) l = Ok keyed ->
  map snd keyed = l
  /\ Forall (fun p => sort_key (snd p) = Ok (fst p)) keyed.
Proof.
  intros H. apply mapM_Ok_Forall2 in H.
  induction H as [|x p l keyed Hx _ [IH1 IH2]]; [split; constructor|].
  destruct (sort_key x) as [k|] eqn:E; cbn [bind] in Hx; [|discriminate].
  injection Hx as <-. split.
  - cbn [map snd]. rewrite IH1. reflexivity.
  - constructor; [exact E | exact IH2].
Qed.

Lemma with_key_keyed k (ps : list (Q * string)) :
  Forall (fun p => sort_key (snd p) = Ok (fst p)) ps ->
  with_key k (map snd ps)
  = map snd (List.filter (fun p => Qeq_bool (fst p) k) ps).
Proof.
  unfold with_key. induction 1 as [|p ps Hp _ IH]; [reflexivity|].
  cbn [map List.filter]. unfold has_key at 1. rewrite Hp, IH.
  destruct (Qeq_bool (fst p) k); reflexivity.
Qed.

Lemma sorted_by_key_reverse_ties l l' k :
  sorted_by_key_reverse l = Ok l' -> with_key k l' = with_key k l.
Proof.
  unfold sorted_by_key_reverse.
  destruct (mapM _ l) as [keyed|] eqn:E; cbn [bind]; [|discriminate].
  intros [= <-]. destruct (keyed_lines _ _ E) as [Hsnd Hkey].
  assert (Hkey' : Forall (fun p => sort_key (snd p) = Ok (fst p))
                    (sorted_by (fun a b => Qle_bool (fst b) (fst a)) keyed))
    by (rewrite (sorted_by_Permutation (fun a b => Qle_bool (fst b) (fst a)) keyed);
        exact Hkey).
  rewrite (with_key_keyed k _ Hkey'), sorted_by_class, <- (with_key_keyed k _ Hkey),
    Hsnd.
  reflexivity.
Qed.

Lemma sort_summary_ties summary sorted s k :
  sort_summary summary = Ok sorted ->
  with_key k (bucket s sorted) = with_key k (bucket s summary).
Proof.
  unfold sort_summary.
  destruct (sorted_by_key_reverse (positive summary)) as [p|] eqn:Ep;
    cbn [bind]; [|discriminate].
  destruct (sorted_by_key_reverse (negative summary)) as [g|] eqn:Eg;
    cbn [bind]; [|discriminate].
  destruct (sorted_by_key_reverse (neutral summary)) as [u|] eqn:Eu;
    cbn [bind]; [|discriminate].
  intros [= <-].
  destruct s; cbn [bucket positive negative neutral];
    eapply sorted_by_key_reverse_ties; eassumption.
Qed.

Lemma keys_chosen_of_sublist rule all_themes n themes :
  sublist (keys (chosen_of rule all_themes n themes)) themes.
Proof.
  unfold chosen_of, keys. induction themes as [|t themes IH]; [constructor|].
  cbn [omap list_omap].
  destruct (entry_of rule all_themes n t);
    cbn [fmap option_fmap option_map map fst]; constructor; exact IH.
Qed.

(** The lines of a returned summary against the chosen themes, which come
    in the iteration order of the set of themes. *)
Lemma summary_ties theme_texts rule slot analyses summary :
  sort_summary (fill_summary (render theme_texts)
    (chosen_of rule (tally_of analyses) (length analyses)
       (unique_themes slot (tally_of analyses)))) = Ok summary ->
  sublist (keys (chosen_of rule (tally_of analyses) (length analyses)
                   (unique_themes slot (tally_of analyses))))
          (unique_themes slot (tally_of analyses))
  /\ forall s k,
       with_key k (bucket s summary)
       = with_key k (lines theme_texts s
           (chosen_of rule (tally_of analyses) (length analyses)
              (unique_themes slot (tally_of analyses)))).
Proof.
  intros H. split; [apply keys_chosen_of_sublist|].
  intros s k. rewrite (sort_summary_ties _ _ s k H), fill_summary_bucket.
  reflexivity.
Qed.

(** * The properties *)

(** ** Rating classifier *)

(** C1 (amended).  For a numeric value supplied for one of the four rating
    fields, both analyzers give the field's theme the polarity positive
    when the value is at least HIGH (7) and negative when it is at most LOW
    (4).  For a value strictly between LOW and HIGH the per-polarity
    analyzer of tt.py gives neutral, while the flat-catalog analyzer of
    rev2.py gives the theme no verdict at all. *)
Theorem rating_classifier (review : gmap string pyval) field theme rating x :
  (field, theme) ∈ rating_fields ->
  review !! field = Some rating ->
  as_number rating = Some x ->
  (at_least x RATING_THRESHOLD_HIGH ->
     dict_get theme (Rev2._analyze_numeric_ratings review) = Some Positive
     /\ dict_get theme (Tt._analyze_numeric_ratings review) = Some Positive)
  /\ (at_most x RATING_THRESHOLD_LOW ->
     dict_get theme (Rev2._analyze_numeric_ratings review) = Some Negative
     /\ dict_get theme (Tt._analyze_numeric_ratings review) = Some Negative)
  /\ (strictly_between RATING_THRESHOLD_LOW x RATING_THRESHOLD_HIGH ->
     dict_get theme (Rev2._analyze_numeric_ratings review) = None
     /\ dict_get theme (Tt._analyze_numeric_ratings review) = Some Neutral).
Proof.
  intros Hin Hget Hnum.
  assert (Hx : review !! field ≫= as_number = Some x)
    by (rewrite Hget; exact Hnum).
  assert (Hcases : forall hi lo : bool,
    ge_int x RATING_THRESHOLD_HIGH = hi ->
    le_int x RATING_THRESHOLD_LOW = lo ->
    dict_get theme (Rev2._analyze_numeric_ratings review)
      = (if hi then Some Positive else if lo then Some Negative else None)
    /\ dict_get theme (Tt._analyze_numeric_ratings review)
      = (if hi then Some Positive else if lo then Some Negative else Some Neutral)).
  { intros hi lo Hhi Hlo.
    unfold Rev2._analyze_numeric_ratings, Tt._analyze_numeric_ratings, rating_fields in *.
    cbn [fold_left].
    rewrite !rev2_rate_field_get, !tt_rate_field_get.
    repeat (apply elem_of_cons in Hin; destruct Hin as [Hin|Hin];
            [injection Hin as -> ->; cbn [String.eqb Ascii.eqb Bool.eqb];
             rewrite Hx, Hhi, Hlo; destruct hi, lo; split; reflexivity|]).
    inversion Hin. }
  split; [|split].
  - intros H. apply (Hcases true (le_int x RATING_THRESHOLD_LOW)); [|reflexivity].
    apply ge_int_at_least. exact H.
  - intros H. apply (Hcases false true).
    + apply (at_least_not_at_most x RATING_THRESHOLD_LOW); [reflexivity | exact H].
    + apply le_int_at_most. exact H.
  - intros H. apply strictly_between_neither in H as [H1 H2].
    apply (Hcases false false); assumption.
Qed.

Lemma rating_classifier_witness :
  dict_get "leadership" (Rev2._analyze_numeric_ratings sample_review) = Some Positive
  /\ dict_get "leadership" (Tt._analyze_numeric_ratings sample_review) = Some Positive.
Proof.
  apply (rating_classifier sample_review "leadership_management" "leadership"
           (VInt 7) (FFin (inject_Z 7))).
  - unfold rating_fields. do 2 apply list_elem_of_further. apply list_elem_of_here.
  - reflexivity.
  - reflexivity.
  - apply Qle_refl.
Defined.

(** A rating of 5 lies strictly between LOW and HIGH, and the flat-catalog
    analyzer records nothing for its theme. *)
Lemma rev2_rating_between_thresholds :
  r_mid !! "work_life_balance" = Some (VInt 5)
  /\ (RATING_THRESHOLD_LOW < 5 < RATING_THRESHOLD_HIGH)%Z
  /\ dict_get "work_life_balance" (Rev2._analyze_numeric_ratings r_mid)
     <> Some Neutral.
Proof.
  split; [reflexivity|]. split; [unfold RATING_THRESHOLD_LOW, RATING_THRESHOLD_HIGH; lia|].
  vm_compute. discriminate.
Qed.

(** ** Empty corpus *)

(** C2.  [generate_summary] of no reviews is the all-empty summary in both
    analyzers, and on no list of reviews does it end in a division by
    zero. *)
Theorem generate_summary_no_division_fault compound slot :
  (Rev2.generate_summary compound slot [] = Ok (Buckets [] [] [])
   /\ Tt.generate_summary compound slot [] = Ok (Buckets [] [] []))
  /\ forall reviews,
       Rev2.generate_summary compound slot reviews <> Raise ZeroDivisionError
       /\ Tt.generate_summary compound slot reviews <> Raise ZeroDivisionError.
Proof.
  split; [split; reflexivity|]. intros reviews. split.
  - destruct (mapM (Rev2.analyze_review compound) reviews) as [analyses|e] eqn:E.
    + destruct (summarize_Ok _ rev2_rule Rev2.theme_texts (keys Rev2.themes)
                  (rev2_analyze_review_Ok compound) rev2_rule_nonneg rev2_descriptions
                  slot _ _ E) as (summary & Hs & _).
      rewrite rev2_generate_summary, Hs. discriminate.
    + rewrite rev2_generate_summary, E. cbn [bind].
      apply mapM_Raise in E as (r & _ & Hr).
      apply rev2_analyze_review_Raise in Hr. subst. discriminate.
  - destruct (mapM (Tt.analyze_review compound) reviews) as [analyses|e] eqn:E.
    + destruct (summarize_Ok _ tt_rule Tt.theme_texts (keys Tt.themes)
                  (tt_analyze_review_Ok compound) tt_rule_nonneg tt_descriptions
                  slot _ _ E) as (summary & Hs & _).
      rewrite tt_generate_summary, Hs. discriminate.
    + rewrite tt_generate_summary, E. cbn [bind].
      apply mapM_Raise in E as (r & _ & Hr).
      apply tt_analyze_review_Raise in Hr. subst. discriminate.
Qed.

(** ** Order of the reviews *)

(** C3 (amended).  For every list of reviews and every permutation of it,
    the two calls of [generate_summary] both return or both raise (which
    exception depends on which review that cannot be analysed comes
    first); when they return, each polarity group holds the same rendered
    strings in both, each group in decreasing order of the percentage
    shown.  Strings that show the same percentage keep the order of the
    chosen themes, which is the iteration order of the set
    [all_unique_themes]: so they may be ordered differently in the two
    summaries, and the two summaries are identical whenever that iteration
    order does not depend on the order of insertion. *)
Theorem generate_summary_permutation compound slot slot' reviews reviews' :
  reviews ≡ₚ reviews' ->
  (same_lines (Rev2.generate_summary compound slot reviews)
              (Rev2.generate_summary compound slot' reviews')
   /\ same_lines (Tt.generate_summary compound slot reviews)
                 (Tt.generate_summary compound slot' reviews'))
  /\ ((forall summary,
        Rev2.generate_summary compound slot reviews = Ok summary ->
        exists all_themes chosen,
          Rev2.tally compound reviews = Ok all_themes
          /\ Rev2.theme_sentiments compound slot reviews = Ok chosen
          /\ sublist (keys chosen) (Rev2.all_unique_themes slot all_themes)
          /\ forall s k, with_key k (bucket s summary)
                         = with_key k (lines Rev2.theme_texts s chosen))
      /\ (forall summary,
           Tt.generate_summary compound slot reviews = Ok summary ->
           exists all_themes chosen,
             Tt.tally compound reviews = Ok all_themes
             /\ Tt.theme_sentiments compound slot reviews = Ok chosen
             /\ sublist (keys chosen) (Tt.all_unique_themes slot all_themes)
             /\ forall s k, with_key k (bucket s summary)
                            = with_key k (lines Tt.theme_texts s chosen)))
  /\ ((forall h h' x, slot h x = slot h' x) ->
      (forall h x y, slot h x = slot h y -> x = y) ->
      (forall summary,
         Rev2.generate_summary compound slot reviews = Ok summary ->
         Rev2.generate_summary compound slot reviews' = Ok summary)
      /\ (forall summary,
           Tt.generate_summary compound slot reviews = Ok summary ->
           Tt.generate_summary compound slot reviews' = Ok summary)).
Proof.
  intros Hp. split; [split|split; [split|intros Hfree Hinj; split]].
  - rewrite (rev2_generate_summary compound slot reviews),
      (rev2_generate_summary compound slot' reviews').
    apply (summarize_permutation _ rev2_rule Rev2.theme_texts (keys Rev2.themes)
             (rev2_analyze_review_Ok compound) (rev2_analyze_review_Raise compound)
             rev2_rule_nonneg rev2_descriptions); exact Hp.
  - rewrite (tt_generate_summary compound slot reviews),
      (tt_generate_summary compound slot' reviews').
    apply (summarize_permutation _ tt_rule Tt.theme_texts (keys Tt.themes)
             (tt_analyze_review_Ok compound) (tt_analyze_review_Raise compound)
             tt_rule_nonneg tt_descriptions); exact Hp.
  - intros summary H. rewrite rev2_generate_summary in H.
    destruct (mapM (Rev2.analyze_review compound) reviews) as [analyses|] eqn:E;
      cbn [bind] in H; [|discriminate].
    destruct (summary_ties _ _ _ _ _ H) as [Hsub Hties].
    exists (tally_of analyses). eexists.
    split; [unfold Rev2.tally; rewrite foldM_tally, E; reflexivity|].
    split; [apply rev2_theme_sentiments, E|].
    split; [exact Hsub | exact Hties].
  - intros summary H. rewrite tt_generate_summary in H.
    destruct (mapM (Tt.analyze_review compound) reviews) as [analyses|] eqn:E;
      cbn [bind] in H; [|discriminate].
    destruct (summary_ties _ _ _ _ _ H) as [Hsub Hties].
    exists (tally_of analyses). eexists.
    split; [unfold Tt.tally; rewrite foldM_tally, E; reflexivity|].
    split; [apply tt_theme_sentiments, E|].
    split; [exact Hsub | exact Hties].
  - intros summary H.
    rewrite (rev2_generate_summary compound slot reviews') .
    rewrite (rev2_generate_summary compound slot reviews) in H.
    rewrite <- (summarize_canonical _ rev2_rule Rev2.theme_texts (keys Rev2.themes)
                  (rev2_analyze_review_Ok compound)
                  (rev2_analyze_review_Raise compound) slot reviews reviews'
                  Hfree Hinj Hp).
    exact H.
  - intros summary H.
    rewrite (tt_generate_summary compound slot reviews').
    rewrite (tt_generate_summary compound slot reviews) in H.
    rewrite <- (summarize_canonical _ tt_rule Tt.theme_texts (keys Tt.themes)
                  (tt_analyze_review_Ok compound)
                  (tt_analyze_review_Raise compound) slot reviews reviews'
                  Hfree Hinj Hp).
    exact H.
Qed.

Lemma generate_summary_permutation_witness :
  [r_wlb; r_cg] ≡ₚ [r_cg; r_wlb]
  /\ same_lines (Rev2.generate_summary no_score by_code [r_wlb; r_cg])
                (Rev2.generate_summary no_score first_index [r_cg; r_wlb])
  /\ Tt.generate_summary no_score by_code [r_cg; r_wlb]
     = Ok (Buckets ["Career development opportunities (50.0% of reviews)";
                    "Work-life balance practices (50.0% of reviews)"]
                   [] []).
Proof.
  split; [apply Permutation_swap|].
  split.
  - exact (proj1 (proj1 (generate_summary_permutation no_score by_code first_index
                           [r_wlb; r_cg] [r_cg; r_wlb] (Permutation_swap _ _ _)))).
  - apply (proj2 (proj2 (proj2 (generate_summary_permutation no_score by_code by_code
                                  [r_wlb; r_cg] [r_cg; r_wlb] (Permutation_swap _ _ _)))
                        by_code_free by_code_inj)).
    vm_compute. reflexivity.
Defined.

(** Two reviews whose themes tie at 50%: with a table that keeps colliding
    keys in insertion order the two lines swap with the reviews. *)
Lemma generate_summary_order_depends_on_insertion :
  [r_wlb; r_cg] ≡ₚ [r_cg; r_wlb]
  /\ Rev2.generate_summary no_score first_index [r_wlb; r_cg]
     <> Rev2.generate_summary no_score first_index [r_cg; r_wlb]
  /\ Tt.generate_summary no_score first_index [r_wlb; r_cg]
     <> Tt.generate_summary no_score first_index [r_cg; r_wlb].
Proof.
  split; [apply Permutation_swap|]. split; vm_compute; discriminate.
Qed.

(** ** Per-review result *)

(** C4 (amended).  In the result of [analyze_review] no theme occurs twice
    within one polarity bucket.  The same theme may occur in two buckets,
    when two fields of the review disagree about it. *)
Theorem analysis_buckets_duplicate_free compound review a a' :
  Rev2.analyze_review compound review = Ok a ->
  Tt.analyze_review compound review = Ok a' ->
  (forall s, NoDup (bucket s a)) /\ (forall s, NoDup (bucket s a')).
Proof.
  intros H H'. split.
  - apply (rev2_analyze_review_Ok compound review a H).
  - apply (tt_analyze_review_Ok compound review a' H').
Qed.

Lemma analysis_buckets_duplicate_free_witness :
  (forall s, NoDup (bucket s (Buckets ["work_life_balance"] ["work_life_balance"] [])))
  /\ (forall s, NoDup (bucket s (only Positive "work_life_balance"))).
Proof.
  apply (analysis_buckets_duplicate_free no_score r_long_hours); reflexivity.
Defined.

(** A high work-life rating and a complaint about long hours: the theme is
    both positive and negative (rev2.py); likewise a high innovation rating
    and a complaint about outdated tools (tt.py). *)
Lemma theme_under_two_sentiments :
  Rev2.analyze_review no_score r_long_hours
  = Ok (Buckets ["work_life_balance"] ["work_life_balance"] [])
  /\ Tt.analyze_review no_score r_outdated
  = Ok (Buckets ["innovation"] ["innovation"] []).
Proof. split; vm_compute; reflexivity. Qed.

(** ** Salary classifier *)

(** C5.  For every range text that is empty, that does not split on "-"
    into exactly two parts, or that has a part without digits, both salary
    classifiers return neutral (they are total functions: no exception
    escapes). *)
Theorem salary_malformed_neutral (text : string) (currency location : pyval) :
  text = EmptyString
  \/ length (split "-" text) <> 2%nat
  \/ (exists part, part ∈ split "-" text /\ filter_string is_digit part = EmptyString) ->
  Rev2._analyze_salary_range (VStr text) currency = Neutral
  /\ Tt._analyze_salary_range (VStr text) currency location = Neutral.
Proof.
  intros H. unfold Rev2._analyze_salary_range, Tt._analyze_salary_range.
  destruct (negb (truthy (VStr text)) || negb (truthy currency)) eqn:Eguard;
    [split; reflexivity|].
  cbn [as_str bind].
  destruct H as [-> | [Hlen | (part & Hin & Hpart)]].
  - discriminate.
  - destruct (mapM _ (split "-" text)) as [values|e] eqn:E; [|split; reflexivity].
    cbn [bind]. rewrite (mapM_length _ _ _ E).
    destruct (Nat.eqb_spec (length (split "-" text)) 2); [contradiction|].
    split; reflexivity.
  - destruct (mapM_int_no_digits _ _ Hin Hpart) as [e ->]. split; reflexivity.
Qed.

Lemma salary_malformed_neutral_witness :
  Rev2._analyze_salary_range (VStr "not-a-range") (VStr "USD") = Neutral
  /\ Tt._analyze_salary_range (VStr "not-a-range") (VStr "USD") VNone = Neutral.
Proof.
  apply salary_malformed_neutral. right. left. vm_compute. lia.
Defined.

(** C9 (amended).  For a fixed range text and location, the salary
    classification is the same for any two currency values that are both
    empty or both non-empty; and an empty (falsy) currency makes the
    result neutral whatever the range and the location. *)
Theorem salary_currency_truth (salary_range location c1 c2 : pyval) :
  truthy c1 = truthy c2 ->
  (Rev2._analyze_salary_range salary_range c1
   = Rev2._analyze_salary_range salary_range c2
   /\ Tt._analyze_salary_range salary_range c1 location
      = Tt._analyze_salary_range salary_range c2 location)
  /\ (truthy c1 = false ->
      Rev2._analyze_salary_range salary_range c1 = Neutral
      /\ Rev2._analyze_salary_range salary_range c2 = Neutral
      /\ Tt._analyze_salary_range salary_range c1 location = Neutral
      /\ Tt._analyze_salary_range salary_range c2 location = Neutral).
Proof.
  intros H. unfold Rev2._analyze_salary_range, Tt._analyze_salary_range.
  rewrite <- H. split; [split; reflexivity|].
  intros ->. cbn [negb]. rewrite orb_true_r. repeat split; reflexivity.
Qed.

Lemma salary_currency_truth_witness :
  (Rev2._analyze_salary_range (VStr "150000-200000") (VStr "USD")
   = Rev2._analyze_salary_range (VStr "150000-200000") (VStr "EUR")
   /\ Tt._analyze_salary_range (VStr "150000-200000") (VStr "USD") VNone
      = Tt._analyze_salary_range (VStr "150000-200000") (VStr "EUR") VNone)
  /\ (Rev2._analyze_salary_range (VStr "150000-200000") (VStr "") = Neutral
      /\ Rev2._analyze_salary_range (VStr "150000-200000") VNone = Neutral
      /\ Tt._analyze_salary_range (VStr "150000-200000") (VStr "")
           (VStr "Remote") = Neutral
      /\ Tt._analyze_salary_range (VStr "150000-200000") VNone
           (VStr "Remote") = Neutral).
Proof.
  split.
  - apply (salary_currency_truth (VStr "150000-200000") VNone
             (VStr "USD") (VStr "EUR")). reflexivity.
  - apply (salary_currency_truth (VStr "150000-200000") (VStr "Remote")
             (VStr "") VNone); reflexivity.
Defined.

(** The same range is positive with a currency and neutral with an empty
    one. *)
Lemma salary_depends_on_currency :
  Rev2._analyze_salary_range (VStr "150000-200000") (VStr "USD") = Positive
  /\ Rev2._analyze_salary_range (VStr "150000-200000") (VStr "") = Neutral
  /\ Tt._analyze_salary_range (VStr "150000-200000") (VStr "USD") VNone = Positive
  /\ Tt._analyze_salary_range (VStr "150000-200000") (VStr "") VNone = Neutral.
Proof. repeat split; vm_compute; reflexivity. Qed.

(** ** Malformed fields *)

(** C6 (code at the failing input).  A review whose [pros] field is the
    number 5 makes [analyze_review] raise [AttributeError] in both
    analyzers. *)
Theorem analyze_review_non_text_pros (compound : string -> Q) :
  Rev2.analyze_review compound r_bad_pros = Raise AttributeError
  /\ Tt.analyze_review compound r_bad_pros = Raise AttributeError.
Proof. split; vm_compute; reflexivity. Qed.

(** ** The sample review *)

(** C7 (amended).  For the sample review, both analyzers put
    work_life_balance, career_growth, innovation, compensation and also
    leadership (its rating 7 equals HIGH) under positive; nothing is
    neutral.  The flat-catalog analyzer moreover files work_life_balance
    and project_management under negative, for the deadlines of the cons
    text. *)
Theorem sample_review_analysis (compound : string -> Q) :
  Rev2.analyze_review compound sample_review
  = Ok (Buckets ["career_growth"; "compensation"; "innovation"; "leadership";
                 "work_life_balance"]
                ["project_management"; "work_life_balance"] [])
  /\ Tt.analyze_review compound sample_review
  = Ok (Buckets ["career_growth"; "compensation"; "innovation"; "leadership";
                 "work_life_balance"] [] []).
Proof. split; vm_compute; reflexivity. Qed.

(** In the sample review leadership is positive, not neutral. *)
Lemma sample_review_leadership_positive :
  exists r r',
    Rev2.analyze_review no_score sample_review = Ok r
    /\ Tt.analyze_review no_score sample_review = Ok r'
    /\ ("leadership" ∈ positive r) /\ ("leadership" ∉ neutral r)
    /\ ("leadership" ∈ positive r') /\ ("leadership" ∉ neutral r').
Proof.
  do 2 eexists. split; [vm_compute; reflexivity|]. split; [vm_compute; reflexivity|].
  cbn [positive neutral].
  repeat split; try apply not_elem_of_nil;
    do 3 apply list_elem_of_further; apply list_elem_of_here.
Qed.

(** ** Inclusion threshold *)

(** C8 (code at the failing inputs).  "Only include themes that appear in
    at least 20% of reviews", says rev2.py, and tt.py "at least 15%"; both
    test the percentage of one polarity instead.  A theme rated high in
    one and low in another of ten reviews occurs in 2 of the 10, which
    meets 20%, and rev2.py leaves it out; a theme rated high in one of
    five reviews occurs in 20% of them, which meets 15%, and tt.py leaves
    it out.  (The reviews hold no text, so neither the scorer nor the
    order of the set is involved.) *)
Theorem inclusion_not_by_occurrence_share (compound : string -> Q)
    (slot : list string -> string -> N) :
  (exists analyses,
     mapM (Rev2.analyze_review compound) ten_reviews = Ok analyses
     /\ mentions "career_growth" analyses = 2%nat
     /\ (20 * length ten_reviews <= 100 * 2)%nat
     /\ Rev2.generate_summary compound slot ten_reviews = Ok nothing)
  /\ (exists analyses,
        mapM (Tt.analyze_review compound) five_reviews = Ok analyses
        /\ mentions "career_growth" analyses = 1%nat
        /\ (15 * length five_reviews <= 100 * 1)%nat
        /\ Tt.generate_summary compound slot five_reviews = Ok nothing).
Proof.
  split.
  - exists (only Positive "career_growth" :: only Negative "career_growth"
            :: replicate 8 nothing).
    split; [vm_compute; reflexivity|].
    split; [vm_compute; reflexivity|].
    split; [vm_compute; lia|]. vm_compute. reflexivity.
  - exists (only Positive "career_growth" :: replicate 4 nothing).
    split; [vm_compute; reflexivity|].
    split; [vm_compute; reflexivity|].
    split; [vm_compute; lia|]. vm_compute. reflexivity.
Qed.

(** ** Dominant polarity, flat-catalog analyzer *)

(** C10.  For every tallied theme: if its positive percentage equals the
    largest of the three percentages and is above zero, the dominant
    polarity is positive; so a tie of positive and negative at the maximum
    goes to positive; and neutral is dominant only when its percentage
    strictly exceeds both the positive and the negative one. *)
Theorem positive_wins_ties compound slot reviews all_themes theme :
  Rev2.tally compound reviews = Ok all_themes ->
  theme ∈ Rev2.all_unique_themes slot all_themes ->
  exists pos_pct neg_pct neu_pct,
    percent (count theme (positive all_themes)) (length reviews) = Ok pos_pct
    /\ percent (count theme (negative all_themes)) (length reviews) = Ok neg_pct
    /\ percent (count theme (neutral all_themes)) (length reviews) = Ok neu_pct
    /\ let max_pct := max3 pos_pct neg_pct neu_pct in
       ((max_pct == pos_pct)%Q -> (0 < max_pct)%Q ->
          fst (Rev2.dominant pos_pct neg_pct neu_pct) = Positive)
       /\ ((pos_pct == neg_pct)%Q -> (max_pct == pos_pct)%Q ->
          fst (Rev2.dominant pos_pct neg_pct neu_pct) = Positive)
       /\ (fst (Rev2.dominant pos_pct neg_pct neu_pct) = Neutral ->
          (pos_pct < neu_pct)%Q /\ (neg_pct < neu_pct)%Q).
Proof.
  unfold Rev2.tally. rewrite foldM_tally.
  destruct (mapM (Rev2.analyze_review compound) reviews) as [analyses|] eqn:E;
    cbn [bind]; [|discriminate].
  intros [= <-] Hin. fold (tally_of analyses) in *.
  destruct (analyses_good _ _ (rev2_analyze_review_Ok compound) _ _ E) as [Hc _].
  apply (elem_of_unique_themes analyses Hc) in Hin as [s Hs].
  pose proof (occurrences_le s theme analyses) as Hle.
  rewrite (mapM_length _ _ _ E) in Hle.
  assert (Hn : length reviews <> 0%nat) by lia.
  change (positive (tally_of analyses)) with (bucket Positive (tally_of analyses)).
  change (negative (tally_of analyses)) with (bucket Negative (tally_of analyses)).
  change (neutral (tally_of analyses)) with (bucket Neutral (tally_of analyses)).
  rewrite !count_tally_of by exact Hc.
  do 3 eexists. rewrite !percent_share by exact Hn.
  do 3 (split; [reflexivity|]).
  apply rev2_dominant_facts; try apply share_nonneg.
  destruct s; [left | right; left | right; right]; apply share_pos; lia.
Qed.

Lemma positive_wins_ties_witness :
  exists pos_pct neg_pct neu_pct,
    percent 1 2 = Ok pos_pct /\ percent 1 2 = Ok neg_pct /\ percent 0 2 = Ok neu_pct
    /\ ((pos_pct == neg_pct)%Q -> (max3 pos_pct neg_pct neu_pct == pos_pct)%Q ->
        fst (Rev2.dominant pos_pct neg_pct neu_pct) = Positive).
Proof.
  destruct (positive_wins_ties no_score first_index [r_cg; r_cg_low]
              (Buckets [("career_growth", 1%nat)] [("career_growth", 1%nat)] [])
              "career_growth" eq_refl)
    as (p & g & u & Hp & Hg & Hu & _ & H & _).
  - apply list_elem_of_here.
  - exists p, g, u. repeat split; assumption.
Defined.


(** * Further properties of the two analyzers *)

(** ** Ratings *)

Lemma rating_verdicts (review : gmap string pyval) field theme :
  (field, theme) ∈ rating_fields ->
  dict_get theme (Rev2._analyze_numeric_ratings review)
    = match review !! field ≫= as_number with
      | Some x => if ge_int x RATING_THRESHOLD_HIGH then Some Positive
                  else if le_int x RATING_THRESHOLD_LOW then Some Negative
                  else None
      | None => None
      end
  /\ dict_get theme (Tt._analyze_numeric_ratings review)
    = match review !! field ≫= as_number with
      | Some x => if ge_int x RATING_THRESHOLD_HIGH then Some Positive
                  else if le_int x RATING_THRESHOLD_LOW then Some Negative
                  else Some Neutral
      | None => None
      end.
Proof.
  intros Hin.
  unfold Rev2._analyze_numeric_ratings, Tt._analyze_numeric_ratings, rating_fields in *.
  cbn [fold_left].
  rewrite !rev2_rate_field_get, !tt_rate_field_get.
  repeat (apply elem_of_cons in Hin; destruct Hin as [Hin|Hin];
          [injection Hin as -> ->; cbn [String.eqb Ascii.eqb Bool.eqb];
           match goal with
           | |- context [match ?o with Some _ => _ | None => _ end] =>
               destruct o as [x|]
           end; [|split; reflexivity];
           destruct (ge_int x RATING_THRESHOLD_HIGH), (le_int x RATING_THRESHOLD_LOW);
           split; reflexivity|]).
  inversion Hin.
Qed.

(** X1.  A rating field that is missing from the review, or whose value is
    not a number (a text, [None], a list), leaves its theme out of the
    result of [_analyze_numeric_ratings], in both analyzers. *)
Theorem rating_absent_or_not_a_number (review : gmap string pyval) field theme :
  (field, theme) ∈ rating_fields ->
  review !! field = None
  \/ (exists v, review !! field = Some v /\ as_number v = None) ->
  dict_get theme (Rev2._analyze_numeric_ratings review) = None
  /\ dict_get theme (Tt._analyze_numeric_ratings review) = None.
Proof.
  intros Hin H. destruct (rating_verdicts review field theme Hin) as [-> ->].
  destruct H as [-> | (v & -> & Hv)]; simpl; [|rewrite Hv]; split; reflexivity.
Qed.

Lemma rating_absent_or_not_a_number_witness :
  dict_get "innovation" (Rev2._analyze_numeric_ratings r_text_rating) = None
  /\ dict_get "innovation" (Tt._analyze_numeric_ratings r_text_rating) = None.
Proof.
  apply (rating_absent_or_not_a_number r_text_rating "innovation" "innovation").
  - unfold rating_fields. do 3 apply list_elem_of_further. apply list_elem_of_here.
  - right. exists (VStr "9"). split; reflexivity.
Defined.

Lemma ge_int_mono q1 q2 k : (q1 <= q2)%Q -> ge_int (FFin q1) k = true -> ge_int (FFin q2) k = true.
Proof.
  simpl. intros H H1. apply Qle_bool_iff in H1. apply Qle_bool_iff.
  eapply Qle_trans; eassumption.
Qed.

Lemma le_int_mono q1 q2 k : (q1 <= q2)%Q -> le_int (FFin q2) k = true -> le_int (FFin q1) k = true.
Proof.
  simpl. intros H H1. apply Qle_bool_iff in H1. apply Qle_bool_iff.
  eapply Qle_trans; eassumption.
Qed.

Lemma ge_int_high_not_low q :
  ge_int (FFin q) RATING_THRESHOLD_HIGH = true -> le_int (FFin q) RATING_THRESHOLD_LOW = false.
Proof.
  simpl. intros H. apply Qle_bool_iff in H.
  destruct (Qle_bool q (inject_Z RATING_THRESHOLD_LOW)) eqn:E; [|reflexivity].
  apply Qle_bool_iff in E. exfalso.
  assert (Hq : (inject_Z RATING_THRESHOLD_HIGH <= inject_Z RATING_THRESHOLD_LOW)%Q)
    by (eapply Qle_trans; eassumption).
  rewrite <- Zle_Qle in Hq. unfold RATING_THRESHOLD_HIGH, RATING_THRESHOLD_LOW in Hq. lia.
Qed.

(** X2.  The rating classifier is monotone, in both analyzers: of two
    finite ratings of the same field, if the smaller one is classified
    positive so is the larger, and if the larger one is classified
    negative so is the smaller. *)
Theorem rating_monotone (review1 review2 : gmap string pyval) field theme v1 v2 q1 q2 :
  (field, theme) ∈ rating_fields ->
  review1 !! field = Some v1 -> as_number v1 = Some (FFin q1) ->
  review2 !! field = Some v2 -> as_number v2 = Some (FFin q2) ->
  (q1 <= q2)%Q ->
  ((dict_get theme (Rev2._analyze_numeric_ratings review1) = Some Positive ->
    dict_get theme (Rev2._analyze_numeric_ratings review2) = Some Positive)
   /\ (dict_get theme (Rev2._analyze_numeric_ratings review2) = Some Negative ->
       dict_get theme (Rev2._analyze_numeric_ratings review1) = Some Negative))
  /\ ((dict_get theme (Tt._analyze_numeric_ratings review1) = Some Positive ->
       dict_get theme (Tt._analyze_numeric_ratings review2) = Some Positive)
      /\ (dict_get theme (Tt._analyze_numeric_ratings review2) = Some Negative ->
          dict_get theme (Tt._analyze_numeric_ratings review1) = Some Negative)).
Proof.
  intros Hin H1 N1 H2 N2 Hle.
  destruct (rating_verdicts review1 field theme Hin) as [-> ->].
  destruct (rating_verdicts review2 field theme Hin) as [-> ->].
  rewrite H1, H2. simpl. rewrite N1, N2.
  pose proof (ge_int_mono q1 q2 RATING_THRESHOLD_HIGH Hle) as Hge.
  pose proof (le_int_mono q1 q2 RATING_THRESHOLD_LOW Hle) as Hlow.
  pose proof (ge_int_high_not_low q1) as Hx1.
  pose proof (ge_int_high_not_low q2) as Hx2.
  destruct (ge_int (FFin q1) RATING_THRESHOLD_HIGH) eqn:G1,
           (ge_int (FFin q2) RATING_THRESHOLD_HIGH) eqn:G2,
           (le_int (FFin q1) RATING_THRESHOLD_LOW) eqn:L1,
           (le_int (FFin q2) RATING_THRESHOLD_LOW) eqn:L2;
    repeat split; intros; try congruence;
    try (specialize (Hge eq_refl); congruence);
    try (specialize (Hlow eq_refl); congruence);
    try (specialize (Hx1 eq_refl); congruence);
    try (specialize (Hx2 eq_refl); congruence).
Qed.

Lemma rating_monotone_witness :
  dict_get "innovation" (Rev2._analyze_numeric_ratings r_innovation_8) = Some Positive
  /\ dict_get "innovation" (Rev2._analyze_numeric_ratings r_innovation_9) = Some Positive.
Proof.
  destruct (rating_monotone r_innovation_8 r_innovation_9 "innovation" "innovation"
              (VInt 8) (VInt 9) (inject_Z 8) (inject_Z 9)) as [[H _] _].
  - unfold rating_fields. do 3 apply list_elem_of_further. apply list_elem_of_here.
  - reflexivity.
  - reflexivity.
  - reflexivity.
  - reflexivity.
  - unfold Qle. simpl. lia.
  - split; [reflexivity | apply H; reflexivity].
Defined.

Lemma keys_dict_set_old {V : Type} k (v : V) d :
  k ∈ keys d -> keys (dict_set k v d) = keys d.
Proof.
  induction d as [|[k' v'] d IH]; cbn [dict_set keys map fst]; intros H.
  - inversion H.
  - destruct (String.eqb_spec k k') as [->|Hne]; [reflexivity|].
    cbn [map fst]. f_equal. apply IH.
    apply elem_of_cons in H as [H|H]; [contradiction | exact H].
Qed.

Lemma keys_dict_set_cases {V : Type} k (v : V) d :
  ((k ∈ keys d) /\ keys (dict_set k v d) = keys d)
  \/ ((k ∉ keys d) /\ keys (dict_set k v d) = keys d ++ [k]).
Proof.
  destruct (decide (k ∈ keys d)) as [H|H].
  - left. split; [exact H | apply keys_dict_set_old, H].
  - right. split; [exact H|]. rewrite dict_set_fresh by exact H.
    unfold keys. rewrite map_app. reflexivity.
Qed.

Lemma keys_rate_fields_sublist {V : Type}
    (step : list (string * V) -> string * string -> list (string * V)) fts acc :
  (forall acc ft, keys (step acc ft) = keys acc
                  \/ ((snd ft ∉ keys acc) /\ keys (step acc ft) = keys acc ++ [snd ft])
                  \/ ((snd ft ∈ keys acc) /\ keys (step acc ft) = keys acc)) ->
  NoDup (map snd fts) ->
  (forall t, t ∈ map snd fts -> t ∉ keys acc) ->
  exists l, sublist l (map snd fts) /\ keys (fold_left step fts acc) = keys acc ++ l.
Proof.
  intros Hstep. revert acc. induction fts as [|ft fts IH]; intros acc Hnd Hfresh.
  - exists []. split; [constructor | simpl; rewrite app_nil_r; reflexivity].
  - simpl in Hnd. apply NoDup_cons in Hnd as [Hft Hnd]. simpl.
    destruct (Hstep acc ft) as [Hk | [[_ Hk] | [Hin _]]].
    + destruct (IH (step acc ft) Hnd) as (l & Hl & Hkeys).
      * intros t Ht. rewrite Hk. apply Hfresh. right. exact Ht.
      * exists l. split; [apply sublist_cons, Hl | rewrite Hkeys, Hk; reflexivity].
    + destruct (IH (step acc ft) Hnd) as (l & Hl & Hkeys).
      * intros t Ht. rewrite Hk, elem_of_app, list_elem_of_singleton.
        intros [H| ->]; [|contradiction]. revert H. apply Hfresh. right. exact Ht.
      * exists (snd ft :: l). split; [apply sublist_skip, Hl|].
        rewrite Hkeys, Hk, <- app_assoc. reflexivity.
    + exfalso. revert Hin. apply Hfresh. left.
Qed.

Lemma rev2_rate_field_keys_cases review acc ft :
  keys (Rev2.rate_field review acc ft) = keys acc
  \/ ((snd ft ∉ keys acc) /\ keys (Rev2.rate_field review acc ft) = keys acc ++ [snd ft])
  \/ ((snd ft ∈ keys acc) /\ keys (Rev2.rate_field review acc ft) = keys acc).
Proof.
  destruct ft as [f t]. unfold Rev2.rate_field. cbn [snd].
  destruct (review !! f) as [rating|]; [|auto].
  destruct (as_number rating) as [n|]; [|auto].
  destruct (ge_int n RATING_THRESHOLD_HIGH);
    [|destruct (le_int n RATING_THRESHOLD_LOW); [|auto]];
    match goal with
    | |- context [dict_set ?k ?v ?d] => destruct (keys_dict_set_cases k v d) as [[? ->]|[? ->]]
    end; auto.
Qed.

Lemma tt_rate_field_keys_cases review acc ft :
  keys (Tt.rate_field review acc ft) = keys acc
  \/ ((snd ft ∉ keys acc) /\ keys (Tt.rate_field review acc ft) = keys acc ++ [snd ft])
  \/ ((snd ft ∈ keys acc) /\ keys (Tt.rate_field review acc ft) = keys acc).
Proof.
  destruct ft as [f t]. unfold Tt.rate_field. cbn [snd].
  destruct (review !! f) as [rating|]; [|auto].
  destruct (as_number rating) as [n|]; [|auto].
  destruct (ge_int n RATING_THRESHOLD_HIGH);
    [|destruct (le_int n RATING_THRESHOLD_LOW)];
    match goal with
    | |- context [dict_set ?k ?v ?d] => destruct (keys_dict_set_cases k v d) as [[? ->]|[? ->]]
    end; auto.
Qed.

(** X3.  Whatever the review holds, the themes rated by
    [_analyze_numeric_ratings] are some of work_life_balance,
    career_growth, leadership and innovation, each at most once and in
    this order. *)
Theorem rating_themes_in_order (review : gmap string pyval) :
  sublist (keys (Rev2._analyze_numeric_ratings review))
          ["work_life_balance"; "career_growth"; "leadership"; "innovation"]
  /\ sublist (keys (Tt._analyze_numeric_ratings review))
             ["work_life_balance"; "career_growth"; "leadership"; "innovation"].
Proof.
  assert (Hnd : NoDup (map snd rating_fields)).
  { unfold rating_fields. simpl. apply (bool_decide_unpack _). vm_compute. exact I. }
  split.
  - destruct (keys_rate_fields_sublist (Rev2.rate_field review) rating_fields []
                (rev2_rate_field_keys_cases review) Hnd) as (l & Hl & Hk).
    + intros t _. apply not_elem_of_nil.
    + unfold Rev2._analyze_numeric_ratings. rewrite Hk. exact Hl.
  - destruct (keys_rate_fields_sublist (Tt.rate_field review) rating_fields []
                (tt_rate_field_keys_cases review) Hnd) as (l & Hl & Hk).
    + intros t _. apply not_elem_of_nil.
    + unfold Tt._analyze_numeric_ratings. rewrite Hk. exact Hl.
Qed.

(** ** Salary ranges *)

Lemma int_nonneg s z : int s = Ok z -> (0 <= z)%Z.
Proof.
  unfold int. destruct (4300 <? String.length s)%nat; [discriminate|].
  destruct (NilZero.uint_of_string s); [|discriminate].
  intros [= <-]. apply N2Z.is_nonneg.
Qed.

Lemma amounts_nonneg text values :
  amounts text = Ok values -> Forall (fun z => (0 <= z)%Z) values.
Proof.
  apply mapM_Ok_Forall. intros x y. apply int_nonneg.
Qed.

Lemma mapM_map {A B C : Type} (h : A -> B) (g : B -> outcome C) l :
  mapM (fun x => g (h x)) l = mapM g (map h l).
Proof.
  induction l as [|x l IH]; [reflexivity|].
  cbn [mapM map]. rewrite IH. reflexivity.
Qed.

Lemma truthy_text s : truthy (VStr s) = true <-> s <> EmptyString.
Proof.
  cbn [truthy]. destruct (String.eqb_spec s ""); cbn [negb]; split; intros; congruence.
Qed.

Lemma Qlt_bool_half_r (k n : Z) : Qlt_bool (inject_Z k) (n # 2) = (2 * k <? n)%Z.
Proof.
  destruct (Qlt_bool_spec (inject_Z k) (n # 2)) as [H|H];
    unfold Qlt, inject_Z in H; cbn [Qnum Qden] in H;
    destruct (Z.ltb_spec (2 * k) n); try reflexivity; lia.
Qed.

Lemma Qlt_bool_half_l (k n : Z) : Qlt_bool (n # 2) (inject_Z k) = (n <? 2 * k)%Z.
Proof.
  destruct (Qlt_bool_spec (n # 2) (inject_Z k)) as [H|H];
    unfold Qlt, inject_Z in H; cbn [Qnum Qden] in H;
    destruct (Z.ltb_spec n (2 * k)); try reflexivity; lia.
Qed.

(** The body of both salary classifiers once the range text has been read:
    [judge high low values]. *)
Lemma rev2_salary_text text currency :
  text <> EmptyString -> truthy currency = true ->
  Rev2._analyze_salary_range (VStr text) currency
  = try_except
      (values <- amounts text ;;
       if (length values =? 2)%nat then
         avg_salary <- true_div_2 (sum values) ;;
         if Qlt_bool 100000 avg_salary then Ok Positive
         else if Qlt_bool avg_salary 50000 then Ok Negative
         else Ok Neutral
       else Ok Neutral)
      Neutral.
Proof.
  intros Ht Hc. unfold Rev2._analyze_salary_range.
  apply truthy_text in Ht. rewrite Ht, Hc. reflexivity.
Qed.

Lemma tt_salary_text text currency location :
  text <> EmptyString -> truthy currency = true ->
  Tt._analyze_salary_range (VStr text) currency location
  = try_except
      (values <- amounts text ;;
       if (length values =? 2)%nat then
         avg_salary <- true_div_2 (sum values) ;;
         remote <- Tt.is_remote location ;;
         if Qlt_bool (if remote then 90000 else 100000) avg_salary then Ok Positive
         else if Qlt_bool avg_salary (if remote then 45000 else 50000) then Ok Negative
         else Ok Neutral
       else Ok Neutral)
      Neutral.
Proof.
  intros Ht Hc. unfold Tt._analyze_salary_range.
  apply truthy_text in Ht. rewrite Ht, Hc. reflexivity.
Qed.

(** X4.  A range text that yields exactly two amounts [lo] and [hi] is
    classified by their sum alone: positive above 200000, negative below
    100000 (180000 and 90000 in tt.py for a remote location), neutral in
    between -- and neutral again from 2^1025 - 2^971 on, where halving the
    sum overflows a float and the exception is swallowed. *)
Theorem salary_two_amounts (text : string) (currency location : pyval)
    (remote : bool) (lo hi : Z) :
  text <> EmptyString ->
  truthy currency = true ->
  amounts text = Ok [lo; hi] ->
  Tt.is_remote location = Ok remote ->
  Rev2._analyze_salary_range (VStr text) currency
  = (if (2 ^ 1025 - 2 ^ 971 <=? lo + hi)%Z then Neutral
     else if (200000 <? lo + hi)%Z then Positive
     else if (lo + hi <? 100000)%Z then Negative
     else Neutral)
  /\ Tt._analyze_salary_range (VStr text) currency location
  = (if (2 ^ 1025 - 2 ^ 971 <=? lo + hi)%Z then Neutral
     else if ((if remote then 180000 else 200000) <? lo + hi)%Z then Positive
     else if (lo + hi <? (if remote then 90000 else 100000))%Z then Negative
     else Neutral).
Proof.
  intros Ht Hc Ha Hr.
  rewrite (rev2_salary_text _ _ Ht Hc), (tt_salary_text _ _ _ Ht Hc), Ha, Hr.
  apply amounts_nonneg in Ha.
  apply Forall_cons in Ha as [Hlo Ha]. apply Forall_cons in Ha as [Hhi _].
  cbn [bind length Nat.eqb sum fold_left]. unfold true_div_2.
  replace (Z.abs (0 + lo + hi)) with (lo + hi)%Z by lia.
  replace (0 + lo + hi)%Z with (lo + hi)%Z by lia.
  destruct (2 ^ 1025 - 2 ^ 971 <=? lo + hi)%Z; [split; reflexivity|].
  cbn [bind].
  change 100000%Q with (inject_Z 100000). change 50000%Q with (inject_Z 50000).
  split.
  - rewrite Qlt_bool_half_r, Qlt_bool_half_l.
    change (2 * 100000)%Z with 200000%Z. change (2 * 50000)%Z with 100000%Z.
    destruct (200000 <? lo + hi)%Z; [reflexivity|].
    destruct (lo + hi <? 100000)%Z; reflexivity.
  - destruct remote.
    + change 90000%Q with (inject_Z 90000). change 45000%Q with (inject_Z 45000).
      rewrite Qlt_bool_half_r, Qlt_bool_half_l.
      change (2 * 90000)%Z with 180000%Z. change (2 * 45000)%Z with 90000%Z.
      destruct (180000 <? lo + hi)%Z; [reflexivity|].
      destruct (lo + hi <? 90000)%Z; reflexivity.
    + rewrite Qlt_bool_half_r, Qlt_bool_half_l.
      change (2 * 100000)%Z with 200000%Z. change (2 * 50000)%Z with 100000%Z.
      destruct (200000 <? lo + hi)%Z; [reflexivity|].
      destruct (lo + hi <? 100000)%Z; reflexivity.
Qed.

Lemma salary_two_amounts_witness :
  Rev2._analyze_salary_range (VStr "$90,000 - $100,000") (VStr "USD") = Neutral
  /\ Tt._analyze_salary_range (VStr "$90,000 - $100,000") (VStr "USD")
       (VStr "Remote, US") = Positive.
Proof.
  apply (salary_two_amounts "$90,000 - $100,000" (VStr "USD") (VStr "Remote, US")
           true 90000 100000).
  - discriminate.
  - reflexivity.
  - vm_compute. reflexivity.
  - vm_compute. reflexivity.
Defined.

(** X5.  Only the digits of each "-"-separated part of the range text
    count: two texts whose parts hold the same digits get the same
    verdict, whatever else they hold (currency signs, separators,
    letters, blanks). *)
Theorem salary_digits_only (text1 text2 : string) (currency location : pyval) :
  map (filter_string is_digit) (split "-" text1)
  = map (filter_string is_digit) (split "-" text2) ->
  Rev2._analyze_salary_range (VStr text1) currency
  = Rev2._analyze_salary_range (VStr text2) currency
  /\ Tt._analyze_salary_range (VStr text1) currency location
     = Tt._analyze_salary_range (VStr text2) currency location.
Proof.
  intros H.
  assert (Ha : amounts text1 = amounts text2).
  { unfold amounts. rewrite !(mapM_map (filter_string is_digit) int), H. reflexivity. }
  assert (Hempty : forall t t', t = EmptyString -> amounts t = amounts t' ->
            forall c l,
              Rev2._analyze_salary_range (VStr t) c = Rev2._analyze_salary_range (VStr t') c
              /\ Tt._analyze_salary_range (VStr t) c l
                 = Tt._analyze_salary_range (VStr t') c l).
  { intros t t' -> Heq c l.
    unfold Rev2._analyze_salary_range, Tt._analyze_salary_range.
    destruct (truthy (VStr t')); [|split; reflexivity].
    cbn [truthy String.eqb negb orb as_str bind].
    fold (amounts t'). rewrite <- Heq.
    destruct (truthy c); split; reflexivity. }
  destruct (String.eqb_spec text1 "") as [E1|E1].
  { apply Hempty; assumption. }
  destruct (String.eqb_spec text2 "") as [E2|E2].
  { destruct (Hempty text2 text1 E2 (eq_sym Ha) currency location) as [-> ->].
    split; reflexivity. }
  destruct (truthy currency) eqn:Hc.
  - rewrite !rev2_salary_text, !tt_salary_text, Ha by assumption. split; reflexivity.
  - unfold Rev2._analyze_salary_range, Tt._analyze_salary_range. rewrite Hc.
    rewrite !orb_true_r. split; reflexivity.
Qed.

Lemma salary_digits_only_witness :
  Rev2._analyze_salary_range (VStr "$150,000 - $200,000 a year") (VStr "USD")
  = Rev2._analyze_salary_range (VStr "150000-200000") (VStr "USD")
  /\ Tt._analyze_salary_range (VStr "$150,000 - $200,000 a year") (VStr "USD") VNone
     = Tt._analyze_salary_range (VStr "150000-200000") (VStr "USD") VNone.
Proof.
  apply (salary_digits_only "$150,000 - $200,000 a year" "150000-200000").
  vm_compute. reflexivity.
Defined.

(** X6.  A range that is not a text (a number, a list, [None]) is
    classified neutral by both analyzers: the [AttributeError] of its
    [split] never leaves [_analyze_salary_range]. *)
Theorem salary_not_text (salary_range currency location : pyval) :
  (forall s, salary_range <> VStr s) ->
  Rev2._analyze_salary_range salary_range currency = Neutral
  /\ Tt._analyze_salary_range salary_range currency location = Neutral.
Proof.
  intros H. unfold Rev2._analyze_salary_range, Tt._analyze_salary_range.
  destruct (negb (truthy salary_range) || negb (truthy currency));
    [split; reflexivity|].
  destruct salary_range; try (split; reflexivity).
  exfalso. eapply H. reflexivity.
Qed.

Lemma salary_not_text_witness :
  Rev2._analyze_salary_range (VInt 150000) (VStr "USD") = Neutral
  /\ Tt._analyze_salary_range (VInt 150000) (VStr "USD") VNone = Neutral.
Proof. apply salary_not_text. discriminate. Defined.

Lemma is_remote_not_text location :
  truthy location = true -> (forall s, location <> VStr s) ->
  Tt.is_remote location = Raise AttributeError.
Proof.
  intros Ht H. unfold Tt.is_remote. rewrite Ht.
  destruct location; try reflexivity. exfalso. eapply H. reflexivity.
Qed.

(** X7.  In tt.py a location that is truthy but not a text makes every
    range neutral: where the range has two amounts, [location.lower()]
    raises inside the [try]. *)
Theorem salary_location_not_text (salary_range currency location : pyval) :
  truthy location = true ->
  (forall s, location <> VStr s) ->
  Tt._analyze_salary_range salary_range currency location = Neutral.
Proof.
  intros Ht H. unfold Tt._analyze_salary_range.
  rewrite (is_remote_not_text _ Ht H).
  destruct (negb (truthy salary_range) || negb (truthy currency)); [reflexivity|].
  destruct (as_str salary_range) as [text|]; [|reflexivity]. cbn [bind].
  destruct (mapM _ _) as [values|]; [|reflexivity]. cbn [bind].
  destruct (length values =? 2)%nat; [|reflexivity].
  destruct (true_div_2 (sum values)); reflexivity.
Qed.

Lemma salary_location_not_text_witness :
  Tt._analyze_salary_range (VStr "150000-200000") (VStr "USD") (VInt 560001)
  = Neutral.
Proof. apply salary_location_not_text; [reflexivity | discriminate]. Defined.

(** X8.  For a location that is not remote (absent, empty, or a text
    without "remote") the salary classifier of tt.py is that of rev2.py. *)
Theorem salary_not_remote_agrees (salary_range currency location : pyval) :
  Tt.is_remote location = Ok false ->
  Tt._analyze_salary_range salary_range currency location
  = Rev2._analyze_salary_range salary_range currency.
Proof.
  intros H. unfold Tt._analyze_salary_range, Rev2._analyze_salary_range.
  rewrite H.
  destruct (negb (truthy salary_range) || negb (truthy currency)); [reflexivity|].
  destruct (as_str salary_range) as [text|]; [|reflexivity]. cbn [bind].
  destruct (mapM _ _) as [values|]; [|reflexivity]. cbn [bind].
  destruct (length values =? 2)%nat; [|reflexivity].
  destruct (true_div_2 (sum values)); reflexivity.
Qed.

Lemma salary_not_remote_agrees_witness :
  Tt._analyze_salary_range (VStr "40000-50000") (VStr "USD") (VStr "Bengaluru")
  = Rev2._analyze_salary_range (VStr "40000-50000") (VStr "USD").
Proof. apply salary_not_remote_agrees. vm_compute. reflexivity. Defined.

(** X9.  A remote location never lowers the verdict of tt.py on a range:
    it is at least the verdict of rev2.py, in the order negative <
    neutral < positive. *)
Theorem salary_remote_never_lower (salary_range currency location : pyval) :
  Tt.is_remote location = Ok true ->
  (rank (Rev2._analyze_salary_range salary_range currency)
   <= rank (Tt._analyze_salary_range salary_range currency location))%Z.
Proof.
  intros H. unfold Tt._analyze_salary_range, Rev2._analyze_salary_range.
  rewrite H.
  destruct (negb (truthy salary_range) || negb (truthy currency)); [reflexivity|].
  destruct (as_str salary_range) as [text|]; [|reflexivity]. cbn [bind].
  destruct (mapM _ _) as [values|]; [|reflexivity]. cbn [bind].
  destruct (length values =? 2)%nat; [|reflexivity].
  destruct (true_div_2 (sum values)) as [avg|]; [|reflexivity]. cbn [bind].
  destruct (Qlt_bool_spec 100000 avg) as [H1|H1],
           (Qlt_bool_spec avg 50000) as [H2|H2],
           (Qlt_bool_spec 90000 avg) as [H3|H3],
           (Qlt_bool_spec avg 45000) as [H4|H4];
    cbn [try_except rank]; try lia; exfalso; lra.
Qed.

Lemma salary_remote_never_lower_witness :
  (rank (Rev2._analyze_salary_range (VStr "40000-55000") (VStr "USD"))
   <= rank (Tt._analyze_salary_range (VStr "40000-55000") (VStr "USD")
              (VStr "Remote")))%Z.
Proof. apply salary_remote_never_lower. vm_compute. reflexivity. Defined.

(** ** One review *)

Lemma foldM_Ok_iff {A S : Type} (f : S -> A -> outcome S) (P : A -> Prop) l s :
  (forall s x, (exists s', f s x = Ok s') <-> P x) ->
  (exists s', foldM f l s = Ok s') <-> Forall P l.
Proof.
  intros Hf. revert s. induction l as [|x l IH]; intros s; cbn [foldM].
  - split; [constructor | eexists; reflexivity].
  - rewrite Forall_cons, <- (Hf s x). split.
    + destruct (f s x) as [s1|]; cbn [bind]; [|intros [? [=]]].
      intros H. split; [eexists; reflexivity | apply (IH s1), H].
    + intros [[s1 ->] Hl]. cbn [bind]. apply IH, Hl.
Qed.

Lemma foldM_ext {A S : Type} (f g : S -> A -> outcome S) l s :
  (forall s x, x ∈ l -> f s x = g s x) -> foldM f l s = foldM g l s.
Proof.
  revert s. induction l as [|x l IH]; intros s H; cbn [foldM]; [reflexivity|].
  rewrite (H s x) by left. destruct (g s x) as [s1|]; cbn [bind]; [|reflexivity].
  apply IH. intros s2 y Hy. apply H. right. exact Hy.
Qed.

Lemma mapM_ext {A B : Type} (f g : A -> outcome B) l :
  (forall x, x ∈ l -> f x = g x) -> mapM f l = mapM g l.
Proof.
  induction l as [|x l IH]; intros H; cbn [mapM]; [reflexivity|].
  rewrite (H x) by left. rewrite IH; [reflexivity|].
  intros y Hy. apply H. right. exact Hy.
Qed.

Lemma as_str_Ok v : (exists s, as_str v = Ok s) <-> exists s, v = VStr s.
Proof.
  split; intros [s H].
  - destruct v; try discriminate. eexists. reflexivity.
  - subst. eexists. reflexivity.
Qed.

Lemma rev2_text_field_Ok compound review r field :
  (exists r', Rev2.text_field compound review r field = Ok r')
  <-> readable review field.
Proof.
  unfold Rev2.text_field, readable, Rev2._analyze_text.
  destruct (review !! field) as [v|]; [|split; [trivial | eexists; reflexivity]].
  destruct (truthy v); cbn [negb].
  - split.
    + intros [r' H] _. destruct v; cbn [as_str bind] in H; try discriminate H.
      eexists. reflexivity.
    + intros H. destruct (H eq_refl) as [s ->]. cbn [as_str bind].
      eexists. reflexivity.
  - split; [intros _ [=] | intros _; eexists; reflexivity].
Qed.

Lemma tt_text_field_Ok compound review r ff :
  (exists r', Tt.text_field compound review r ff = Ok r')
  <-> readable review (fst ff).
Proof.
  destruct ff as [field forced].
  unfold Tt.text_field, readable, Tt._analyze_text. cbn [fst].
  destruct (review !! field) as [v|]; [|split; [trivial | eexists; reflexivity]].
  destruct (truthy v); cbn [negb].
  - split.
    + intros [r' H] _. destruct v; cbn [as_str bind] in H; try discriminate H.
      eexists. reflexivity.
    + intros H. destruct (H eq_refl) as [s ->]. cbn [as_str bind].
      eexists. reflexivity.
  - split; [intros _ [=] | intros _; eexists; reflexivity].
Qed.

Lemma rev2_analyze_review_Ok_iff compound review :
  (exists a, Rev2.analyze_review compound review = Ok a)
  <-> Forall (readable review) ["headline"; "pros"; "cons"].
Proof.
  unfold Rev2.analyze_review.
  match goal with |- context [foldM ?f ?l ?r0] =>
    rewrite <- (foldM_Ok_iff f (readable review) l r0
                  (fun s x => rev2_text_field_Ok compound review s x));
    destruct (foldM f l r0) as [r|]; cbn [bind] end.
  - split; intros _; eexists; reflexivity.
  - split; intros [? [=]].
Qed.

Lemma tt_analyze_review_Ok_iff compound review :
  (exists a, Tt.analyze_review compound review = Ok a)
  <-> Forall (readable review) ["headline"; "pros"; "cons"].
Proof.
  unfold Tt.analyze_review.
  change ["headline"; "pros"; "cons"] with (map fst Tt.text_fields).
  rewrite Forall_map.
  match goal with |- context [foldM ?f ?l ?r0] =>
    rewrite <- (foldM_Ok_iff f (fun ff => readable review (fst ff)) l r0
                  (fun s x => tt_text_field_Ok compound review s x));
    destruct (foldM f l r0) as [r|]; cbn [bind] end.
  - split; intros _; eexists; reflexivity.
  - split; intros [? [=]].
Qed.

(** X10.  [analyze_review] returns exactly when each of [headline], [pros]
    and [cons] is absent, falsy, or a text -- in both analyzers alike, and
    whatever the other fields hold; otherwise it raises. *)
Theorem analyze_review_returns_iff (compound : string -> Q)
    (review : gmap string pyval) :
  ((exists a, Rev2.analyze_review compound review = Ok a)
   <-> Forall (readable review) ["headline"; "pros"; "cons"])
  /\ ((exists a, Tt.analyze_review compound review = Ok a)
      <-> Forall (readable review) ["headline"; "pros"; "cons"]).
Proof.
  split; [apply rev2_analyze_review_Ok_iff | apply tt_analyze_review_Ok_iff].
Qed.

(** The part of [analyze_review] that depends on the review, named. *)
Lemma rev2_analyze_review_congr compound review1 review2 :
  Rev2._analyze_numeric_ratings review1 = Rev2._analyze_numeric_ratings review2 ->
  match review1 !! "compensation_range", review1 !! "currency" with
  | Some salary_range, Some currency =>
      Some (Rev2._analyze_salary_range salary_range currency)
  | _, _ => None
  end
  = match review2 !! "compensation_range", review2 !! "currency" with
    | Some salary_range, Some currency =>
        Some (Rev2._analyze_salary_range salary_range currency)
    | _, _ => None
    end ->
  Forall (same_field review1 review2) ["headline"; "pros"; "cons"] ->
  Rev2.analyze_review compound review1 = Rev2.analyze_review compound review2.
Proof.
  intros Hr Hs Ht. unfold Rev2.analyze_review. rewrite Hr.
  match goal with
  | |- (_ <- foldM _ _ ?a ;; _) = (_ <- foldM _ _ ?b ;; _) =>
      assert (Hab : a = b)
  end.
  { destruct (review1 !! "compensation_range") as [s1|],
             (review2 !! "compensation_range") as [s2|];
      try destruct (review1 !! "currency") as [c1|];
      try destruct (review2 !! "currency") as [c2|];
      try discriminate; try reflexivity.
    injection Hs as ->. reflexivity. }
  rewrite Hab.
  rewrite (foldM_ext (Rev2.text_field compound review1)
                     (Rev2.text_field compound review2)); [reflexivity|].
  intros s x Hx. rewrite Forall_forall in Ht. specialize (Ht x Hx).
  unfold Rev2.text_field. rewrite Ht. reflexivity.
Qed.

Lemma tt_analyze_review_congr compound review1 review2 :
  Tt._analyze_numeric_ratings review1 = Tt._analyze_numeric_ratings review2 ->
  match review1 !! "compensation_range" with
  | Some salary_range =>
      Some (Tt._analyze_salary_range salary_range
              (default (VStr "USD") (review1 !! "currency"))
              (default VNone (review1 !! "location")))
  | None => None
  end
  = match review2 !! "compensation_range" with
    | Some salary_range =>
        Some (Tt._analyze_salary_range salary_range
                (default (VStr "USD") (review2 !! "currency"))
                (default VNone (review2 !! "location")))
    | None => None
    end ->
  Forall (same_field review1 review2) ["headline"; "pros"; "cons"] ->
  Tt.analyze_review compound review1 = Tt.analyze_review compound review2.
Proof.
  intros Hr Hs Ht. unfold Tt.analyze_review. rewrite Hr.
  match goal with
  | |- (_ <- foldM _ _ ?a ;; _) = (_ <- foldM _ _ ?b ;; _) =>
      assert (Hab : a = b)
  end.
  { destruct (review1 !! "compensation_range") as [s1|],
             (review2 !! "compensation_range") as [s2|];
      try discriminate; try reflexivity.
    injection Hs as ->. reflexivity. }
  rewrite Hab.
  rewrite (foldM_ext (Tt.text_field compound review1)
                     (Tt.text_field compound review2)); [reflexivity|].
  intros s [field forced] Hx.
  assert (Hf : same_field review1 review2 field).
  { rewrite Forall_forall in Ht. apply Ht.
    change ["headline"; "pros"; "cons"] with (map fst Tt.text_fields).
    apply list_elem_of_fmap. exists (field, forced). split; [reflexivity | exact Hx]. }
  unfold Tt.text_field. rewrite Hf. reflexivity.
Qed.

Lemma ratings_same_fields review1 review2 :
  Forall (same_field review1 review2) (map fst rating_fields) ->
  Rev2._analyze_numeric_ratings review1 = Rev2._analyze_numeric_ratings review2
  /\ Tt._analyze_numeric_ratings review1 = Tt._analyze_numeric_ratings review2.
Proof.
  unfold rating_fields. cbn [map fst]. intros H.
  repeat (apply Forall_cons in H as [? H]).
  unfold Rev2._analyze_numeric_ratings, Tt._analyze_numeric_ratings, rating_fields.
  cbn [fold_left]. unfold Rev2.rate_field, Tt.rate_field.
  repeat match goal with
         | E : same_field review1 review2 _ |- _ => rewrite E; clear E
         end.
  split; reflexivity.
Qed.

(** X11.  [analyze_review] reads a review through ten keys only (nine in
    rev2.py, which never looks at [location]): two reviews that agree on
    them get the same result, whatever else they hold -- an overall
    rating, a job title, a date. *)
Theorem analyze_review_frame (compound : string -> Q)
    (review1 review2 : gmap string pyval) :
  Forall (same_field review1 review2) rev2_fields ->
  Rev2.analyze_review compound review1 = Rev2.analyze_review compound review2
  /\ (same_field review1 review2 "location" ->
      Tt.analyze_review compound review1 = Tt.analyze_review compound review2).
Proof.
  unfold rev2_fields. intros H.
  assert (Hr : Forall (same_field review1 review2) (map fst rating_fields)).
  { unfold rating_fields. cbn [map fst].
    repeat (apply Forall_cons in H as [? H]). repeat constructor; assumption. }
  apply ratings_same_fields in Hr as [Hr Hr'].
  do 4 (apply Forall_cons in H as [_ H]).
  apply Forall_cons in H as [Hs H]. apply Forall_cons in H as [Hc H].
  split.
  - apply rev2_analyze_review_congr; [exact Hr | rewrite Hs, Hc; reflexivity | exact H].
  - intros Hl.
    apply tt_analyze_review_congr; [exact Hr' | rewrite Hs, Hc, Hl; reflexivity | exact H].
Qed.

Lemma analyze_review_frame_witness :
  Rev2.analyze_review no_score r_tagged = Rev2.analyze_review no_score r_long_hours.
Proof.
  apply (analyze_review_frame no_score r_tagged r_long_hours).
  unfold rev2_fields. repeat constructor.
Defined.

Lemma analyze_review_shape (m : outcome (buckets (list string))) a :
  (result <- m ;;
   Ok (Buckets (sorted_set (positive result)) (sorted_set (negative result))
               (sorted_set (neutral result)))) = Ok a ->
  exists r, m = Ok r /\ forall s, bucket s a = sorted_set (bucket s r).
Proof.
  destruct m as [r|]; cbn [bind]; [|discriminate].
  intros [= <-]. exists r. split; [reflexivity|]. intros []; reflexivity.
Qed.

(** X12.  Every list of a result of [analyze_review] is in ascending order
    of its theme names, and every theme in it is a key of the analyzer's
    theme catalog. *)
Theorem analyze_review_sorted_known (compound : string -> Q)
    (review : gmap string pyval) (a a' : buckets (list string)) :
  Rev2.analyze_review compound review = Ok a ->
  Tt.analyze_review compound review = Ok a' ->
  (forall s, Sorted (fun x y => String.leb x y = true) (bucket s a)
             /\ forall t, t ∈ bucket s a -> t ∈ keys Rev2.themes)
  /\ (forall s, Sorted (fun x y => String.leb x y = true) (bucket s a')
                /\ forall t, t ∈ bucket s a' -> t ∈ keys Tt.themes).
Proof.
  intros H H'.
  pose proof (rev2_analyze_review_Ok compound review a H) as [_ Hw].
  pose proof (tt_analyze_review_Ok compound review a' H') as [_ Hw'].
  apply analyze_review_shape in H as (r & _ & Hr).
  apply analyze_review_shape in H' as (r' & _ & Hr').
  split; intros s; (split; [|intros t; (apply Hw || apply Hw')]).
  - rewrite Hr. apply Sorted_sorted_set.
  - rewrite Hr'. apply Sorted_sorted_set.
Qed.

Lemma analyze_review_sorted_known_witness :
  (forall s, Sorted (fun x y => String.leb x y = true)
               (bucket s (Buckets ["work_life_balance"] ["work_life_balance"] []))
             /\ forall t, t ∈ bucket s (Buckets ["work_life_balance"]
                                                ["work_life_balance"] []) ->
                          t ∈ keys Rev2.themes)
  /\ (forall s, Sorted (fun x y => String.leb x y = true)
                  (bucket s (only Positive "work_life_balance"))
                /\ forall t, t ∈ bucket s (only Positive "work_life_balance") ->
                             t ∈ keys Tt.themes).
Proof.
  apply (analyze_review_sorted_known no_score r_long_hours); reflexivity.
Defined.

(** ** Keywords in the text fields *)

Lemma append_grows s t r s' x : x ∈ bucket s' r -> x ∈ bucket s' (append s t r).
Proof.
  rewrite bucket_append. destruct (decide (s' = s)); [|trivial].
  intros H. apply elem_of_app. left. exact H.
Qed.

Lemma append_adds s t r : t ∈ bucket s (append s t r).
Proof.
  rewrite bucket_append. destruct (decide (s = s)); [|contradiction].
  apply elem_of_app. right. left.
Qed.

Lemma fold_step_grows (g : buckets (list string) -> string -> buckets (list string))
    themes r s' x :
  (forall r t, exists s, g r t = append s t r) ->
  x ∈ bucket s' r -> x ∈ bucket s' (fold_left g themes r).
Proof.
  intros Hg. revert r. induction themes as [|t themes IH]; intros r H; [exact H|].
  cbn [fold_left]. apply IH. destruct (Hg r t) as [s ->]. apply append_grows, H.
Qed.

Lemma fold_step_adds (g : buckets (list string) -> string -> buckets (list string))
    c themes r t :
  (forall r t, g r t = append c t r) ->
  t ∈ themes -> t ∈ bucket c (fold_left g themes r).
Proof.
  intros Hg. revert r. induction themes as [|t' themes IH]; intros r H;
    [inversion H|].
  cbn [fold_left]. apply elem_of_cons in H as [<-|H].
  - apply fold_step_grows; [intros r0 t0; eexists; apply Hg|].
    rewrite Hg. apply append_adds.
  - apply IH, H.
Qed.

Lemma foldM_adds {A S : Type} (f : S -> A -> outcome S) (P : S -> Prop) l x s s' :
  x ∈ l ->
  (forall s y s', f s y = Ok s' -> P s -> P s') ->
  (forall s s', f s x = Ok s' -> P s') ->
  foldM f l s = Ok s' -> P s'.
Proof.
  intros Hx Hkeep Hadd. revert s. induction l as [|y l IH]; intros s;
    [inversion Hx|].
  cbn [foldM]. destruct (f s y) as [s1|] eqn:E; cbn [bind]; [|discriminate].
  apply elem_of_cons in Hx as [->|Hx].
  - intros H. eapply (foldM_invariant P); [|eapply Hadd, E|exact H].
    intros s2 z s3 HP Hf. eapply Hkeep; eassumption.
  - apply IH, Hx.
Qed.

Lemma contains_nonempty t k : k <> EmptyString -> contains t k = true -> t <> EmptyString.
Proof.
  intros Hk H ->. cbn in H. destruct k; [contradiction | discriminate].
Qed.

Lemma lower_nonempty t : lower t <> EmptyString -> t <> EmptyString.
Proof. intros H ->. apply H. reflexivity. Qed.

Lemma existsb_contains text keywords keyword :
  keyword ∈ keywords -> contains text keyword = true ->
  existsb (contains text) keywords = true.
Proof.
  intros Hin Hc. apply existsb_exists. exists keyword.
  split; [apply list_elem_of_In, Hin | exact Hc].
Qed.

Lemma rev2_keywords_nonempty theme keywords keyword :
  (theme, keywords) ∈ Rev2.themes -> keyword ∈ keywords -> keyword <> EmptyString.
Proof.
  assert (H : forallb (fun tk => forallb (fun k => negb (String.eqb k ""))
                                   (snd tk)) Rev2.themes = true)
    by (vm_compute; reflexivity).
  intros Ht Hk. rewrite forallb_forall in H.
  specialize (H _ (proj1 (list_elem_of_In _ _) Ht)). cbn [snd] in H.
  rewrite forallb_forall in H.
  specialize (H _ (proj1 (list_elem_of_In _ _) Hk)).
  intros ->. discriminate H.
Qed.

Lemma tt_keywords_nonempty theme keywords s keyword :
  (theme, keywords) ∈ Tt.themes -> keyword ∈ bucket s keywords ->
  keyword <> EmptyString.
Proof.
  assert (H : forallb (fun tk => forallb (fun s =>
                forallb (fun k => negb (String.eqb k "")) (bucket s (snd tk)))
                sentiments) Tt.themes = true)
    by (vm_compute; reflexivity).
  intros Ht Hk. rewrite forallb_forall in H.
  specialize (H _ (proj1 (list_elem_of_In _ _) Ht)). cbn [snd] in H.
  rewrite forallb_forall in H.
  assert (Hs : In s sentiments) by (destruct s; cbn; tauto).
  specialize (H _ Hs). rewrite forallb_forall in H.
  specialize (H _ (proj1 (list_elem_of_In _ _) Hk)).
  intros ->. discriminate H.
Qed.

Lemma rev2_text_field_grows compound review r field r' s x :
  Rev2.text_field compound review r field = Ok r' ->
  x ∈ bucket s r -> x ∈ bucket s r'.
Proof.
  unfold Rev2.text_field.
  destruct (review !! field) as [v|]; [|intros [= <-]; trivial].
  destruct (truthy v); [|intros [= <-]; trivial].
  destruct (Rev2._analyze_text compound v) as [ts|]; cbn [bind]; [|discriminate].
  intros [= <-]. apply fold_step_grows. intros r0 t.
  destruct (String.eqb field "pros"); [exists Positive; reflexivity|].
  destruct (String.eqb field "cons");
    [exists Negative; reflexivity | exists (snd ts); reflexivity].
Qed.

Lemma tt_text_field_grows compound review r ff r' s x :
  Tt.text_field compound review r ff = Ok r' ->
  x ∈ bucket s r -> x ∈ bucket s r'.
Proof.
  destruct ff as [field forced]. unfold Tt.text_field.
  destruct (review !! field) as [v|]; [|intros [= <-]; trivial].
  destruct (truthy v); [|intros [= <-]; trivial].
  destruct (Tt._analyze_text compound v) as [ts|]; cbn [bind]; [|discriminate].
  intros [= <-] H.
  assert (Hgrow : forall s0 r2,
    x ∈ bucket s r2 ->
    x ∈ bucket s (fold_left (fun r theme => match forced with
                                            | Some f => append f theme r
                                            | None => append s0 theme r
                                            end) (bucket s0 (fst ts)) r2)).
  { intros s0 r2. apply fold_step_grows.
    intros r3 t. destruct forced as [f|]; [exists f | exists s0]; reflexivity. }
  exact (Hgrow Neutral _ (Hgrow Negative _ (Hgrow Positive _ H))).
Qed.

(** X13.  In rev2.py a theme one of whose keywords occurs in the lowered
    text of [headline], [pros] or [cons] is listed by [analyze_review]:
    under positive for [pros], under negative for [cons], under the
    scorer's verdict for [headline].  The keyword need not be a word of
    the text: it matches inside a longer word too. *)
Theorem rev2_keyword_listed (compound : string -> Q) (review : gmap string pyval)
    (field text theme keyword : string) (keywords : list string)
    (a : buckets (list string)) :
  field ∈ ["headline"; "pros"; "cons"] ->
  review !! field = Some (VStr text) ->
  (theme, keywords) ∈ Rev2.themes ->
  keyword ∈ keywords ->
  contains (lower text) keyword = true ->
  Rev2.analyze_review compound review = Ok a ->
  theme ∈ bucket (if String.eqb field "pros" then Positive
                  else if String.eqb field "cons" then Negative
                  else overall_sentiment (compound text)) a.
Proof.
  intros Hf Hget Ht Hk Hc H.
  apply analyze_review_shape in H as (r & H & Hr).
  rewrite Hr, elem_of_sorted_set.
  match goal with |- _ ∈ bucket ?c r => set (verdict := c) end.
  revert H.
  apply (foldM_adds (Rev2.text_field compound review)
           (fun r => theme ∈ bucket verdict r) _ field); [exact Hf | |].
  - intros r0 y r1 Hy. apply rev2_text_field_grows with (1 := Hy).
  - intros r0 r1. unfold Rev2.text_field, Rev2._analyze_text.
    assert (Hne : text <> EmptyString).
    { apply lower_nonempty, (contains_nonempty _ keyword); [|exact Hc].
      eapply rev2_keywords_nonempty; eassumption. }
    apply truthy_text in Hne. rewrite Hget, Hne.
    cbn [negb as_str bind fst snd]. intros [= <-].
    assert (Hin : theme ∈ map fst
              (filter (fun tk => existsb (contains (lower text)) (snd tk))
                      Rev2.themes)).
    { apply list_elem_of_fmap. exists (theme, keywords). split; [reflexivity|].
      apply list_elem_of_filter. split; [|exact Ht].
      cbn [snd]. apply Is_true_true, (existsb_contains _ _ keyword); assumption. }
    subst verdict. destruct (String.eqb field "pros").
    { apply fold_step_adds; [reflexivity | exact Hin]. }
    destruct (String.eqb field "cons");
      (apply fold_step_adds; [reflexivity | exact Hin]).
Qed.

Lemma rev2_keyword_listed_witness :
  Rev2.analyze_review no_score r_maintain = Ok (Buckets [] ["innovation"] [])
  /\ "innovation" ∈ bucket Negative (Buckets [] ["innovation"] []).
Proof.
  split; [vm_compute; reflexivity|].
  apply (rev2_keyword_listed no_score r_maintain "cons" "Hard to maintain"
           "innovation" "ai"
           [ "innovation"; "technology"; "creative"; "innovative"; "cutting-edge";
             "modern"; "tools"; "tech"; "startup"; "agile"; "future"; "research";
             "development"; "experimentation"; "breakthrough"; "transformation";
             "digital"; "automation"; "ai"; "machine learning"; "cloud"; "stack" ]).
  - do 2 apply list_elem_of_further. apply list_elem_of_here.
  - reflexivity.
  - unfold Rev2.themes. do 5 apply list_elem_of_further. apply list_elem_of_here.
  - do 18 apply list_elem_of_further. apply list_elem_of_here.
  - vm_compute. reflexivity.
  - vm_compute. reflexivity.
Defined.

(** X14.  In tt.py a theme one of whose keywords -- of any of its three
    lists -- occurs in the lowered text of a field is listed by
    [analyze_review]: under positive for [pros] and under negative for
    [cons] whichever list the keyword is in, under the list's own polarity
    for [headline]. *)
Theorem tt_keyword_listed (compound : string -> Q) (review : gmap string pyval)
    (field text theme keyword : string) (forced : option sentiment)
    (s : sentiment) (keywords : buckets (list string))
    (a : buckets (list string)) :
  (field, forced) ∈ Tt.text_fields ->
  review !! field = Some (VStr text) ->
  (theme, keywords) ∈ Tt.themes ->
  keyword ∈ bucket s keywords ->
  contains (lower text) keyword = true ->
  Tt.analyze_review compound review = Ok a ->
  theme ∈ bucket (default s forced) a.
Proof.
  intros Hf Hget Ht Hk Hc H.
  apply analyze_review_shape in H as (r & H & Hr).
  rewrite Hr, elem_of_sorted_set.
  revert H.
  apply (foldM_adds (Tt.text_field compound review)
           (fun r => theme ∈ bucket (default s forced) r) _ (field, forced));
    [exact Hf | |].
  - intros r0 y r1 Hy. apply tt_text_field_grows with (1 := Hy).
  - intros r0 r1. unfold Tt.text_field, Tt._analyze_text.
    assert (Hne : text <> EmptyString).
    { apply lower_nonempty, (contains_nonempty _ keyword); [|exact Hc].
      eapply tt_keywords_nonempty; eassumption. }
    apply truthy_text in Hne. rewrite Hget, Hne.
    cbn [negb as_str bind fst snd]. intros [= <-].
    assert (Hin : theme ∈ Tt.matched (lower text) s).
    { unfold Tt.matched.
      apply list_elem_of_fmap. exists (theme, keywords). split; [reflexivity|].
      apply list_elem_of_filter. split; [|exact Ht].
      cbn [snd]. apply Is_true_true, (existsb_contains _ _ keyword); assumption. }
    set (found := Buckets (Tt.matched (lower text) Positive)
                          (Tt.matched (lower text) Negative)
                          (Tt.matched (lower text) Neutral)).
    pose (F := fun s0 r2 =>
      fold_left (fun r theme => match forced with
                                | Some f => append f theme r
                                | None => append s0 theme r
                                end) (bucket s0 found) r2).
    assert (Hgrow : forall s0 r2 x,
      x ∈ bucket (default s forced) r2 -> x ∈ bucket (default s forced) (F s0 r2)).
    { intros s0 r2 x. apply fold_step_grows.
      intros r3 t. destruct forced as [f|]; [exists f | exists s0]; reflexivity. }
    assert (Hadd : forall r2, theme ∈ bucket (default s forced) (F s r2)).
    { intros r2. apply fold_step_adds.
      - intros r3 t. destruct forced; reflexivity.
      - destruct s; exact Hin. }
    change (theme ∈ bucket (default s forced)
                      (F Neutral (F Negative (F Positive r0)))).
    destruct s.
    + apply Hgrow, Hgrow, Hadd.
    + apply Hgrow, Hadd.
    + apply Hadd.
Qed.

Lemma tt_keyword_listed_witness :
  Tt.analyze_review no_score r_pros_only = Ok (only Positive "work_life_balance")
  /\ "work_life_balance" ∈ bucket (default Positive (Some Positive))
                             (only Positive "work_life_balance").
Proof.
  split; [vm_compute; reflexivity|].
  apply (tt_keyword_listed no_score r_pros_only "pros" "Flexible hours"
           "work_life_balance" "flexible" (Some Positive) Positive
           (Buckets
              [ "flexible"; "balanced"; "accommodating"; "reasonable"; "great" ]
              [ "demanding"; "stressful"; "burnout"; "overwhelming"; "poor" ]
              [ "structured"; "predictable"; "regular"; "standard" ])).
  - unfold Tt.text_fields. apply list_elem_of_further, list_elem_of_here.
  - reflexivity.
  - unfold Tt.themes. do 3 apply list_elem_of_further. apply list_elem_of_here.
  - apply list_elem_of_here.
  - vm_compute. reflexivity.
  - vm_compute. reflexivity.
Defined.

(** ** The sentiment scorer *)

Lemma tt_text_field_scorer compound1 compound2 review r ff :
  Tt.text_field compound1 review r ff = Tt.text_field compound2 review r ff.
Proof.
  destruct ff as [field forced]. unfold Tt.text_field, Tt._analyze_text.
  destruct (review !! field) as [v|]; [|reflexivity].
  destruct (truthy v); [|reflexivity]. cbn [negb].
  destruct (as_str v); reflexivity.
Qed.

Lemma tt_analyze_review_scorer compound1 compound2 review :
  Tt.analyze_review compound1 review = Tt.analyze_review compound2 review.
Proof.
  unfold Tt.analyze_review.
  rewrite (foldM_ext (Tt.text_field compound1 review)
                     (Tt.text_field compound2 review)); [reflexivity|].
  intros s x _. apply tt_text_field_scorer.
Qed.

(** X15.  Nothing that tt.py returns depends on the sentiment scorer: the
    overall sentiment that [_analyze_text] computes is never used, so two
    scorers give the same [analyze_review] and the same
    [generate_summary]. *)
Theorem tt_scorer_unused (compound1 compound2 : string -> Q)
    (slot : list string -> string -> N) (review : gmap string pyval)
    (reviews : list (gmap string pyval)) :
  Tt.analyze_review compound1 review = Tt.analyze_review compound2 review
  /\ Tt.generate_summary compound1 slot reviews
     = Tt.generate_summary compound2 slot reviews.
Proof.
  split; [apply tt_analyze_review_scorer|].
  rewrite (tt_generate_summary compound1), (tt_generate_summary compound2).
  rewrite (mapM_ext (Tt.analyze_review compound1) (Tt.analyze_review compound2));
    [reflexivity|].
  intros x _. apply tt_analyze_review_scorer.
Qed.

(** X16.  In rev2.py the scorer counts for the headline only: two scorers
    whose verdicts agree on the headline of a review (if it has one that
    is a text) give the same [analyze_review]. *)
Theorem rev2_scorer_headline_only (compound1 compound2 : string -> Q)
    (review : gmap string pyval) :
  (forall text, review !! "headline" = Some (VStr text) ->
     overall_sentiment (compound1 text) = overall_sentiment (compound2 text)) ->
  Rev2.analyze_review compound1 review = Rev2.analyze_review compound2 review.
Proof.
  intros H. unfold Rev2.analyze_review.
  rewrite (foldM_ext (Rev2.text_field compound1 review)
                     (Rev2.text_field compound2 review)); [reflexivity|].
  intros r field Hf. unfold Rev2.text_field, Rev2._analyze_text.
  destruct (review !! field) as [v|] eqn:Hget; [|reflexivity].
  destruct (truthy v); [|reflexivity]. cbn [negb].
  destruct v; try reflexivity. cbn [as_str bind fst snd].
  repeat (apply elem_of_cons in Hf as [->|Hf]); [| | |inversion Hf].
  - rewrite (H _ Hget). reflexivity.
  - reflexivity.
  - reflexivity.
Qed.

Lemma rev2_scorer_headline_only_witness :
  Rev2.analyze_review no_score r_long_hours
  = Rev2.analyze_review (fun _ => 1%Q) r_long_hours.
Proof.
  apply rev2_scorer_headline_only. intros text H. discriminate H.
Defined.

(** ** The salary fields of a review *)

Lemma ratings_same_insert_delete review k v :
  k ∉ map fst rating_fields ->
  (Rev2._analyze_numeric_ratings (<[k := v]> review)
   = Rev2._analyze_numeric_ratings review
   /\ Tt._analyze_numeric_ratings (<[k := v]> review)
      = Tt._analyze_numeric_ratings review)
  /\ (Rev2._analyze_numeric_ratings (delete k review)
      = Rev2._analyze_numeric_ratings review
      /\ Tt._analyze_numeric_ratings (delete k review)
         = Tt._analyze_numeric_ratings review).
Proof.
  intros Hk. split; apply ratings_same_fields; apply Forall_forall; intros f Hf;
    unfold same_field;
    [apply lookup_insert_ne | apply lookup_delete_ne]; intros ->; contradiction.
Qed.

(** X17.  A review without a [currency] key: rev2.py does not judge its
    salary range at all, as if the range were absent too; tt.py judges it
    as a range in "USD". *)
Theorem currency_missing (compound : string -> Q) (review : gmap string pyval) :
  review !! "currency" = None ->
  Rev2.analyze_review compound review
  = Rev2.analyze_review compound (delete "compensation_range" review)
  /\ Tt.analyze_review compound review
     = Tt.analyze_review compound (<["currency" := VStr "USD"]> review).
Proof.
  intros Hc.
  assert (Hk1 : "compensation_range" ∉ map fst rating_fields)
    by (apply (bool_decide_unpack _); vm_compute; exact I).
  assert (Hk2 : "currency" ∉ map fst rating_fields)
    by (apply (bool_decide_unpack _); vm_compute; exact I).
  split.
  - apply rev2_analyze_review_congr.
    + symmetry. apply (ratings_same_insert_delete review _ VNone Hk1).
    + rewrite lookup_delete_eq, Hc.
      destruct (review !! "compensation_range"); reflexivity.
    + repeat constructor; unfold same_field; symmetry;
        apply lookup_delete_ne; discriminate.
  - apply tt_analyze_review_congr.
    + symmetry. apply (ratings_same_insert_delete review _ _ Hk2).
    + rewrite lookup_insert_eq, Hc.
      rewrite !lookup_insert_ne by discriminate. reflexivity.
    + repeat constructor; unfold same_field; symmetry;
        apply lookup_insert_ne; discriminate.
Qed.

Lemma currency_missing_witness :
  Rev2.analyze_review no_score r_range_only
  = Rev2.analyze_review no_score (delete "compensation_range" r_range_only)
  /\ Tt.analyze_review no_score r_range_only
     = Tt.analyze_review no_score (<["currency" := VStr "USD"]> r_range_only).
Proof. apply currency_missing. reflexivity. Defined.

Lemma fold_append_grows (l : list (string * sentiment)) r s x :
  x ∈ bucket s r ->
  x ∈ bucket s (fold_left (fun r ts => append (snd ts) (fst ts) r) l r).
Proof.
  revert r. induction l as [|ts l IH]; intros r H; [exact H|].
  cbn [fold_left]. apply IH, append_grows, H.
Qed.

(** X18.  A review with a [compensation_range] key (and, in rev2.py, a
    [currency] key) always has "compensation" in its result, under the
    verdict of [_analyze_salary_range] -- which is neutral for a range
    that is empty, [None] or unreadable. *)
Theorem compensation_listed (compound : string -> Q) (review : gmap string pyval)
    (salary_range : pyval) (a a' : buckets (list string)) :
  review !! "compensation_range" = Some salary_range ->
  Rev2.analyze_review compound review = Ok a ->
  Tt.analyze_review compound review = Ok a' ->
  (forall currency, review !! "currency" = Some currency ->
     "compensation" ∈ bucket (Rev2._analyze_salary_range salary_range currency) a)
  /\ "compensation"
       ∈ bucket (Tt._analyze_salary_range salary_range
                   (default (VStr "USD") (review !! "currency"))
                   (default VNone (review !! "location"))) a'.
Proof.
  intros Hs H H'.
  apply analyze_review_shape in H as (r & H & Hr).
  apply analyze_review_shape in H' as (r' & H' & Hr').
  split.
  - intros currency Hc. rewrite Hr, elem_of_sorted_set.
    rewrite Hs, Hc in H.
    eapply (foldM_invariant
              (fun r => "compensation"
                 ∈ bucket (Rev2._analyze_salary_range salary_range currency) r));
      [|apply append_adds|exact H].
    intros r0 f r1 H0 Hf. eapply rev2_text_field_grows; eassumption.
  - rewrite Hr', elem_of_sorted_set. rewrite Hs in H'.
    eapply (foldM_invariant
              (fun r => "compensation"
                 ∈ bucket (Tt._analyze_salary_range salary_range
                             (default (VStr "USD") (review !! "currency"))
                             (default VNone (review !! "location"))) r));
      [|apply append_adds|exact H'].
    intros r0 f r1 H0 Hf. eapply tt_text_field_grows; eassumption.
Qed.

Lemma compensation_listed_witness :
  "compensation" ∈ bucket (Tt._analyze_salary_range (VStr "150000-200000")
                             (VStr "USD") VNone)
                     (only Positive "compensation").
Proof.
  apply (compensation_listed no_score r_range_only (VStr "150000-200000") nothing
           (only Positive "compensation")); reflexivity.
Defined.

(** ** A corpus of reviews *)

Lemma mapM_Ok_iff {A B : Type} (f : A -> outcome B) (P : A -> Prop) l :
  (forall x, (exists y, f x = Ok y) <-> P x) ->
  (exists ys, mapM f l = Ok ys) <-> Forall P l.
Proof.
  intros Hf. split.
  - intros [ys H]. apply mapM_Ok_Forall2 in H.
    induction H as [|x y l ys Hx _ IH]; constructor; [|exact IH].
    apply Hf. exists y. exact Hx.
  - intros H. apply mapM_Ok_all. eapply Forall_impl; [exact H|].
    intros x Hx. apply Hf, Hx.
Qed.

Lemma bind_Ok {A B : Type} (m : outcome A) (k : A -> outcome B) b :
  (x <- m ;; k x) = Ok b -> exists a, m = Ok a /\ k a = Ok b.
Proof.
  destruct m as [a|]; cbn [bind]; [|discriminate]. intros H. exists a. auto.
Qed.

Lemma rev2_generate_summary_Ok_iff compound slot reviews :
  (exists summary, Rev2.generate_summary compound slot reviews = Ok summary)
  <-> exists analyses, mapM (Rev2.analyze_review compound) reviews = Ok analyses.
Proof.
  split.
  - intros [summary H]. rewrite rev2_generate_summary in H.
    apply bind_Ok in H as (analyses & H & _). exists analyses. exact H.
  - intros [analyses H].
    destruct (summarize_Ok _ rev2_rule Rev2.theme_texts (keys Rev2.themes)
                (rev2_analyze_review_Ok compound) rev2_rule_nonneg rev2_descriptions
                slot _ _ H) as (summary & Hs & _).
    exists summary. rewrite rev2_generate_summary. exact Hs.
Qed.

Lemma tt_generate_summary_Ok_iff compound slot reviews :
  (exists summary, Tt.generate_summary compound slot reviews = Ok summary)
  <-> exists analyses, mapM (Tt.analyze_review compound) reviews = Ok analyses.
Proof.
  split.
  - intros [summary H]. rewrite tt_generate_summary in H.
    apply bind_Ok in H as (analyses & H & _). exists analyses. exact H.
  - intros [analyses H].
    destruct (summarize_Ok _ tt_rule Tt.theme_texts (keys Tt.themes)
                (tt_analyze_review_Ok compound) tt_rule_nonneg tt_descriptions
                slot _ _ H) as (summary & Hs & _).
    exists summary. rewrite tt_generate_summary. exact Hs.
Qed.

(** X19.  [generate_summary] returns exactly when every review of the
    corpus can be analysed, that is when in each of them [headline],
    [pros] and [cons] are absent, falsy or texts -- in both analyzers
    alike; otherwise it raises.  So re-reading the percentages from the
    rendered lines in order to sort them never fails, and one unreadable
    review spoils the whole summary. *)
Theorem generate_summary_returns_iff (compound : string -> Q)
    (slot : list string -> string -> N) (reviews : list (gmap string pyval)) :
  ((exists summary, Rev2.generate_summary compound slot reviews = Ok summary)
   <-> Forall (fun review => Forall (readable review) ["headline"; "pros"; "cons"])
              reviews)
  /\ ((exists summary, Tt.generate_summary compound slot reviews = Ok summary)
      <-> Forall (fun review => Forall (readable review) ["headline"; "pros"; "cons"])
                 reviews).
Proof.
  split.
  - rewrite rev2_generate_summary_Ok_iff. apply mapM_Ok_iff.
    intros review. apply rev2_analyze_review_Ok_iff.
  - rewrite tt_generate_summary_Ok_iff. apply mapM_Ok_iff.
    intros review. apply tt_analyze_review_Ok_iff.
Qed.

Lemma lines_partition theme_texts chosen :
  (length (lines theme_texts Positive chosen)
   + length (lines theme_texts Negative chosen)
   + length (lines theme_texts Neutral chosen))%nat = length chosen.
Proof.
  unfold lines. rewrite !length_map.
  induction chosen as [|[t [s p]] chosen IH]; [reflexivity|].
  rewrite !filter_cons. cbn [fst snd].
  destruct s;
    repeat match goal with
           | |- context [decide (?a = ?b)] => destruct (decide (a = b)); try congruence
           end; cbn [length]; lia.
Qed.

Lemma length_chosen_of rule all_themes n themes :
  (length (chosen_of rule all_themes n themes) <= length themes)%nat.
Proof.
  unfold chosen_of. induction themes as [|t themes IH]; [reflexivity|].
  cbn [omap list_omap]. destruct (entry_of rule all_themes n t); cbn [fmap option_fmap option_map length]; lia.
Qed.

Lemma keys_chosen_of rule all_themes n themes t :
  t ∈ keys (chosen_of rule all_themes n themes) -> t ∈ themes.
Proof.
  unfold chosen_of, keys. induction themes as [|t' themes IH]; cbn [omap list_omap].
  - intros H. inversion H.
  - destruct (entry_of rule all_themes n t') as [v|]; cbn [fmap option_fmap option_map map fst].
    + intros H. apply elem_of_cons in H as [->|H]; [left | right; apply IH, H].
    + intros H. right. apply IH, H.
Qed.

Lemma NoDup_keys_chosen_of rule all_themes n themes :
  NoDup themes -> NoDup (keys (chosen_of rule all_themes n themes)).
Proof.
  induction 1 as [|t themes Ht _ IH]; [constructor|].
  unfold chosen_of. cbn [omap list_omap].
  destruct (entry_of rule all_themes n t) as [v|];
    cbn [fmap option_fmap option_map]; [|exact IH].
  cbn [keys map fst]. constructor; [|exact IH].
  intros Hin. apply Ht. eapply keys_chosen_of, Hin.
Qed.

Section Chosen.

Variable rule : Q -> Q -> Q -> option (sentiment * Q).
Variable theme_texts : list (string * string).
Variable U : list string.
Variable analyses : list (buckets (list string)).
Hypothesis analyses_clean : Forall clean analyses.
Hypothesis analyses_within : Forall (within U) analyses.
Variable slot : list string -> string -> N.

Lemma chosen_facts :
  let chosen := chosen_of rule (tally_of analyses) (length analyses)
                  (unique_themes slot (tally_of analyses)) in
  NoDup (keys chosen)
  /\ (forall t, t ∈ keys chosen -> t ∈ U)
  /\ (NoDup U -> length chosen <= length U)%nat.
Proof.
  intros chosen. split; [|split].
  - apply NoDup_keys_chosen_of, NoDup_set_iter.
  - intros t Ht. apply keys_chosen_of in Ht.
    apply (elem_of_unique_themes analyses analyses_clean) in Ht as [s Hs].
    eapply occurrences_within; eassumption.
  - intros HU. etransitivity; [apply length_chosen_of|].
    apply submseteq_length, NoDup_submseteq; [apply NoDup_set_iter|].
    intros t Ht.
    apply (elem_of_unique_themes analyses analyses_clean) in Ht as [s Hs].
    eapply occurrences_within; eassumption.
Qed.

End Chosen.

Lemma summary_size_chosen theme_texts chosen summary :
  (forall s, bucket s summary ≡ₚ lines theme_texts s chosen) ->
  size summary = length chosen.
Proof.
  intros H. unfold size.
  rewrite <- (lines_partition theme_texts chosen).
  rewrite <- (Permutation_length (H Positive)), <- (Permutation_length (H Negative)),
          <- (Permutation_length (H Neutral)).
  reflexivity.
Qed.

Lemma rev2_catalog : NoDup (keys Rev2.themes) /\ length (keys Rev2.themes) = 12%nat.
Proof.
  split; [apply (bool_decide_unpack _); vm_compute; exact I | reflexivity].
Qed.

Lemma tt_catalog : NoDup (keys Tt.themes) /\ length (keys Tt.themes) = 6%nat.
Proof.
  split; [apply (bool_decide_unpack _); vm_compute; exact I | reflexivity].
Qed.

(** X20.  A summary has one line for each theme that [generate_summary]
    chose, no theme is chosen twice, and every chosen theme is a key of
    the catalog: so a theme shows under one polarity only, and a summary
    has at most 12 lines in rev2.py and at most 6 in tt.py. *)
Theorem one_line_per_theme (compound : string -> Q)
    (slot : list string -> string -> N) (reviews : list (gmap string pyval))
    (summary summary' : buckets (list string)) :
  Rev2.generate_summary compound slot reviews = Ok summary ->
  Tt.generate_summary compound slot reviews = Ok summary' ->
  (exists chosen,
     Rev2.theme_sentiments compound slot reviews = Ok chosen
     /\ NoDup (keys chosen)
     /\ (forall t, t ∈ keys chosen -> t ∈ keys Rev2.themes)
     /\ size summary = length chosen
     /\ (size summary <= 12)%nat)
  /\ (exists chosen,
        Tt.theme_sentiments compound slot reviews = Ok chosen
        /\ NoDup (keys chosen)
        /\ (forall t, t ∈ keys chosen -> t ∈ keys Tt.themes)
        /\ size summary' = length chosen
        /\ (size summary' <= 6)%nat).
Proof.
  intros H H'. split.
  - rewrite rev2_generate_summary in H.
    destruct (mapM (Rev2.analyze_review compound) reviews) as [analyses|] eqn:E;
      cbn [bind] in H; [|discriminate].
    destruct (analyses_good _ _ (rev2_analyze_review_Ok compound) _ _ E) as [Hc Hw].
    destruct (summary_of_analyses rev2_rule Rev2.theme_texts (keys Rev2.themes)
                rev2_rule_nonneg rev2_descriptions analyses Hc Hw slot)
      as (summary0 & Hs & Hlines).
    rewrite Hs in H. injection H as ->.
    destruct (chosen_facts rev2_rule (keys Rev2.themes) analyses Hc Hw slot)
      as (Hnd & Hin & Hlen).
    destruct rev2_catalog as [HU HL]. specialize (Hlen HU). rewrite HL in Hlen.
    eexists. split; [apply rev2_theme_sentiments, E|].
    assert (Hsize := summary_size_chosen Rev2.theme_texts _ summary
                       (fun s => proj1 (Hlines s))).
    repeat split; try assumption. rewrite Hsize. exact Hlen.
  - rewrite tt_generate_summary in H'.
    destruct (mapM (Tt.analyze_review compound) reviews) as [analyses|] eqn:E;
      cbn [bind] in H'; [|discriminate].
    destruct (analyses_good _ _ (tt_analyze_review_Ok compound) _ _ E) as [Hc Hw].
    destruct (summary_of_analyses tt_rule Tt.theme_texts (keys Tt.themes)
                tt_rule_nonneg tt_descriptions analyses Hc Hw slot)
      as (summary0 & Hs & Hlines).
    rewrite Hs in H'. injection H' as ->.
    destruct (chosen_facts tt_rule (keys Tt.themes) analyses Hc Hw slot)
      as (Hnd & Hin & Hlen).
    destruct tt_catalog as [HU HL]. specialize (Hlen HU). rewrite HL in Hlen.
    eexists. split; [apply tt_theme_sentiments, E|].
    assert (Hsize := summary_size_chosen Tt.theme_texts _ summary'
                       (fun s => proj1 (Hlines s))).
    repeat split; try assumption. rewrite Hsize. exact Hlen.
Qed.

Lemma one_line_per_theme_witness :
  Rev2.generate_summary no_score first_index [r_cg; r_cg_low]
  = Ok (Buckets ["Excellent career growth and learning opportunities (50.0% of reviews)"]
                [] [])
  /\ (size (Buckets ["Excellent career growth and learning opportunities (50.0% of reviews)"]
                    [] []) <= 12)%nat.
Proof.
  split; [vm_compute; reflexivity|].
  destruct (one_line_per_theme no_score first_index [r_cg; r_cg_low]
              (Buckets ["Excellent career growth and learning opportunities (50.0% of reviews)"]
                       [] [])
              (Buckets [] [] ["Career development opportunities (50.0% of reviews)"]))
    as [(chosen & _ & _ & _ & _ & H) _].
  - vm_compute. reflexivity.
  - vm_compute. reflexivity.
  - exact H.
Defined.

(** ** Percentages and verdicts *)

Lemma share_le_100 k n : (k <= n)%nat -> (share k n <= 100)%Q.
Proof.
  intros H. destruct n as [|n].
  - rewrite share_0_r. unfold Qle. simpl. lia.
  - unfold share.
    change (Z.of_nat (S n)) with (Z.pos (Pos.of_succ_nat n)).
    unfold Qle, Qdiv, Qmult, Qinv, inject_Z. cbn [Qnum Qden].
    rewrite ?Z.mul_1_r, ?Pos.mul_1_l, ?Pos.mul_1_r. lia.
Qed.



Lemma tt_rule_positive p g u pct :
  tt_rule p g u = Some (Positive, pct)
  <-> pct = p /\ (30 <= p)%Q /\ (15 <= p - g)%Q.
Proof.
  unfold tt_rule, Tt.dominant, max2, min2. split.
  - q_cases; simpl; intros [= <-]; repeat split; try lra;
      try match goal with
          | H : context [Qabs ?x] |- _ => revert H; apply Qabs_case; intros; lra
          end.
  - intros (-> & H1 & H2).
    q_cases; cbn [orb snd] in *; try reflexivity; try (exfalso; lra);
      match goal with
      | H : context [Qabs ?x] |- _ =>
          exfalso; revert H; apply Qabs_case; intros; lra
      end.
Qed.

Lemma tt_rule_negative p g u pct :
  tt_rule p g u = Some (Negative, pct)
  <-> pct = g /\ (30 <= g)%Q /\ (15 <= g - p)%Q.
Proof.
  unfold tt_rule, Tt.dominant, max2, min2. split.
  - q_cases; simpl; intros [= <-]; repeat split; try lra;
      try match goal with
          | H : context [Qabs ?x] |- _ => revert H; apply Qabs_case; intros; lra
          end.
  - intros (-> & H1 & H2).
    q_cases; cbn [orb snd] in *; try reflexivity; try (exfalso; lra);
      match goal with
      | H : context [Qabs ?x] |- _ =>
          exfalso; revert H; apply Qabs_case; intros; lra
      end.
Qed.

Lemma tt_rule_neutral p g u pct :
  tt_rule p g u = Some (Neutral, pct)
  <-> pct = (u + min2 p g)%Q /\ (15 <= pct)%Q
      /\ ((max2 p g < 30)%Q \/ (Qabs (p - g) < 15)%Q).
Proof.
  unfold tt_rule, Tt.dominant.
  destruct (Qlt_bool_spec (max2 p g) 30) as [H1|H1];
    destruct (Qlt_bool_spec (Qabs (p - g)) 15) as [H2|H2]; cbn [orb snd].
  4: { split.
       - destruct (Qlt_bool g p); destruct (Qle_bool 15 _); discriminate.
       - intros (_ & _ & [H|H]); contradiction. }
  all: destruct (Qle_bool_spec 15 (u + min2 p g)) as [H3|H3]; split;
    [intros [= <-]; auto | intros (-> & _ & _); reflexivity
    | discriminate | intros (-> & H & _); contradiction ].
Qed.

Section Chosen_entries.

Variable rule : Q -> Q -> Q -> option (sentiment * Q).
Context {R : Type}.
Variable analyze : R -> outcome (buckets (list string)).
Variable U : list string.
Hypothesis analyze_Ok : forall r a, analyze r = Ok a -> clean a /\ within U a.
Variable reviews : list R.
Variable analyses : list (buckets (list string)).
Hypothesis analysed : mapM analyze reviews = Ok analyses.
Variable slot : list string -> string -> N.

Lemma chosen_entry theme v :
  (theme, v) ∈ chosen_of rule (tally_of analyses) (length analyses)
                 (unique_themes slot (tally_of analyses))
  <-> (exists s, (0 < occurrences s theme analyses)%nat)
      /\ rule (share (occurrences Positive theme analyses) (length reviews))
              (share (occurrences Negative theme analyses) (length reviews))
              (share (occurrences Neutral theme analyses) (length reviews))
         = Some v.
Proof.
  destruct (analyses_good _ _ analyze_Ok _ _ analysed) as [Hc _].
  rewrite (elem_of_chosen_of rule analyses Hc), (mapM_length _ _ _ analysed).
  reflexivity.
Qed.

Lemma occurrences_le_reviews s theme :
  (occurrences s theme analyses <= length reviews)%nat.
Proof.
  rewrite <- (mapM_length _ _ _ analysed). apply occurrences_le.
Qed.

End Chosen_entries.





(** X23.  In tt.py the percentage printed for a chosen theme is at least
    15 and at most 200: between 30 and 100 for a positive or negative
    theme, while a neutral theme adds the smaller of its positive and
    negative shares to its neutral share and can exceed 100. *)
Theorem tt_percentage_range (compound : string -> Q)
    (slot : list string -> string -> N) (reviews : list (gmap string pyval))
    (chosen : list (string * (sentiment * Q)))
    (theme : string) (s : sentiment) (pct : Q) :
  Tt.theme_sentiments compound slot reviews = Ok chosen ->
  (theme, (s, pct)) ∈ chosen ->
  (15 <= pct)%Q /\ (pct <= 200)%Q
  /\ (s <> Neutral -> (30 <= pct)%Q /\ (pct <= 100)%Q).
Proof.
  intros Hc Hin. unfold Tt.theme_sentiments, Tt.tally in Hc.
  rewrite foldM_tally in Hc.
  destruct (mapM (Tt.analyze_review compound) reviews) as [analyses|] eqn:E;
    cbn [bind] in Hc; [|discriminate].
  fold (tally_of analyses) in Hc.
  change (Tt.all_unique_themes slot (tally_of analyses))
    with (unique_themes slot (tally_of analyses)) in Hc.
  rewrite <- (mapM_length _ _ _ E) in Hc.
  rewrite (choose_themes _ tt_rule tt_decide_theme) in Hc. injection Hc as <-.
  apply (chosen_entry tt_rule _ _ (tt_analyze_review_Ok compound) _ _ E)
    in Hin as [_ Hrule].
  pose proof (fun s => share_le_100 _ _ (occurrences_le_reviews _ _ _ E s theme)) as H100.
  pose proof (H100 Positive) as Hp. pose proof (H100 Negative) as Hg.
  pose proof (H100 Neutral) as Hu.
  destruct s.
  - apply tt_rule_positive in Hrule as (-> & H30 & _).
    repeat split; try lra.
  - apply tt_rule_negative in Hrule as (-> & H30 & _).
    repeat split; try lra.
  - apply tt_rule_neutral in Hrule as (-> & H15 & _).
    split; [exact H15|]. split; [|intros H; contradiction].
    unfold min2. destruct (Qlt_bool _ _); lra.
Qed.

Lemma tt_percentage_range_witness :
  Tt.generate_summary no_score first_index [r_all_three]
  = Ok (Buckets [] [] ["Innovation and technological advancement (200.0% of reviews)"])
  /\ (15 <= 200)%Q /\ (200 <= 200)%Q.
Proof.
  split; [vm_compute; reflexivity|].
  destruct (tt_percentage_range no_score first_index [r_all_three]
              [("innovation", (Neutral, 200%Q))] "innovation" Neutral 200%Q)
    as (H1 & H2 & _).
  - vm_compute. reflexivity.
  - apply list_elem_of_here.
  - split; assumption.
Defined.

(** ** Ratings in the result of a review *)

Lemma dict_get_Some {V : Type} k (v : V) d : dict_get k d = Some v -> (k, v) ∈ d.
Proof.
  induction d as [|[k' v'] d IH]; cbn [dict_get]; [discriminate|].
  destruct (String.eqb_spec k k') as [->|_].
  - intros [= ->]. left.
  - intros H. right. apply IH, H.
Qed.

Lemma fold_append_adds (l : list (string * sentiment)) r t s :
  (t, s) ∈ l ->
  t ∈ bucket s (fold_left (fun r ts => append (snd ts) (fst ts) r) l r).
Proof.
  revert r. induction l as [|ts l IH]; intros r H; [inversion H|].
  cbn [fold_left]. apply elem_of_cons in H as [<-|H].
  - apply fold_append_grows. cbn [fst snd]. apply append_adds.
  - apply IH, H.
Qed.

Lemma rev2_rated_listed compound review theme s a :
  Rev2.analyze_review compound review = Ok a ->
  dict_get theme (Rev2._analyze_numeric_ratings review) = Some s ->
  theme ∈ bucket s a.
Proof.
  intros H Hd. apply analyze_review_shape in H as (r & H & Hr).
  rewrite Hr, elem_of_sorted_set.
  eapply (foldM_invariant (fun r => theme ∈ bucket s r)); [| |exact H].
  - intros r0 f r1 H0 Hf. eapply rev2_text_field_grows; eassumption.
  - assert (H0 : theme ∈ bucket s
        (fold_left (fun r ts => append (snd ts) (fst ts) r)
           (Rev2._analyze_numeric_ratings review) (Buckets [] [] [])))
      by (apply fold_append_adds, dict_get_Some, Hd).
    destruct (review !! "compensation_range"); [|exact H0].
    destruct (review !! "currency"); [|exact H0].
    apply append_grows, H0.
Qed.

Lemma tt_rated_listed compound review theme s a :
  Tt.analyze_review compound review = Ok a ->
  dict_get theme (Tt._analyze_numeric_ratings review) = Some s ->
  theme ∈ bucket s a.
Proof.
  intros H Hd. apply analyze_review_shape in H as (r & H & Hr).
  rewrite Hr, elem_of_sorted_set.
  eapply (foldM_invariant (fun r => theme ∈ bucket s r)); [| |exact H].
  - intros r0 f r1 H0 Hf. eapply tt_text_field_grows; eassumption.
  - assert (H0 : theme ∈ bucket s
        (fold_left (fun r ts => append (snd ts) (fst ts) r)
           (Tt._analyze_numeric_ratings review) (Buckets [] [] [])))
      by (apply fold_append_adds, dict_get_Some, Hd).
    destruct (review !! "compensation_range"); [|exact H0].
    apply append_grows, H0.
Qed.

(** X24.  Every theme that [_analyze_numeric_ratings] gives a verdict is
    listed by [analyze_review] under that verdict, whatever the texts of
    the review say about it. *)
Theorem rated_theme_listed (compound : string -> Q) (review : gmap string pyval)
    (theme : string) (a a' : buckets (list string)) :
  Rev2.analyze_review compound review = Ok a ->
  Tt.analyze_review compound review = Ok a' ->
  (forall s, dict_get theme (Rev2._analyze_numeric_ratings review) = Some s ->
             theme ∈ bucket s a)
  /\ (forall s, dict_get theme (Tt._analyze_numeric_ratings review) = Some s ->
                theme ∈ bucket s a').
Proof.
  intros H H'. split; intros s.
  - apply rev2_rated_listed with (1 := H).
  - apply tt_rated_listed with (1 := H').
Qed.

Lemma rated_theme_listed_witness :
  "work_life_balance" ∈ bucket Positive
                          (Buckets ["work_life_balance"] ["work_life_balance"] []).
Proof.
  destruct (rated_theme_listed no_score r_long_hours "work_life_balance"
              (Buckets ["work_life_balance"] ["work_life_balance"] [])
              (only Positive "work_life_balance")) as [H _].
  - vm_compute. reflexivity.
  - vm_compute. reflexivity.
  - apply H. vm_compute. reflexivity.
Defined.

(** X25.  Ratings that are numbers without being marks: a [bool] is an
    [int], so [True] and [False] are the ratings 1 and 0 and make the
    theme negative; [nan] compares false with both thresholds, so rev2.py
    gives no verdict and tt.py neutral; an infinity is positive or
    negative by its sign. *)
Theorem rating_special_values (review : gmap string pyval)
    (field theme : string) (rating : pyval) :
  (field, theme) ∈ rating_fields ->
  review !! field = Some rating ->
  match rating with
  | VBool _ =>
      dict_get theme (Rev2._analyze_numeric_ratings review) = Some Negative
      /\ dict_get theme (Tt._analyze_numeric_ratings review) = Some Negative
  | VFloat FNan =>
      dict_get theme (Rev2._analyze_numeric_ratings review) = None
      /\ dict_get theme (Tt._analyze_numeric_ratings review) = Some Neutral
  | VFloat (FInf negative) =>
      dict_get theme (Rev2._analyze_numeric_ratings review)
      = Some (if negative then Negative else Positive)
      /\ dict_get theme (Tt._analyze_numeric_ratings review)
         = Some (if negative then Negative else Positive)
  | _ => True
  end.
Proof.
  intros Hin Hget.
  destruct (rating_verdicts review field theme Hin) as [H1 H2].
  rewrite Hget in H1, H2. cbn [mbind option_bind] in H1, H2.
  destruct rating as [|b|z|[|negative|q]|s|b]; try exact I.
  - destruct b; split; assumption.
  - split; assumption.
  - destruct negative; split; assumption.
Qed.

Lemma rating_special_values_witness :
  dict_get "innovation" (Rev2._analyze_numeric_ratings r_flag) = Some Negative
  /\ dict_get "innovation" (Tt._analyze_numeric_ratings r_flag) = Some Negative.
Proof.
  apply (rating_special_values r_flag "innovation" "innovation" (VBool true)).
  - unfold rating_fields. do 3 apply list_elem_of_further. apply list_elem_of_here.
  - reflexivity.
Defined.

(** ** The tally *)

Section Tally_counts.

Context {R : Type}.
Variable analyze : R -> outcome (buckets (list string)).
Variable U : list string.
Hypothesis analyze_Ok : forall r a, analyze r = Ok a -> clean a /\ within U a.

Lemma tally_of_reviews reviews analyses :
  mapM analyze reviews = Ok analyses ->
  foldM (fun all_themes review =>
           analysis <- analyze review ;; Ok (tally_review all_themes analysis))
        reviews (Buckets [] [] [])
  = Ok (tally_of analyses)
  /\ forall s theme,
       count theme (bucket s (tally_of analyses)) = occurrences s theme analyses
       /\ (count theme (bucket s (tally_of analyses)) <= length reviews)%nat
       /\ (theme ∈ keys (bucket s (tally_of analyses))
           <-> (0 < occurrences s theme analyses)%nat).
Proof.
  intros E. rewrite foldM_tally, E. split; [reflexivity|].
  destruct (analyses_good _ _ analyze_Ok _ _ E) as [Hc _].
  intros s theme. rewrite (count_tally_of _ _ _ Hc).
  split; [reflexivity|]. split.
  - rewrite <- (mapM_length _ _ _ E). apply occurrences_le.
  - apply keys_tally_of, Hc.
Qed.

End Tally_counts.

(** X26.  The first loop of [generate_summary] counts reviews, not
    mentions: the tally of a theme under a polarity is the number of
    reviews whose result lists it there -- at most the number of reviews,
    however many fields of a review bring the theme up -- and a theme is
    a key of a tally exactly when that number is not zero. *)
Theorem tally_counts_reviews (compound : string -> Q)
    (reviews : list (gmap string pyval))
    (analyses analyses' : list (buckets (list string))) :
  mapM (Rev2.analyze_review compound) reviews = Ok analyses ->
  mapM (Tt.analyze_review compound) reviews = Ok analyses' ->
  exists all_themes all_themes',
    Rev2.tally compound reviews = Ok all_themes
    /\ Tt.tally compound reviews = Ok all_themes'
    /\ forall s theme,
         (count theme (bucket s all_themes) = occurrences s theme analyses
          /\ (count theme (bucket s all_themes) <= length reviews)%nat
          /\ (theme ∈ keys (bucket s all_themes)
              <-> (0 < occurrences s theme analyses)%nat))
         /\ (count theme (bucket s all_themes') = occurrences s theme analyses'
             /\ (count theme (bucket s all_themes') <= length reviews)%nat
             /\ (theme ∈ keys (bucket s all_themes')
                 <-> (0 < occurrences s theme analyses')%nat)).
Proof.
  intros E E'.
  destruct (tally_of_reviews _ _ (rev2_analyze_review_Ok compound) _ _ E) as [H Hc].
  destruct (tally_of_reviews _ _ (tt_analyze_review_Ok compound) _ _ E') as [H' Hc'].
  exists (tally_of analyses), (tally_of analyses').
  split; [exact H|]. split; [exact H'|].
  intros s theme. split; [apply Hc | apply Hc'].
Qed.

Lemma tally_counts_reviews_witness :
  exists all_themes,
    Rev2.tally no_score [r_long_hours; r_wlb] = Ok all_themes
    /\ count "work_life_balance" (bucket Positive all_themes) = 2%nat
    /\ count "work_life_balance" (bucket Negative all_themes) = 1%nat.
Proof.
  destruct (tally_counts_reviews no_score [r_long_hours; r_wlb]
              [Buckets ["work_life_balance"] ["work_life_balance"] [];
               only Positive "work_life_balance"]
              [only Positive "work_life_balance"; only Positive "work_life_balance"])
    as (all_themes & all_themes' & H & _ & Hc).
  - vm_compute. reflexivity.
  - vm_compute. reflexivity.
  - exists all_themes. split; [exact H|]. split.
    + rewrite (proj1 (proj1 (Hc Positive "work_life_balance"))). reflexivity.
    + rewrite (proj1 (proj1 (Hc Negative "work_life_balance"))). reflexivity.
Defined.

(** ** Reading a percentage back from a line *)






(** ** Letter case *)

Lemma lower_empty t : lower t = EmptyString <-> t = EmptyString.
Proof. destruct t; split; intros H; try reflexivity; discriminate H. Qed.

Lemma truthy_lower t1 t2 :
  lower t1 = lower t2 -> truthy (VStr t1) = truthy (VStr t2).
Proof.
  intros H. cbn [truthy].
  destruct (String.eqb_spec t1 "") as [->|H1], (String.eqb_spec t2 "") as [->|H2];
    try reflexivity; exfalso.
  - apply H2, lower_empty. symmetry. exact H.
  - apply H1, lower_empty. exact H.
Qed.

Lemma rev2_analyze_review_congr_text compound review1 review2 :
  Rev2._analyze_numeric_ratings review1 = Rev2._analyze_numeric_ratings review2 ->
  review1 !! "compensation_range" = review2 !! "compensation_range" ->
  review1 !! "currency" = review2 !! "currency" ->
  (forall r f, f ∈ ["headline"; "pros"; "cons"] ->
     Rev2.text_field compound review1 r f = Rev2.text_field compound review2 r f) ->
  Rev2.analyze_review compound review1 = Rev2.analyze_review compound review2.
Proof.
  intros Hr Hs Hc Ht. unfold Rev2.analyze_review. rewrite Hr, Hs, Hc.
  rewrite (foldM_ext (Rev2.text_field compound review1)
                     (Rev2.text_field compound review2)); [reflexivity|].
  intros s x Hx. apply Ht, Hx.
Qed.

Lemma tt_analyze_review_congr_text compound review1 review2 :
  Tt._analyze_numeric_ratings review1 = Tt._analyze_numeric_ratings review2 ->
  review1 !! "compensation_range" = review2 !! "compensation_range" ->
  review1 !! "currency" = review2 !! "currency" ->
  review1 !! "location" = review2 !! "location" ->
  (forall r ff, ff ∈ Tt.text_fields ->
     Tt.text_field compound review1 r ff = Tt.text_field compound review2 r ff) ->
  Tt.analyze_review compound review1 = Tt.analyze_review compound review2.
Proof.
  intros Hr Hs Hc Hl Ht. unfold Tt.analyze_review. rewrite Hr, Hs, Hc, Hl.
  rewrite (foldM_ext (Tt.text_field compound review1)
                     (Tt.text_field compound review2)); [reflexivity|].
  intros s x Hx. apply Ht, Hx.
Qed.

Lemma text_field_not_rated field :
  field ∈ ["headline"; "pros"; "cons"] ->
  (field ∉ map fst rating_fields)
  /\ field <> "compensation_range" /\ field <> "currency" /\ field <> "location".
Proof.
  intros H. repeat (apply elem_of_cons in H as [->|H]); [| | |inversion H];
    (split; [apply (bool_decide_unpack _); vm_compute; exact I|]);
    repeat split; discriminate.
Qed.

(** X28.  The letter case of a text counts for nothing but the scorer's
    verdict on a headline: two texts with the same lowered form, put under
    [headline], [pros] or [cons] of a review, get the same result from
    [analyze_review] in tt.py, and in rev2.py too under [pros] or
    [cons]. *)
Theorem text_case_insensitive (compound : string -> Q)
    (review : gmap string pyval) (field text1 text2 : string) :
  field ∈ ["headline"; "pros"; "cons"] ->
  lower text1 = lower text2 ->
  Tt.analyze_review compound (<[field := VStr text1]> review)
  = Tt.analyze_review compound (<[field := VStr text2]> review)
  /\ (field <> "headline" ->
      Rev2.analyze_review compound (<[field := VStr text1]> review)
      = Rev2.analyze_review compound (<[field := VStr text2]> review)).
Proof.
  intros Hf Hl.
  destruct (text_field_not_rated field Hf) as (Hr & Hs & Hc & Hloc).
  destruct (ratings_same_insert_delete review field (VStr text1) Hr) as [[R1 T1] _].
  destruct (ratings_same_insert_delete review field (VStr text2) Hr) as [[R2 T2] _].
  pose proof (truthy_lower _ _ Hl) as Htruth.
  split.
  - apply tt_analyze_review_congr_text.
    + rewrite T1, T2. reflexivity.
    + rewrite !lookup_insert_ne by congruence. reflexivity.
    + rewrite !lookup_insert_ne by congruence. reflexivity.
    + rewrite !lookup_insert_ne by congruence. reflexivity.
    + intros r [f forced] _. unfold Tt.text_field.
      destruct (String.eqb_spec field f) as [<-|Hne].
      * rewrite !lookup_insert_eq, Htruth. unfold Tt._analyze_text.
        rewrite Htruth. destruct (truthy (VStr text2)); [|reflexivity].
        cbn [negb as_str bind fst]. rewrite Hl. reflexivity.
      * rewrite !lookup_insert_ne by exact Hne. reflexivity.
  - intros Hh. apply rev2_analyze_review_congr_text.
    + rewrite R1, R2. reflexivity.
    + rewrite !lookup_insert_ne by congruence. reflexivity.
    + rewrite !lookup_insert_ne by congruence. reflexivity.
    + intros r f _. unfold Rev2.text_field.
      destruct (String.eqb_spec field f) as [<-|Hne].
      * rewrite !lookup_insert_eq, Htruth. unfold Rev2._analyze_text.
        rewrite Htruth. destruct (truthy (VStr text2)); [|reflexivity].
        cbn [negb as_str bind fst snd]. rewrite Hl.
        repeat (apply elem_of_cons in Hf as [->|Hf]);
          [contradiction | reflexivity | reflexivity | inversion Hf].
      * rewrite !lookup_insert_ne by exact Hne. reflexivity.
Qed.

Lemma text_case_insensitive_witness :
  Tt.analyze_review no_score (<["cons" := VStr "TOXIC Politics"]> ∅)
  = Tt.analyze_review no_score (<["cons" := VStr "toxic politics"]> ∅).
Proof.
  apply (text_case_insensitive no_score ∅ "cons" "TOXIC Politics"
           "toxic politics").
  - do 2 apply list_elem_of_further. apply list_elem_of_here.
  - vm_compute. reflexivity.
Defined.

(** ** A corpus repeated *)

Lemma mapM_app {A B : Type} (f : A -> outcome B) l1 l2 :
  mapM f (l1 ++ l2) = (a <- mapM f l1 ;; b <- mapM f l2 ;; Ok (a ++ b)).
Proof.
  induction l1 as [|x l1 IH]; cbn [mapM app bind].
  - destruct (mapM f l2); reflexivity.
  - destruct (f x) as [y|]; cbn [bind]; [|reflexivity].
    rewrite IH. destruct (mapM f l1) as [a|]; cbn [bind]; [|reflexivity].
    destruct (mapM f l2); reflexivity.
Qed.

Lemma mapM_repeat {A B : Type} (f : A -> outcome B) l m :
  (0 < m)%nat ->
  mapM f (copies m l) = (a <- mapM f l ;; Ok (copies m a)).
Proof.
  destruct m as [|m]; [lia|]. intros _.
  cbn [copies]. rewrite mapM_app.
  destruct (mapM f l) as [a|] eqn:E; cbn [bind]; [|reflexivity].
  assert (H : mapM f (copies m l) = Ok (copies m a)).
  { induction m as [|m IH]; [reflexivity|].
    cbn [copies]. rewrite mapM_app, E, IH. reflexivity. }
  rewrite H. reflexivity.
Qed.

Lemma occurrences_app s t l1 l2 :
  occurrences s t (l1 ++ l2) = (occurrences s t l1 + occurrences s t l2)%nat.
Proof. unfold occurrences. rewrite filter_app, length_app. reflexivity. Qed.

Lemma occurrences_repeat s t l m :
  occurrences s t (copies m l) = (m * occurrences s t l)%nat.
Proof.
  induction m as [|m IH]; [reflexivity|].
  cbn [copies]. rewrite occurrences_app, IH. lia.
Qed.

Lemma length_repeat {A : Type} (l : list A) m :
  length (copies m l) = (m * length l)%nat.
Proof.
  induction m as [|m IH]; [reflexivity|].
  cbn [copies]. rewrite length_app, IH. lia.
Qed.

Lemma elem_of_repeat {A : Type} (l : list A) m x :
  x ∈ copies m l -> x ∈ l.
Proof.
  induction m as [|m IH]; cbn [copies].
  - intros H. inversion H.
  - rewrite elem_of_app. intros [H|H]; [exact H | apply IH, H].
Qed.

Lemma keys_incr_old t d : t ∈ keys d -> keys (incr t d) = keys d.
Proof. apply keys_dict_set_old. Qed.

Lemma keys_add_all_old themes d :
  (forall t, t ∈ themes -> t ∈ keys d) ->
  keys (fold_left (fun d theme => incr theme d) themes d) = keys d.
Proof.
  revert d. induction themes as [|t themes IH]; intros d H; [reflexivity|].
  cbn [fold_left]. rewrite IH.
  - apply keys_incr_old, H. left.
  - intros t' Ht'. rewrite keys_incr_old by (apply H; left). apply H. right. exact Ht'.
Qed.

Lemma keys_fold_tally_old s rest acc :
  (forall x t, x ∈ rest -> t ∈ bucket s x -> t ∈ keys (bucket s acc)) ->
  keys (bucket s (fold_left tally_review rest acc)) = keys (bucket s acc).
Proof.
  revert acc. induction rest as [|x rest IH]; intros acc H; [reflexivity|].
  cbn [fold_left].
  assert (Hx : keys (bucket s (tally_review acc x)) = keys (bucket s acc)).
  { rewrite tally_review_bucket. apply keys_add_all_old.
    intros t Ht. apply (H x); [left | exact Ht]. }
  rewrite IH, Hx; [reflexivity|].
  intros y t Hy Ht. rewrite Hx. apply (H y); [right; exact Hy | exact Ht].
Qed.

Lemma occurrences_pos s t analyses x :
  x ∈ analyses -> t ∈ bucket s x -> (0 < occurrences s t analyses)%nat.
Proof.
  intros Hx Ht. unfold occurrences.
  assert (Hin : x ∈ filter (fun a => t ∈ bucket s a) analyses)
    by (apply list_elem_of_filter; split; assumption).
  destruct (filter _ analyses); [inversion Hin | cbn [length]; lia].
Qed.

Lemma keys_tally_repeat s analyses m :
  Forall clean analyses -> (0 < m)%nat ->
  keys (bucket s (tally_of (copies m analyses)))
  = keys (bucket s (tally_of analyses)).
Proof.
  intros Hc Hm. destruct m as [|m]; [lia|].
  cbn [copies]. unfold tally_of. rewrite fold_left_app.
  apply keys_fold_tally_old. intros x t Hx Ht.
  apply elem_of_repeat in Hx.
  apply (keys_tally_of s t analyses Hc). eapply occurrences_pos; eassumption.
Qed.

Lemma share_repeat m k n :
  (0 < m)%nat -> (share (m * k) (m * n) == share k n)%Q.
Proof.
  intros Hm. destruct n as [|n].
  - rewrite Nat.mul_0_r, !share_0_r. reflexivity.
  - unfold share. rewrite !Nat2Z.inj_mul, !inject_Z_mult.
    assert (H1 : ~ (inject_Z (Z.of_nat m) == 0)%Q).
    { unfold Qeq. cbn [inject_Z Qnum Qden]. lia. }
    assert (H2 : ~ (inject_Z (Z.of_nat (S n)) == 0)%Q).
    { unfold Qeq. cbn [inject_Z Qnum Qden]. lia. }
    field. split; assumption.
Qed.

Lemma round_half_even_nearest q : nearest q (round_half_even q).
Proof.
  destruct q as [n d]. unfold round_half_even, nearest. cbn [Qnum Qden].
  pose proof (Z.div_mod n (Z.pos d) ltac:(lia)) as Hdm.
  pose proof (Z.mod_pos_bound n (Z.pos d) ltac:(lia)) as Hm.
  set (f := (n / Z.pos d)%Z) in *. set (m := (n mod Z.pos d)%Z) in *.
  assert (Hstrict : forall z : Z,
            (2 * (z * Z.pos d - n) < Z.pos d)%Z ->
            (2 * (n - z * Z.pos d) < Z.pos d)%Z ->
            ((n # d) - (1 # 2) < inject_Z z)%Q
            /\ (inject_Z z < (n # d) + (1 # 2))%Q).
  { intros z H1 H2. unfold Qlt, Qminus, Qplus, Qopp, inject_Z. cbn [Qnum Qden].
    rewrite ?Pos2Z.inj_mul. split; lia. }
  assert (Hlow : forall z : Z,
            (2 * (z * Z.pos d - n) = - Z.pos d)%Z ->
            (inject_Z z == (n # d) - (1 # 2))%Q).
  { intros z H. unfold Qeq, Qminus, Qplus, Qopp, inject_Z. cbn [Qnum Qden].
    rewrite ?Pos2Z.inj_mul. lia. }
  assert (Hhigh : forall z : Z,
            (2 * (z * Z.pos d - n) = Z.pos d)%Z ->
            (inject_Z z == (n # d) + (1 # 2))%Q).
  { intros z H. unfold Qeq, Qminus, Qplus, Qopp, inject_Z. cbn [Qnum Qden].
    rewrite ?Pos2Z.inj_mul. lia. }
  destruct (Z.compare_spec (2 * m) (Z.pos d)) as [He|Hl|Hg].
  - right. destruct (Z.even f) eqn:Ef.
    + split; [left; apply Hlow; lia | exact Ef].
    + split; [right; apply Hhigh; lia|].
      rewrite Z.even_add, Ef. reflexivity.
  - left. apply Hstrict; lia.
  - left. apply Hstrict; lia.
Qed.

Lemma inject_Z_lt_1 z z' : (inject_Z z - inject_Z z' < 1)%Q -> (z <= z')%Z.
Proof.
  intros H. assert (H' : (inject_Z z < inject_Z (z' + 1))%Q)
    by (rewrite inject_Z_plus; change (inject_Z 1) with 1%Q; lra).
  rewrite <- Zlt_Qlt in H'. lia.
Qed.

Lemma inject_Z_eq_1 z z' : (inject_Z z - inject_Z z' == 1)%Q -> (z = z' + 1)%Z.
Proof.
  intros H. assert (H' : (inject_Z z == inject_Z (z' + 1))%Q)
    by (rewrite inject_Z_plus; change (inject_Z 1) with 1%Q; lra).
  unfold Qeq, inject_Z in H'. cbn [Qnum Qden] in H'. lia.
Qed.

Lemma nearest_unique q z z' : nearest q z -> nearest q z' -> z = z'.
Proof.
  intros [[H1 H2]|[[H|H] He]] [[H1' H2']|[[H'|H'] He']].
  - assert (z <= z')%Z by (apply inject_Z_lt_1; lra).
    assert (z' <= z)%Z by (apply inject_Z_lt_1; lra). lia.
  - assert (z <= z')%Z by (apply inject_Z_lt_1; lra).
    assert (z' <= z)%Z by (apply inject_Z_lt_1; lra). lia.
  - assert (z <= z')%Z by (apply inject_Z_lt_1; lra).
    assert (z' <= z)%Z by (apply inject_Z_lt_1; lra). lia.
  - assert (z <= z')%Z by (apply inject_Z_lt_1; lra).
    assert (z' <= z)%Z by (apply inject_Z_lt_1; lra). lia.
  - assert (z <= z')%Z by (apply inject_Z_lt_1; lra).
    assert (z' <= z)%Z by (apply inject_Z_lt_1; lra). lia.
  - assert (Hz : z' = (z + 1)%Z) by (apply inject_Z_eq_1; lra).
    subst z'. rewrite Z.even_add, He in He'. discriminate He'.
  - assert (z <= z')%Z by (apply inject_Z_lt_1; lra).
    assert (z' <= z)%Z by (apply inject_Z_lt_1; lra). lia.
  - assert (Hz : z = (z' + 1)%Z) by (apply inject_Z_eq_1; lra).
    subst z. rewrite Z.even_add, He' in He. discriminate He.
  - assert (z <= z')%Z by (apply inject_Z_lt_1; lra).
    assert (z' <= z)%Z by (apply inject_Z_lt_1; lra). lia.
Qed.

Lemma nearest_Qeq q q' z : (q == q')%Q -> nearest q z -> nearest q' z.
Proof.
  intros Hq [[H1 H2]|[[H|H] He]].
  - left. split; lra.
  - right. split; [left; lra | exact He].
  - right. split; [right; lra | exact He].
Qed.

Lemma round_half_even_Qeq q q' :
  (q == q')%Q -> round_half_even q = round_half_even q'.
Proof.
  intros H. apply (nearest_unique q').
  - apply (nearest_Qeq q); [exact H | apply round_half_even_nearest].
  - apply round_half_even_nearest.
Qed.

Lemma fmt_1f_Qeq q q' : (q == q')%Q -> fmt_1f q = fmt_1f q'.
Proof.
  intros H. unfold fmt_1f.
  rewrite (round_half_even_Qeq (q * 10) (q' * 10)) by (rewrite H; reflexivity).
  reflexivity.
Qed.

Lemma render_Qeq theme_texts theme q q' :
  (q == q')%Q -> render theme_texts theme q = render theme_texts theme q'.
Proof. intros H. unfold render. rewrite (fmt_1f_Qeq q q' H). reflexivity. Qed.

Lemma rev2_rule_Qeq p g u p' g' u' :
  (p == p')%Q -> (g == g')%Q -> (u == u')%Q ->
  same_entry (rev2_rule p g u) (rev2_rule p' g' u').
Proof.
  intros Hp Hg Hu. unfold rev2_rule, Rev2.dominant, max3, max2.
  q_cases; cbn [andb same_entry]; try (split; [reflexivity | assumption]);
    try exact I; exfalso; lra.
Qed.

Lemma tt_rule_Qeq p g u p' g' u' :
  (p == p')%Q -> (g == g')%Q -> (u == u')%Q ->
  same_entry (tt_rule p g u) (tt_rule p' g' u').
Proof.
  intros Hp Hg Hu. unfold tt_rule, Tt.dominant.
  assert (Hmax : (max2 p g == max2 p' g')%Q).
  { unfold max2. q_cases; lra. }
  assert (Hmin : (min2 p g == min2 p' g')%Q).
  { unfold min2. q_cases; lra. }
  assert (Habs : (Qabs (p - g) == Qabs (p' - g'))%Q).
  { rewrite Hp, Hg. reflexivity. }
  unfold Qlt_bool.
  rewrite (Qleb_comp 30%Q 30%Q (Qeq_refl _) _ _ Hmax).
  rewrite (Qleb_comp 15%Q 15%Q (Qeq_refl _) _ _ Habs).
  rewrite (Qleb_comp _ _ Hp _ _ Hg).
  destruct (negb (Qle_bool 30 (max2 p' g')) || negb (Qle_bool 15 (Qabs (p' - g'))));
    cbn [snd].
  - rewrite (Qleb_comp 15%Q 15%Q (Qeq_refl _) (u + min2 p g)%Q (u' + min2 p' g')%Q)
      by (rewrite Hu, Hmin; reflexivity).
    destruct (Qle_bool 15 (u' + min2 p' g')%Q); cbn [same_entry]; [|exact I].
    split; [reflexivity|]. rewrite Hu, Hmin. reflexivity.
  - destruct (negb (Qle_bool p' g')); cbn [snd].
    + rewrite (Qleb_comp 15%Q 15%Q (Qeq_refl _) _ _ Hp).
      destruct (Qle_bool 15 p'); cbn [same_entry]; [|exact I].
      split; [reflexivity | exact Hp].
    + rewrite (Qleb_comp 15%Q 15%Q (Qeq_refl _) _ _ Hg).
      destruct (Qle_bool 15 g'); cbn [same_entry]; [|exact I].
      split; [reflexivity | exact Hg].
Qed.

Lemma buckets_ext {A : Type} (r r' : buckets A) :
  (forall s, bucket s r = bucket s r') -> r = r'.
Proof.
  intros H. destruct r as [p g u], r' as [p' g' u'].
  pose proof (H Positive) as H1. pose proof (H Negative) as H2.
  pose proof (H Neutral) as H3. cbn in H1, H2, H3. congruence.
Qed.

Section Repeated.

Context {R : Type}.
Variable analyze : R -> outcome (buckets (list string)).
Variable rule : Q -> Q -> Q -> option (sentiment * Q).
Variable theme_texts : list (string * string).
Variable U : list string.
Variable slot : list string -> string -> N.

Hypothesis analyze_Ok : forall r a, analyze r = Ok a -> clean a /\ within U a.
Hypothesis rule_Qeq : forall p g u p' g' u',
  (p == p')%Q -> (g == g')%Q -> (u == u')%Q ->
  same_entry (rule p g u) (rule p' g' u').

Lemma lines_same_entries s T N T' N' themes :
  (forall t, same_entry (entry_of rule T N t) (entry_of rule T' N' t)) ->
  lines theme_texts s (chosen_of rule T N themes)
  = lines theme_texts s (chosen_of rule T' N' themes).
Proof.
  intros H. unfold lines, chosen_of.
  induction themes as [|t themes IH]; [reflexivity|].
  cbn [omap list_omap]. specialize (H t).
  destruct (entry_of rule T N t) as [[s0 x]|], (entry_of rule T' N' t) as [[s0' x']|];
    cbn [same_entry] in H; try contradiction;
    cbn [fmap option_fmap option_map]; [|exact IH].
  destruct H as [<- Hx]. rewrite !filter_cons. cbn [fst snd].
  destruct (decide (s0 = s)); [|exact IH].
  cbn [map fst snd]. rewrite IH, (render_Qeq _ _ _ _ Hx). reflexivity.
Qed.

Lemma summarize_copies m reviews :
  (0 < m)%nat ->
  (analyses <- mapM analyze (copies m reviews) ;;
   sort_summary (fill_summary (render theme_texts)
     (chosen_of rule (tally_of analyses) (length analyses)
        (unique_themes slot (tally_of analyses)))))
  = (analyses <- mapM analyze reviews ;;
     sort_summary (fill_summary (render theme_texts)
       (chosen_of rule (tally_of analyses) (length analyses)
          (unique_themes slot (tally_of analyses))))).
Proof.
  intros Hm. rewrite (mapM_repeat _ _ _ Hm).
  destruct (mapM analyze reviews) as [analyses|] eqn:E; cbn [bind]; [|reflexivity].
  destruct (analyses_good _ _ analyze_Ok _ _ E) as [Hc _].
  assert (Hc' : Forall clean (copies m analyses)).
  { apply Forall_forall. intros x Hx. apply elem_of_repeat in Hx.
    rewrite Forall_forall in Hc. apply Hc, Hx. }
  f_equal. apply buckets_ext. intros s. rewrite !fill_summary_bucket.
  assert (Hthemes : unique_themes slot (tally_of (copies m analyses))
                    = unique_themes slot (tally_of analyses)).
  { unfold unique_themes.
    pose proof (keys_tally_repeat Positive analyses m Hc Hm) as K1.
    pose proof (keys_tally_repeat Negative analyses m Hc Hm) as K2.
    pose proof (keys_tally_repeat Neutral analyses m Hc Hm) as K3.
    cbn [bucket] in K1, K2, K3. rewrite K1, K2, K3. reflexivity. }
  rewrite Hthemes. apply lines_same_entries. intros t. unfold entry_of.
  change (positive (tally_of (copies m analyses)))
    with (bucket Positive (tally_of (copies m analyses))).
  change (negative (tally_of (copies m analyses)))
    with (bucket Negative (tally_of (copies m analyses))).
  change (neutral (tally_of (copies m analyses)))
    with (bucket Neutral (tally_of (copies m analyses))).
  change (positive (tally_of analyses)) with (bucket Positive (tally_of analyses)).
  change (negative (tally_of analyses)) with (bucket Negative (tally_of analyses)).
  change (neutral (tally_of analyses)) with (bucket Neutral (tally_of analyses)).
  rewrite !(count_tally_of _ _ _ Hc'), !(count_tally_of _ _ _ Hc).
  rewrite !occurrences_repeat, length_repeat.
  apply rule_Qeq; apply share_repeat, Hm.
Qed.

End Repeated.

(** X29.  Percentages are relative: a corpus in which every review is
    repeated -- the whole list [m] times over -- gets the same summary as
    the corpus itself, a failure included. *)
Theorem summary_of_copies (compound : string -> Q)
    (slot : list string -> string -> N) (reviews : list (gmap string pyval))
    (m : nat) :
  (0 < m)%nat ->
  Rev2.generate_summary compound slot (copies m reviews)
  = Rev2.generate_summary compound slot reviews
  /\ Tt.generate_summary compound slot (copies m reviews)
     = Tt.generate_summary compound slot reviews.
Proof.
  intros Hm. split.
  - rewrite !rev2_generate_summary.
    apply (summarize_copies _ rev2_rule Rev2.theme_texts (keys Rev2.themes) slot
             (rev2_analyze_review_Ok compound) rev2_rule_Qeq m reviews Hm).
  - rewrite !tt_generate_summary.
    apply (summarize_copies _ tt_rule Tt.theme_texts (keys Tt.themes) slot
             (tt_analyze_review_Ok compound) tt_rule_Qeq m reviews Hm).
Qed.

Lemma summary_of_copies_witness :
  Rev2.generate_summary no_score first_index (copies 3 [r_cg; r_mid])
  = Rev2.generate_summary no_score first_index [r_cg; r_mid]
  /\ Tt.generate_summary no_score first_index (copies 3 [r_cg; r_mid])
     = Tt.generate_summary no_score first_index [r_cg; r_mid].
Proof. apply summary_of_copies. lia. Defined.

(** ** Keywords match inside longer texts *)

Lemma prefix_app k t b :
  String.prefix k t = true -> String.prefix k (t ++ b)%string = true.
Proof.
  revert t. induction k as [|c k IH]; intros t;
    [intros _; destruct (t ++ b)%string; reflexivity|].
  destruct t as [|c' t]; cbn [String.prefix]; [discriminate|].
  rewrite append_cons. cbn [String.prefix].
  destruct (Ascii.ascii_dec c c'); [|discriminate]. apply IH.
Qed.

Lemma contains_app_r t b k :
  contains t k = true -> contains (t ++ b)%string k = true.
Proof.
  induction t as [|c t IH].
  - cbn [contains]. rewrite orb_false_r. intros H.
    destruct k; [|discriminate H]. destruct b; reflexivity.
  - rewrite append_cons. cbn [contains]. intros H.
    apply orb_true_iff in H as [H|H]; apply orb_true_iff.
    + left. apply (prefix_app k (String c t) b H).
    + right. apply IH, H.
Qed.

Lemma contains_app_l a t k :
  contains t k = true -> contains (a ++ t)%string k = true.
Proof.
  intros H. induction a as [|c a IH]; [exact H|].
  rewrite append_cons. cbn [contains]. rewrite IH. apply orb_true_r.
Qed.

Lemma lower_app a b : lower (a ++ b)%string = (lower a ++ lower b)%string.
Proof.
  unfold lower. induction a as [|c a IH]; [reflexivity|].
  rewrite append_cons. cbn [map_string]. rewrite IH, append_cons. reflexivity.
Qed.

Lemma contains_extension before text after k :
  contains (lower text) k = true ->
  contains (lower (before ++ text ++ after)%string) k = true.
Proof.
  intros H. rewrite !lower_app. apply contains_app_l, contains_app_r, H.
Qed.

Lemma existsb_impl {A : Type} (f g : A -> bool) l :
  (forall x, f x = true -> g x = true) -> existsb f l = true -> existsb g l = true.
Proof.
  intros H. rewrite !existsb_exists. intros (x & Hx & Hf). exists x. auto.
Qed.

Lemma sublist_filter_impl {A : Type} (f g : A -> bool) (l : list A) :
  (forall x, f x = true -> g x = true) ->
  sublist (filter (fun x => f x) l) (filter (fun x => g x) l).
Proof.
  intros H. induction l as [|x l IH]; [constructor|].
  rewrite !filter_cons.
  destruct (f x) eqn:Ef.
  - rewrite (H x Ef). cbn. constructor. exact IH.
  - destruct (g x); cbn; [constructor|]; exact IH.
Qed.

(** X30.  Keywords are looked for as substrings, so a text that contains
    another one -- with anything before and after it -- yields every
    theme that the shorter text yields, in the same order, in both
    analyzers and for each of the three keyword lists of tt.py. *)
Theorem themes_survive_extension (compound : string -> Q)
    (before text after : string) :
  (exists themes s themes' s',
     Rev2._analyze_text compound (VStr text) = Ok (themes, s)
     /\ Rev2._analyze_text compound (VStr (before ++ text ++ after)) = Ok (themes', s')
     /\ sublist themes themes')
  /\ (exists found s found' s',
        Tt._analyze_text compound (VStr text) = Ok (found, s)
        /\ Tt._analyze_text compound (VStr (before ++ text ++ after)) = Ok (found', s')
        /\ forall p, sublist (bucket p found) (bucket p found')).
Proof.
  unfold Rev2._analyze_text, Tt._analyze_text.
  destruct (String.eqb_spec text "") as [->|Ht].
  - destruct (truthy (VStr (before ++ "" ++ after)));
      cbn [truthy String.eqb negb as_str bind];
      (split; do 4 eexists; (split; [reflexivity|]); (split; [reflexivity|]));
      try (intros []); cbn [bucket positive negative neutral]; apply sublist_nil_l.
  - assert (Ht' : (before ++ text ++ after)%string <> EmptyString).
    { intros H. apply Ht. destruct before; [|discriminate H].
      destruct text; [reflexivity | discriminate H]. }
    apply truthy_text in Ht, Ht'. rewrite Ht, Ht'. cbn [negb as_str bind].
    split.
    + do 4 eexists. split; [reflexivity|]. split; [reflexivity|].
      apply fmap_sublist, sublist_filter_impl. intros [t keywords]. cbn [snd].
      apply existsb_impl. intros k. apply contains_extension.
    + do 4 eexists. split; [reflexivity|]. split; [reflexivity|].
      intros p. destruct p; cbn [bucket positive negative neutral]; unfold Tt.matched;
        apply fmap_sublist, sublist_filter_impl; intros [t keywords]; cbn [snd];
        apply existsb_impl; intros k; apply contains_extension.
Qed.
